(** * Nymeria: OAuth session lifecycle manager

    A shallow embedding of the session core of the Nymeria blogging
    application (identity utilities, input sanitizers, fixed-window rate
    limiter, synchronization / activity / deactivation route handlers and the
    client-side [NymeriaAuth] orchestrator), with the properties of its
    specification stated and settled against it.

    Conventions of the embedding.
    - A JavaScript string is a [list ascii]: one [ascii] per UTF-16 code unit,
      for the code units U+0000 .. U+00FF.  White space ([\s], [trim]) and
      case mapping ([toLowerCase]) are the ECMAScript ones on that range.
    - Numbers that the code uses as counters and millisecond clocks are [Z].
    - What the code reaches through a library or the platform (the clock, the
      random source, the URL parser, the OAuth client, [fetch], the database
      driver) is an explicit input of the function that uses it. *)

From Stdlib Require Import ZArith NArith Ascii String List Bool Lia.
From stdpp Require Import gmap strings list.

Local Open Scope Z_scope.

(** ** JavaScript strings *)

Module JS.

Abbreviation jsstring := (list ascii).

(** A string literal of the source. *)
Definition lit (s : string) : jsstring := list_ascii_of_string s.
Arguments lit : simpl never.

Definition code (c : ascii) : N := N_of_ascii c.

Definition between (lo hi : N) (c : ascii) : bool :=
  ((lo <=? code c) && (code c <=? hi))%N.

Definition is_code (n : N) (c : ascii) : bool := (code c =? n)%N.

(** [\s] of a regular expression, and the characters [trim] strips:
    TAB, LF, VT, FF, CR, SPACE and NBSP. *)
Definition is_space (c : ascii) : bool :=
  between 9 13 c || is_code 32 c || is_code 160 c.

Definition is_upper (c : ascii) : bool := between 65 90 c.
Definition is_lower (c : ascii) : bool := between 97 122 c.
Definition is_digit (c : ascii) : bool := between 48 57 c.

(** [[a-zA-Z0-9]] *)
Definition is_alnum (c : ascii) : bool := is_lower c || is_upper c || is_digit c.

Fixpoint trimStart (s : jsstring) : jsstring :=
  match s with
  | [] => []
  | c :: r => if is_space c then trimStart r else s
  end.

Definition trimEnd (s : jsstring) : jsstring := rev (trimStart (rev s)).

Definition trim (s : jsstring) : jsstring := trimEnd (trimStart s).

(** [String.prototype.toLowerCase] on one code unit: A-Z, and the Latin-1
    capitals U+00C0 .. U+00DE except the multiplication sign U+00D7. *)
Definition lower_char (c : ascii) : ascii :=
  if is_upper c || (between 192 222 c && negb (is_code 215 c))
  then ascii_of_N (code c + 32)
  else c.

Definition toLowerCase (s : jsstring) : jsstring := map lower_char s.

(** [s.startsWith(p)], returning what follows the prefix. *)
Fixpoint strip_prefix (p s : jsstring) : option jsstring :=
  match p, s with
  | [], _ => Some s
  | a :: p', b :: s' => if Ascii.eqb a b then strip_prefix p' s' else None
  | _ :: _, [] => None
  end.

Definition startsWith (s p : jsstring) : bool :=
  match strip_prefix p s with Some _ => true | None => false end.

(** [/^[cls]+$/.test(s)] *)
Definition all_plus (cls : ascii -> bool) (s : jsstring) : bool :=
  match s with
  | [] => false
  | _ :: _ => forallb cls s
  end.

(** [s.substring(0, n)] *)
Definition substring0 (n : nat) (s : jsstring) : jsstring := take n s.

(** [s.includes(sub)] *)
Fixpoint includes (s sub : jsstring) : bool :=
  match strip_prefix sub s with
  | Some _ => true
  | None =>
      match s with
      | [] => false
      | _ :: r => includes r sub
      end
  end.

(** ** Control flow of the handlers

    A computation over a mutable state [S] returns a value, throws, or never
    returns; what it did to the state before throwing stays done. *)

Inductive JsError :=
  | ZodError                   (* [schema.parse] rejected the body *)
  | OtherError.                (* any other thrown value *)

Inductive Res (S A : Type) :=
  | Val (a : A) (s : S)
  | Exn (e : JsError) (s : S)
  | Hang.
Arguments Val {S A} a s.
Arguments Exn {S A} e s.
Arguments Hang {S A}.

Definition M (S A : Type) := S -> Res S A.

Definition ret {S A} (a : A) : M S A := fun s => Val a s.

Definition bind {S A B} (m : M S A) (k : A -> M S B) : M S B :=
  fun s =>
    match m s with
    | Val a s' => k a s'
    | Exn e s' => Exn e s'
    | Hang => Hang
    end.

Definition throw {S A} (e : JsError) : M S A := fun s => Exn e s.

(** [try { m } catch (e) { h e }] *)
Definition try_catch {S A} (m : M S A) (h : JsError -> M S A) : M S A :=
  fun s =>
    match m s with
    | Exn e s' => h e s'
    | r => r
    end.

Definition get {S} : M S S := fun s => Val s s.
Definition modify {S} (f : S -> S) : M S unit := fun s => Val tt (f s).

End JS.

Import JS.

(** ** Input sanitizers ([src/lib/security/sanitize.ts]) *)

Module Sanitize.

(** [[\x00-\x08\x0B\x0C\x0E-\x1F\x7F]] *)
Definition is_control (c : ascii) : bool :=
  between 0 8 c || is_code 11 c || is_code 12 c || between 14 31 c || is_code 127 c.

(** [.replace(/[\x00-\x08\x0B\x0C\x0E-\x1F\x7F]/g, "")] *)
Definition strip_control (s : jsstring) : jsstring :=
  List.filter (fun c => negb (is_control c)) s.

(** [.replace(/\s+/g, " ")]: every maximal run of white space becomes one
    space.  [in_run] tells that the previous character was white space. *)
Fixpoint collapse_from (in_run : bool) (s : jsstring) : jsstring :=
  match s with
  | [] => []
  | c :: r =>
      if is_space c
      then (if in_run then collapse_from true r else " "%char :: collapse_from true r)
      else c :: collapse_from false r
  end.

Definition collapse_ws (s : jsstring) : jsstring := collapse_from false s.

Definition MAX_TEXT : nat := N.to_nat 10000.

Definition sanitizeText (input : jsstring) : jsstring :=
  substring0 MAX_TEXT (collapse_ws (strip_control (trim input))).

(** [[a-zA-Z0-9._-]] *)
Definition did_char (c : ascii) : bool :=
  is_alnum c || is_code 46 c || is_code 95 c || is_code 45 c.

(** [[a-zA-Z0-9.-]] *)
Definition handle_char (c : ascii) : bool :=
  is_alnum c || is_code 46 c || is_code 45 c.

(** [[a-zA-Z0-9_-]] *)
Definition token_char (c : ascii) : bool :=
  is_alnum c || is_code 95 c || is_code 45 c.

(** [/^did:(plc|web):[a-zA-Z0-9._-]+$/] *)
Definition re_did (s : jsstring) : bool :=
  match strip_prefix (lit "did:") s with
  | Some r =>
      match strip_prefix (lit "plc:") r with
      | Some t => all_plus did_char t
      | None =>
          match strip_prefix (lit "web:") r with
          | Some t => all_plus did_char t
          | None => false
          end
      end
  | None => false
  end.

(** [/^[a-zA-Z0-9.-]+$/] *)
Definition re_handle (s : jsstring) : bool := all_plus handle_char s.

(** [/^sess_[a-zA-Z0-9_-]+$/] *)
Definition re_session (s : jsstring) : bool :=
  match strip_prefix (lit "sess_") s with
  | Some t => all_plus token_char t
  | None => false
  end.

(** [/^dev_[a-zA-Z0-9_-]+$/] *)
Definition re_device (s : jsstring) : bool :=
  match strip_prefix (lit "dev_") s with
  | Some t => all_plus token_char t
  | None => false
  end.

Definition sanitizeDid (input : jsstring) : option jsstring :=
  let cleaned := toLowerCase (trim input) in
  if negb (re_did cleaned) then None
  else if (500 <? length cleaned)%nat then None
  else Some cleaned.

Definition sanitizeHandle (input : jsstring) : option jsstring :=
  let cleaned := toLowerCase (trim input) in
  if negb (re_handle cleaned) then None
  else if (length cleaned =? 0)%nat || (253 <? length cleaned)%nat then None
  else Some cleaned.

Definition sanitizeSessionId (input : jsstring) : option jsstring :=
  let cleaned := trim input in
  if negb (re_session cleaned) then None
  else if (128 <? length cleaned)%nat then None
  else Some cleaned.

Definition sanitizeDeviceId (input : jsstring) : option jsstring :=
  let cleaned := trim input in
  if negb (re_device cleaned) then None
  else if (128 <? length cleaned)%nat then None
  else Some cleaned.

(** What [new URL(input)] exposes to [sanitizeUrl]. *)
Record URL := mkURL {
  protocol : jsstring;
  hostname : jsstring;
  href : jsstring            (* [url.toString()] *)
}.

(** [sanitizeUrl].  [URL_parse] is the platform's [new URL(_)]; [None] is the
    [TypeError] it throws on an input that is not a URL. *)
Definition sanitizeUrl (URL_parse : jsstring -> option URL) (input : jsstring)
  : option jsstring :=
  match URL_parse input with
  | None => None
  | Some url =>
      if negb (bool_decide (protocol url = lit "http:")
               || bool_decide (protocol url = lit "https:"))
      then None
      else if (length (hostname url) =? 0)%nat || (253 <? length (hostname url))%nat
      then None
      else Some (href url)
  end.

End Sanitize.

(** ** Identity utilities ([src/lib/auth/utils.ts]) *)

Module IdentityUtils.

(** The random source of [nanoid]: the bytes of [crypto.getRandomValues], in
    the order in which the generator reads them. *)
Abbreviation entropy := (list N).

(** [customAlphabet(alphabet, size)] of the [nanoid] package, a dependency of
    the repository.  Its generator computes
    [mask = (2 << (31 - clz32((alphabet.length - 1) | 1))) - 1], then reads
    random bytes and appends [alphabet[byte & mask] || ''] to the identifier
    until it has [size] characters.  The bytes come in batches; what is left
    of the last batch is dropped, which the model leaves in the source. *)
Definition mask_of (alphabet : jsstring) : N :=
  N.shiftl 2 (N.log2 (N.lor (N.of_nat (length alphabet) - 1) 1)) - 1.

(** One pass of the generator's loop over the random bytes, from the
    identifier built so far.  [None]: the source ran dry before the identifier
    was complete (the code would go on reading). *)
Fixpoint customRandom (alphabet : jsstring) (size : nat) (id : jsstring)
    (bytes : entropy) : option (jsstring * entropy) :=
  match bytes with
  | [] => None
  | b :: rest =>
      let id' :=
        match alphabet !! N.to_nat (N.land b (mask_of alphabet)) with
        | Some c => id ++ [c]
        | None => id
        end in
      if (length id' =? size)%nat then Some (id', rest)
      else customRandom alphabet size id' rest
  end.

Definition customAlphabet (alphabet : jsstring) (size : nat) (bytes : entropy)
  : option (jsstring * entropy) :=
  customRandom alphabet size [] bytes.

(** [const nanoid = customAlphabet("1234567890abcdefghijklmnopqrstuvwxyz", 21)] *)
Definition ALPHABET : jsstring := lit "1234567890abcdefghijklmnopqrstuvwxyz".

Definition nanoid : entropy -> option (jsstring * entropy) :=
  customAlphabet ALPHABET 21.

Definition generateSessionId (bytes : entropy) : option (jsstring * entropy) :=
  match nanoid bytes with
  | Some (id, rest) => Some (lit "sess_" ++ id, rest)
  | None => None
  end.

Definition generateDeviceId (bytes : entropy) : option (jsstring * entropy) :=
  match nanoid bytes with
  | Some (id, rest) => Some (lit "dev_" ++ id, rest)
  | None => None
  end.

(** The lowercase base36 alphabet [[0-9a-z]] of the specification. *)
Definition base36 (c : ascii) : bool := is_digit c || is_lower c.

(** A random byte that the generator turns into a character. *)
Definition usable (b : N) : bool :=
  (N.land b (mask_of ALPHABET) <? N.of_nat (length ALPHABET))%N.

End IdentityUtils.

(** ** Rate limiter ([RateLimiter], [applyRateLimit]) *)

Module RateLimit.

Record RateLimitEntry := mkEntry {
  count : Z;
  resetTime : Z
}.

Record CheckResult := mkCheck {
  allowed : bool;
  remaining : Z;
  cr_resetTime : Z
}.

(** [RateLimiter.check].  [now] is the reading of [Date.now()]; the store is
    the limiter's [Map], returned with the entry of [identifier] replaced. *)
Definition check (now : Z) (store : gmap jsstring RateLimitEntry)
    (identifier : jsstring) (limit windowMs : Z)
  : CheckResult * gmap jsstring RateLimitEntry :=
  let fresh :=
    let resetTime := now + windowMs in
    (mkCheck true (limit - 1) resetTime,
     <[identifier := mkEntry 1 resetTime]> store) in
  match store !! identifier with
  | None => fresh
  | Some entry =>
      if now >? resetTime entry then fresh
      else if count entry >=? limit then
        (mkCheck false 0 (resetTime entry), store)
      else
        let entry' := mkEntry (count entry + 1) (resetTime entry) in
        (mkCheck true (limit - count entry') (resetTime entry'),
         <[identifier := entry']> store)
  end.

(** [RateLimiter.cleanup], the periodic sweep. *)
Definition cleanup (now : Z) (store : gmap jsstring RateLimitEntry)
  : gmap jsstring RateLimitEntry :=
  filter (fun kv => ¬ (now > resetTime kv.2)) store.

Record Config := mkConfig { limit : Z; windowMs : Z }.

Definition AUTH_SYNC : Config := mkConfig 10 (60 * 1000).
Definition AUTH_ACTIVITY : Config := mkConfig 30 (60 * 1000).
Definition USER_API : Config := mkConfig 100 (60 * 1000).
Definition GENERAL : Config := mkConfig 1000 (60 * 1000).

Definition applyRateLimit (now : Z) (store : gmap jsstring RateLimitEntry)
    (identifier : jsstring) (config : Config) :=
  check now store identifier (limit config) (windowMs config).

(** A run of calls [check(identifier, limit, windowMs)] at the given clock
    readings: the results in order, and the store left behind. *)
Fixpoint check_many (times : list Z) (store : gmap jsstring RateLimitEntry)
    (identifier : jsstring) (limit windowMs : Z)
  : list CheckResult * gmap jsstring RateLimitEntry :=
  match times with
  | [] => ([], store)
  | t :: ts =>
      let (r, store') := check t store identifier limit windowMs in
      let (rs, store'') := check_many ts store' identifier limit windowMs in
      (r :: rs, store'')
  end.

(** What call number [i] of a run inside a window answers, when the window
    had counted [k] calls before the run and ends at [R]. *)
Definition answer (limit k R : Z) (i : nat) (r : CheckResult) : Prop :=
  cr_resetTime r = R
  /\ if k + Z.of_nat i <? limit
     then allowed r = true /\ remaining r = limit - (k + Z.of_nat i + 1)
     else allowed r = false /\ remaining r = 0.

End RateLimit.

Declare Scope js_scope.
Delimit Scope js_scope with js.
Notation "x <- m ;; k" := (bind m (fun x => k))
  (at level 100, m at next level, right associativity) : js_scope.
Notation "m ;;; k" := (bind m (fun _ => k))
  (at level 100, right associativity) : js_scope.

(** ** Server: tables, route handlers *)

Module Server.

Import RateLimit.
Local Open Scope js_scope.

(** *** Tables ([users], [userSessions] of the schema)

    A stored row has a value in every column that the schema declares
    [notNull] or [primaryKey], and an [option] in the others ([None] is
    NULL).  The columns are those of the schema that the handlers read or
    write, under the names the handlers use; [banner] and [preferences],
    which no handler of this development touches, are left out.  The schema
    has no [description] column. *)

Record User := mkUser {
  u_id : N;                          (* [uuid("id").primaryKey()] *)
  u_did : jsstring;                  (* [text("did").notNull().unique()] *)
  u_handle : jsstring;               (* [text("handle").notNull()] *)
  u_displayName : option jsstring;
  u_avatar : option jsstring;
  u_pds : jsstring;                  (* [text("pds").notNull()] *)
  u_lastSeenAt : Z;
  u_isActive : bool;
  u_createdAt : Z;
  u_updatedAt : option Z
}.

Record DeviceInfo := mkDeviceInfo {
  userAgent : option jsstring;
  platform : option jsstring
}.

Record SessionMetadata := mkMetadata { deviceInfo : option DeviceInfo }.

Record UserSession := mkSession {
  s_id : N;
  s_userId : N;
  s_sessionId : jsstring;
  s_deviceId : option jsstring;
  s_lastActiveAt : Z;
  s_expiresAt : option Z;
  s_metadata : SessionMetadata;
  s_isActive : bool;
  s_createdAt : Z;
  s_updatedAt : option Z
}.

(** A persistence operation that a handler sent to the database. *)
Inductive DbOp :=
  | InsertUsers (did : jsstring)
  | InsertUserSessions (sessionId : jsstring)
  | UpdateUserSessions (sessionId : jsstring).

(** The state of the server process and of its database. *)
Record State := mkState {
  users : list User;
  userSessions : list UserSession;
  rateLimiter : gmap jsstring RateLimitEntry;
  db_log : list DbOp
}.

(** What one request meets outside the handler's code. *)
Record Env := mkEnv {
  date_now : Z;                    (* [Date.now()] in the rate limiter *)
  clock : nat -> Z;                (* the k-th [new Date()] of the handler *)
  db_clock : Z;                    (* [CURRENT_TIMESTAMP] of the database *)
  users_stmt_ok : bool;            (* the database runs the statement on [users] *)
  sessions_stmt_ok : bool;         (* the database runs the statement on [userSessions] *)
  is_url : jsstring -> bool;       (* zod's [.url()]: [new URL(_)] accepts *)
  datetime : jsstring -> option Z  (* zod's [.datetime()], then [new Date(_)] *)
}.

(** The [ON CONFLICT (key) DO UPDATE SET ...] part of an [INSERT] on a table
    with a unique key, for a new row that passed the constraints: the
    conflicting row is updated in place, otherwise the new row is added.
    Returns the row written; [None]: the updated row breaks a constraint. *)
Fixpoint upsert {Row : Type} (conflicts : Row -> bool) (update : Row -> option Row)
    (new : Row) (table : list Row) : option (Row * list Row) :=
  match table with
  | [] => Some (new, [new])
  | r :: table' =>
      if conflicts r then
        match update r with
        | Some r' => Some (r', r' :: table')
        | None => None
        end
      else
        match upsert conflicts update new table' with
        | Some (w, table'') => Some (w, r :: table'')
        | None => None
        end
  end.

(** [INSERT ... VALUES ... ON CONFLICT (key) DO UPDATE SET ... RETURNING *].
    The row that the statement proposes has, column by column, the value the
    statement gives or else the column's default.  Postgres checks it against
    the NOT NULL constraints before it looks for a conflict, so a proposed
    row with NULL in such a column makes the statement fail whether or not a
    row of the key exists.  [None]: the statement fails. *)
Definition insert_on_conflict {Values Row : Type} (not_null : Values -> option Row)
    (conflicts : Row -> bool) (update : Row -> option Row)
    (values : Values) (table : list Row) : option (Row * list Row) :=
  match not_null values with
  | Some new => upsert conflicts update new table
  | None => None
  end.

(** [UPDATE ... SET ... WHERE cond RETURNING *]: the rows updated, and the
    table. *)
Fixpoint update_where {Row : Type} (cond : Row -> bool) (update : Row -> Row)
    (table : list Row) : list Row * list Row :=
  match table with
  | [] => ([], [])
  | r :: table' =>
      let (hit, table'') := update_where cond update table' in
      if cond r then (update r :: hit, update r :: table'')
      else (hit, r :: table'')
  end.

Definition log_op (op : DbOp) : M State unit :=
  modify (fun st => mkState (users st) (userSessions st) (rateLimiter st)
                            (db_log st ++ [op])).

Definition set_users (us : list User) : M State unit :=
  modify (fun st => mkState us (userSessions st) (rateLimiter st) (db_log st)).

Definition set_userSessions (ss : list UserSession) : M State unit :=
  modify (fun st => mkState (users st) ss (rateLimiter st) (db_log st)).

Definition set_rateLimiter (rl : gmap jsstring RateLimitEntry) : M State unit :=
  modify (fun st => mkState (users st) (userSessions st) rl (db_log st)).

(** *** Requests and responses *)

(** A property of the JSON body as a zod string schema sees it. *)
Inductive JField :=
  | Absent
  | IsString (s : jsstring)
  | NotString.

Inductive JDeviceInfo :=
  | DevAbsent
  | DevObject (userAgent platform : JField)
  | DevOther.

Inductive JMetadata :=
  | MetaAbsent
  | MetaObject (deviceInfo : JDeviceInfo)
  | MetaOther.

Record SyncBody := mkSyncBody {
  b_did : JField;
  b_handle : JField;
  b_displayName : JField;
  b_avatar : JField;
  b_description : JField;
  b_pds : JField;
  b_sessionId : JField;
  b_deviceId : JField;
  b_metadata : JMetadata
}.

Record ActivityBody := mkActivityBody {
  a_sessionId : JField;
  a_lastActiveAt : JField
}.

Record DeactivateBody := mkDeactivateBody { d_sessionId : JField }.

(** A request: the headers the handlers read and the outcome of
    [request.json()] ([None]: the body is not JSON and the call rejects). *)
Record Request (B : Type) := mkRequest {
  x_forwarded_for : option jsstring;
  x_real_ip : option jsstring;
  content_type : option jsstring;
  json : option B
}.
Arguments x_forwarded_for {B} _.
Arguments x_real_ip {B} _.
Arguments content_type {B} _.
Arguments json {B} _.

Inductive Payload :=
  | Success (user : option User) (warning : option jsstring)
  | Failure (error : jsstring)
  | InvalidData                                (* error + zod issues *)
  | RateLimited (resetTime remaining : Z).

Record Response := mkResponse { status : nat; payload : Payload }.

(** [NextResponse.json(payload)] answers with status 200. *)
Definition json_ok (p : Payload) : Response := mkResponse 200 p.

(** The data a schema hands to the handler. *)
Record SyncData := mkSyncData {
  did : jsstring;
  handle : jsstring;
  displayName : option jsstring;
  avatar : option jsstring;
  description : option jsstring;
  pds : option jsstring;
  sessionId : jsstring;
  deviceId : jsstring;
  metadata : option SessionMetadata
}.

(** [z.string()] with further checks [chk], and its [.optional()]. *)
Definition z_string (chk : jsstring -> bool) (f : JField) : option jsstring :=
  match f with
  | IsString s => if chk s then Some s else None
  | _ => None
  end.

Definition z_optional (chk : jsstring -> bool) (f : JField)
  : option (option jsstring) :=
  match f with
  | Absent => Some None
  | IsString s => if chk s then Some (Some s) else None
  | NotString => None
  end.

Definition z_metadata (chk_ua chk_pf : jsstring -> bool) (m : JMetadata)
  : option (option SessionMetadata) :=
  match m with
  | MetaAbsent => Some None
  | MetaObject DevAbsent => Some (Some (mkMetadata None))
  | MetaObject (DevObject ua pf) =>
      match z_optional chk_ua ua, z_optional chk_pf pf with
      | Some ua', Some pf' => Some (Some (mkMetadata (Some (mkDeviceInfo ua' pf'))))
      | _, _ => None
      end
  | MetaObject DevOther => None
  | MetaOther => None
  end.

Definition any (_ : jsstring) : bool := true.
Definition min_len (n : nat) (s : jsstring) : bool := (n <=? length s)%nat.
Definition max_len (n : nat) (s : jsstring) : bool := (length s <=? n)%nat.

(** [schema.parse(body)]: the data, or a [ZodError]. *)
Definition zod_parse {B D S} (schema : B -> option D) (body : B) : M S D :=
  match schema body with
  | Some d => ret d
  | None => throw ZodError
  end.

(** [await request.json()] *)
Definition request_json {B S} (request : Request B) : M S B :=
  match json request with
  | Some b => ret b
  | None => throw OtherError
  end.

(** [x-forwarded-for ?? x-real-ip ?? "unknown"] *)
Definition clientIP {B} (request : Request B) : jsstring :=
  match x_forwarded_for request with
  | Some ip => ip
  | None =>
      match x_real_ip request with
      | Some ip => ip
      | None => lit "unknown"
      end
  end.

(** [contentType?.includes("application/json")] *)
Definition is_json_content {B} (request : Request B) : bool :=
  match content_type request with
  | Some ct => includes ct (lit "application/json")
  | None => false
  end.

(** *** Synchronization ([/api/auth/sync])

    The two statements of the route.  Drizzle builds a statement from the
    columns of the table: a property of [values] or [set] that names no
    column ([description]) is dropped, a column whose [set] value is
    [undefined] is left as it is, and [updatedAt] is stamped through the
    schema's [$onUpdate] hook where the statement gives no value for it.
    The calls of [new Date()] are numbered in the order in which the handler
    makes them: the [values] of the statement on [users] (0), its [set] (1,
    2), the hook when that statement is built (3); then the [values] of the
    statement on [userSessions] (4), its [set] (5), the hook for the [set]
    (6) and the hook when the statement is built (7). *)

(** The row that the [INSERT] on [users] proposes.  The route gives no [id]
    and the column has no default, so the proposed [id] is NULL; [pds] is
    [data.pds ?? null]. *)
Record UserValues := mkUserValues {
  v_id : option N;
  v_did : jsstring;
  v_handle : jsstring;
  v_displayName : option jsstring;
  v_avatar : option jsstring;
  v_pds : option jsstring;
  v_lastSeenAt : Z;
  v_isActive : bool;
  v_createdAt : Z;
  v_updatedAt : option Z
}.

Definition user_values (env : Env) (data : SyncData) : UserValues :=
  mkUserValues None                  (* [id]: not given, no default *)
               (did data) (handle data) (displayName data) (avatar data)
               (pds data)            (* [data.pds ?? null] *)
               (clock env 0)         (* [lastSeenAt: new Date()] *)
               true                  (* [is_active]: default *)
               (db_clock env)        (* [created_at]: default *)
               (Some (clock env 3)). (* [updated_at]: [$onUpdate] *)

(** The NOT NULL constraints of [users] on a proposed row: [id] (the primary
    key) and [pds] are the columns that the statement can leave NULL. *)
Definition users_not_null (v : UserValues) : option User :=
  match v_id v, v_pds v with
  | Some id, Some p =>
      Some (mkUser id (v_did v) (v_handle v) (v_displayName v) (v_avatar v) p
                   (v_lastSeenAt v) (v_isActive v) (v_createdAt v) (v_updatedAt v))
  | _, _ => None
  end.

Definition keep {A} (new old : option A) : option A :=
  match new with
  | Some v => Some v
  | None => old
  end.

(** The [set] of the statement on [users]; [pds: data.pds ?? null] writes
    NULL into a NOT NULL column when the request has no [pds]. *)
Definition user_set (env : Env) (data : SyncData) (u : User) : option User :=
  match pds data with
  | Some p =>
      Some (mkUser (u_id u) (u_did u) (handle data)
                   (keep (displayName data) (u_displayName u))
                   (keep (avatar data) (u_avatar u))
                   p
                   (clock env 1) (u_isActive u) (u_createdAt u) (Some (clock env 2)))
  | None => None
  end.

(** [data.metadata ?? {}] *)
Definition metadata_or_empty (data : SyncData) : SessionMetadata :=
  match metadata data with
  | Some m => m
  | None => mkMetadata None
  end.

(** The row that the [INSERT] on [userSessions] proposes; here too the route
    gives no [id] and the column has no default. *)
Record SessionValues := mkSessionValues {
  sv_id : option N;
  sv_userId : N;
  sv_sessionId : jsstring;
  sv_deviceId : option jsstring;
  sv_lastActiveAt : Z;
  sv_expiresAt : option Z;
  sv_metadata : SessionMetadata;
  sv_isActive : bool;
  sv_createdAt : Z;
  sv_updatedAt : option Z
}.

Definition session_values (env : Env) (user : User) (data : SyncData) : SessionValues :=
  mkSessionValues None                  (* [id]: not given, no default *)
                  (u_id user) (sessionId data) (Some (deviceId data))
                  (clock env 4)         (* [lastActiveAt: new Date()] *)
                  None                  (* [expires_at]: not given, no default *)
                  (metadata_or_empty data)
                  true                  (* [is_active]: default *)
                  (db_clock env)        (* [created_at]: default *)
                  (Some (clock env 7)). (* [updated_at]: [$onUpdate] *)

(** The NOT NULL constraints of [userSessions] on a proposed row. *)
Definition sessions_not_null (v : SessionValues) : option UserSession :=
  match sv_id v with
  | Some id =>
      Some (mkSession id (sv_userId v) (sv_sessionId v) (sv_deviceId v)
                      (sv_lastActiveAt v) (sv_expiresAt v) (sv_metadata v)
                      (sv_isActive v) (sv_createdAt v) (sv_updatedAt v))
  | None => None
  end.

Definition session_set (env : Env) (data : SyncData) (r : UserSession)
  : option UserSession :=
  Some (mkSession (s_id r) (s_userId r) (s_sessionId r) (s_deviceId r)
                  (clock env 5) (s_expiresAt r) (metadata_or_empty data)
                  (s_isActive r) (s_createdAt r) (Some (clock env 6))).

Definition same_did (d : jsstring) (u : User) : bool := bool_decide (u_did u = d).
Definition same_sessionId (sid : jsstring) (r : UserSession) : bool :=
  bool_decide (s_sessionId r = sid).

(** [db.insert(users).values(..).onConflictDoUpdate(..).returning()] *)
Definition upsert_user (env : Env) (data : SyncData) : M State (list User) :=
  log_op (InsertUsers (did data)) ;;;
  if users_stmt_ok env then
    st <- get ;;
    match insert_on_conflict users_not_null (same_did (did data))
                             (user_set env data) (user_values env data)
                             (users st) with
    | Some (row, table) =>
        set_users table ;;;
        ret [row]
    | None => throw OtherError
    end
  else throw OtherError.

(** [db.insert(userSessions).values(..).onConflictDoUpdate(..)] *)
Definition upsert_session (env : Env) (user : User) (data : SyncData) : M State unit :=
  log_op (InsertUserSessions (sessionId data)) ;;;
  if sessions_stmt_ok env then
    st <- get ;;
    match insert_on_conflict sessions_not_null (same_sessionId (sessionId data))
                             (session_set env data)
                             (session_values env user data) (userSessions st) with
    | Some (_, table) => set_userSessions table
    | None => throw OtherError
    end
  else throw OtherError.

(** "Upsert user" to "Create or update session": the statements that both
    versions of the route share. *)
Definition sync_persist (env : Env) (data : SyncData) : M State Response :=
  rows <- upsert_user env data ;;
  match head rows with
  | None => throw OtherError      (* "Failed to create or update user" *)
  | Some user =>
      upsert_session env user data ;;;
      ret (json_ok (Success (Some user) None))
  end.

(** The schema of [src/app/api/auth/sync/route.ts]. *)
Definition syncSchema (b : SyncBody) : option SyncData :=
  match z_string any (b_did b), z_string any (b_handle b),
        z_optional any (b_displayName b), z_optional any (b_avatar b),
        z_optional any (b_description b), z_optional any (b_pds b),
        z_string any (b_sessionId b), z_string any (b_deviceId b),
        z_metadata any any (b_metadata b) with
  | Some d, Some h, Some dn, Some av, Some ds, Some p, Some sid, Some dev, Some m =>
      Some (mkSyncData d h dn av ds p sid dev m)
  | _, _, _, _, _, _, _, _, _ => None
  end.

(** [POST] of [src/app/api/auth/sync/route.ts]. *)
Definition sync_POST (env : Env) (request : Request SyncBody) : M State Response :=
  try_catch
    (body <- request_json request ;;
     data <- zod_parse syncSchema body ;;
     sync_persist env data)
    (fun _ => ret (mkResponse 500 (Failure (lit "Failed to sync user data")))).

(** The schema of the route with input validation and rate limiting. *)
Definition syncSchema_hardened (env : Env) (b : SyncBody) : option SyncData :=
  match z_string (fun s => min_len 1 s && max_len 500 s && Sanitize.re_did s) (b_did b),
        z_string (fun s => min_len 1 s && max_len 253 s && Sanitize.re_handle s) (b_handle b),
        z_optional (max_len 64) (b_displayName b),
        z_optional (fun s => max_len 2048 s && is_url env s) (b_avatar b),
        z_optional (max_len 300) (b_description b),
        z_optional (fun s => max_len 2048 s && is_url env s) (b_pds b),
        z_string (fun s => min_len 1 s && max_len 128 s && all_plus Sanitize.token_char s)
                 (b_sessionId b),
        z_string (fun s => min_len 1 s && max_len 128 s && all_plus Sanitize.token_char s)
                 (b_deviceId b),
        z_metadata (max_len 512) (max_len 64) (b_metadata b) with
  | Some d, Some h, Some dn, Some av, Some ds, Some p, Some sid, Some dev, Some m =>
      Some (mkSyncData d h dn av ds p sid dev m)
  | _, _, _, _, _, _, _, _, _ => None
  end.

(** [POST] of the route with input validation and rate limiting. *)
Definition sync_POST_hardened (env : Env) (request : Request SyncBody)
  : M State Response :=
  st <- get ;;
  let (rateLimitResult, store) :=
    applyRateLimit (date_now env) (rateLimiter st) (clientIP request) AUTH_SYNC in
  set_rateLimiter store ;;;
  if negb (allowed rateLimitResult) then
    ret (mkResponse 429 (RateLimited (cr_resetTime rateLimitResult)
                                     (remaining rateLimitResult)))
  else
    try_catch
      (if negb (is_json_content request) then
         ret (mkResponse 400 (Failure (lit "Invalid content type")))
       else
         body <- request_json request ;;
         data <- zod_parse (syncSchema_hardened env) body ;;
         if negb (startsWith (sessionId data) (lit "sess_")) then
           ret (mkResponse 400 (Failure (lit "Invalid session format")))
         else sync_persist env data)
      (fun e =>
         match e with
         | ZodError => ret (mkResponse 400 InvalidData)
         | OtherError => ret (mkResponse 500 (Failure (lit "Failed to sync user data")))
         end).

(** *** Activity ([/api/auth/activity]) *)

Definition activitySchema (env : Env) (b : ActivityBody) : option (jsstring * Z) :=
  match z_string (fun s => min_len 1 s && max_len 128 s && Sanitize.re_session s)
                 (a_sessionId b),
        z_string (fun s => bool_decide (is_Some (datetime env s))) (a_lastActiveAt b) with
  | Some sid, Some ts =>
      match datetime env ts with
      | Some t => Some (sid, t)
      | None => None
      end
  | _, _ => None
  end.

Definition activity_set (env : Env) (t : Z) (r : UserSession) : UserSession :=
  mkSession (s_id r) (s_userId r) (s_sessionId r) (s_deviceId r)
            t (s_expiresAt r) (s_metadata r)
            (s_isActive r) (s_createdAt r) (Some (clock env 0)).

(** [db.update(userSessions).set(..).where(eq(sessionId, ..)).returning({id})] *)
Definition update_sessions (env : Env) (sid : jsstring)
    (set : UserSession -> UserSession) : M State (list N) :=
  log_op (UpdateUserSessions sid) ;;;
  if sessions_stmt_ok env then
    st <- get ;;
    let (hit, table) := update_where (same_sessionId sid) set (userSessions st) in
    set_userSessions table ;;;
    ret (map s_id hit)
  else throw OtherError.

Definition activity_POST (env : Env) (request : Request ActivityBody)
  : M State Response :=
  try_catch
    (if negb (is_json_content request) then
       ret (mkResponse 400 (Failure (lit "Invalid content type")))
     else
       body <- request_json request ;;
       data <- zod_parse (activitySchema env) body ;;
       rows <- update_sessions env (fst data) (activity_set env (snd data)) ;;
       match head rows with
       | None => ret (json_ok (Success None (Some (lit "Session not found"))))
       | Some _ => ret (json_ok (Success None None))
       end)
    (fun e =>
       match e with
       | ZodError => ret (mkResponse 400 InvalidData)
       | OtherError =>
           ret (mkResponse 500 (Failure (lit "Failed to update session activity")))
       end).

(** *** Deactivation ([/api/auth/deactivate]) *)

Definition deactivateSchema (b : DeactivateBody) : option jsstring :=
  z_string any (d_sessionId b).

Definition deactivate_set (env : Env) (r : UserSession) : UserSession :=
  mkSession (s_id r) (s_userId r) (s_sessionId r) (s_deviceId r)
            (s_lastActiveAt r) (s_expiresAt r) (s_metadata r)
            false (s_createdAt r) (Some (clock env 0)).

Definition deactivate_POST (env : Env) (request : Request DeactivateBody)
  : M State Response :=
  try_catch
    (body <- request_json request ;;
     sid <- zod_parse deactivateSchema body ;;
     rows <- update_sessions env sid (deactivate_set env) ;;
     match head rows with
     | None => ret (mkResponse 404 (Failure (lit "Session not found")))
     | Some _ => ret (json_ok (Success None None))
     end)
    (fun _ => ret (mkResponse 500 (Failure (lit "Failed to deactivate session")))).

(** *** Vocabulary of the specification *)

(** The session-identifier pattern: ["sess_"], a non-empty suffix of
    [[a-zA-Z0-9_-]], at most 128 characters in all. *)
Definition session_id_pattern (s : jsstring) : bool :=
  Sanitize.re_session s && max_len 128 s.

(** The rows of a table for one key. *)
Definition rows_for_did (d : jsstring) (st : State) : list User :=
  List.filter (same_did d) (users st).

Definition rows_for_session (sid : jsstring) (st : State) : list UserSession :=
  List.filter (same_sessionId sid) (userSessions st).

(** A request answered with [{ success: true, ... }]. *)
Definition succeeded (r : Response) : bool :=
  match payload r with
  | Success _ _ => (status r =? 200)%nat
  | _ => false
  end.

(** The two versions of the synchronization route in the sources. *)
Inductive SyncRoute := PlainRoute | HardenedRoute.

Definition sync_route (v : SyncRoute) : Env -> Request SyncBody -> M State Response :=
  match v with
  | PlainRoute => sync_POST
  | HardenedRoute => sync_POST_hardened
  end.

End Server.

(** ** Client: the [NymeriaAuth] orchestrator *)

Module Client.

Import IdentityUtils.
Local Open Scope js_scope.

(** The provider's session: the subject, and the [pds] property when the
    session object has one that is a string. *)
Record OAuthSession := mkOAuthSession {
  sub : jsstring;
  session_pds : option jsstring
}.

Record UserMetadata := mkUserMetadata {
  displayName : option jsstring;
  avatar : option jsstring;
  description : option jsstring
}.

(** [profile.data] of [app.bsky.actor.getProfile]. *)
Record ProfileView := mkProfileView {
  pv_handle : jsstring;              (* the account's handle *)
  pv_displayName : option jsstring;
  pv_avatar : option jsstring;
  pv_description : option jsstring
}.

Record EnhancedSession := mkEnhancedSession {
  session : OAuthSession;
  sessionId : jsstring;
  deviceId : jsstring;
  userMetadata : option UserMetadata;
  es_sub : jsstring;
  handle : option jsstring;
  pds : option jsstring
}.

(** [await this.oauthClient.init()] *)
Inductive InitResult :=
  | InitThrows
  | InitNoSession                                     (* [!initResult?.session] *)
  | InitSession (s : OAuthSession) (state : option jsstring).

(** [JSON.parse(state) as AuthState], then [parsedState?.sessionId]. *)
Inductive StateParse :=
  | ParseFails                      (* [JSON.parse] throws *)
  | NoSessionId                     (* parsed; [sessionId] is null or undefined *)
  | HasSessionId (sid : jsstring).

Inductive Endpoint := ApiSync | ApiActivity | ApiDeactivate.

(** The capabilities the orchestrator calls. *)
Record World := mkWorld {
  oauth_init : InitResult;
  oauth_restore : jsstring -> option (option OAuthSession);   (* [None]: throws *)
  oauth_revoke : jsstring -> bool;                            (* [false]: throws *)
  getProfile : jsstring -> option ProfileView;                (* [None]: throws *)
  fetch_resolves : Endpoint -> bool;                          (* [false]: rejects *)
  JSON_parse_state : jsstring -> StateParse;
  has_window : bool                         (* [typeof window !== "undefined"] *)
}.

(** The calls that the orchestrator makes to the outside, recorded when the
    call is made, whether it then succeeds or not. *)
Inductive Event :=
  | CalledRevoke (did : jsstring)
  | CalledFetch (api : Endpoint) (sessionId : jsstring)
  | CalledRemoveItem (key : jsstring).

(** The instance's fields, the browser's [localStorage], the random source,
    and the calls made so far. *)
Record Client := mkClient {
  c_sessionId : jsstring;
  c_deviceId : jsstring;
  localStorage : gmap jsstring jsstring;
  random : entropy;
  trace : list Event
}.

(** The client after one more call to the outside. *)
Definition emitted (e : Event) (c : Client) : Client :=
  mkClient (c_sessionId c) (c_deviceId c) (localStorage c) (random c)
           (trace c ++ [e]).

Definition emit (e : Event) : M Client unit := modify (emitted e).

(** [this.sessionId = sid] *)
Definition with_sessionId (sid : jsstring) (c : Client) : Client :=
  mkClient sid (c_deviceId c) (localStorage c) (random c) (trace c).

Definition set_sessionId (sid : jsstring) : M Client unit :=
  modify (with_sessionId sid).

(** [localStorage.removeItem(key)] *)
Definition removed (key : jsstring) (c : Client) : Client :=
  mkClient (c_sessionId c) (c_deviceId c) (delete key (localStorage c))
           (random c) (trace c ++ [CalledRemoveItem key]).

Definition removeItem (key : jsstring) : M Client unit := modify (removed key).

(** The client after the random source was read down to [rest]. *)
Definition with_random (rest : entropy) (c : Client) : Client :=
  mkClient (c_sessionId c) (c_deviceId c) (localStorage c) rest (trace c).

(** [generateSessionId()] on the client's random source. *)
Definition newSessionId : M Client jsstring :=
  fun c =>
    match generateSessionId (random c) with
    | Some (id, rest) => Val id (with_random rest c)
    | None => Hang
    end.

(** [fetchUserProfile]: the profile fields, or [undefined] when the lookup
    fails. *)
Definition fetchUserProfile (w : World) (s : OAuthSession) : M Client (option UserMetadata) :=
  try_catch
    (match getProfile w (sub s) with
     | Some data =>
         ret (Some (mkUserMetadata (pv_displayName data) (pv_avatar data)
                                   (pv_description data)))
     | None => throw OtherError
     end)
    (fun _ => ret None).

(** [extractPdsFromSession] *)
Definition extractPdsFromSession (s : OAuthSession) : option jsstring :=
  match session_pds s with
  | Some p => Some p
  | None =>
      if startsWith (sub s) (lit "did:plc:") || startsWith (sub s) (lit "did:web:")
      then None
      else None
  end.

(** [await fetch(api, ..)] with the response dropped. *)
Definition fetch (w : World) (api : Endpoint) (sid : jsstring) : M Client unit :=
  emit (CalledFetch api sid) ;;;
  if fetch_resolves w api then ret tt else throw OtherError.

Definition syncSessionToDatabase (w : World) (es : EnhancedSession) : M Client unit :=
  try_catch (fetch w ApiSync (sessionId es)) (fun _ => ret tt).

Definition updateSessionActivity (w : World) (es : EnhancedSession) : M Client unit :=
  try_catch (fetch w ApiActivity (sessionId es)) (fun _ => ret tt).

Definition deactivateSession (w : World) (sid : jsstring) : M Client unit :=
  try_catch (fetch w ApiDeactivate sid) (fun _ => ret tt).

(** [userMetadata?.displayName ?? sub] *)
Definition displayName_or (userMetadata : option UserMetadata) (sub : jsstring) : jsstring :=
  match userMetadata with
  | Some m =>
      match displayName m with
      | Some d => d
      | None => sub
      end
  | None => sub
  end.

(** The [sessionId] that the round-tripped [state] carries, if any. *)
Definition parsedState_sessionId (w : World) (state : option jsstring) : option jsstring :=
  match state with
  | Some (c :: st) =>
      match JSON_parse_state w (c :: st) with
      | HasSessionId sid => Some sid
      | NoSessionId => None
      | ParseFails => None
      end
  | Some [] => None
  | None => None
  end.

(** The statements that [handleCallback] and [restoreSession] have in common:
    the profile lookup, the PDS extraction and the [EnhancedSession] object
    built from them and from the instance's [sessionId] and [deviceId]. *)
Definition enhance (w : World) (s : OAuthSession) : M Client EnhancedSession :=
  userMetadata <- fetchUserProfile w s ;;
  let pdsUrl := extractPdsFromSession s in
  c <- get ;;
  ret (mkEnhancedSession s (c_sessionId c) (c_deviceId c) userMetadata (sub s)
                         (Some (displayName_or userMetadata (sub s))) pdsUrl).

Definition handleCallback (w : World) : M Client (option EnhancedSession) :=
  try_catch
    (match oauth_init w with
     | InitThrows => throw OtherError
     | InitNoSession => ret None
     | InitSession s state =>
         sid <- match parsedState_sessionId w state with
                | Some sid => ret sid
                | None => newSessionId
                end ;;
         set_sessionId sid ;;;
         enhancedSession <- enhance w s ;;
         syncSessionToDatabase w enhancedSession ;;;
         ret (Some enhancedSession)
     end)
    (fun _ => ret None).

Definition restoreSession (w : World) (did : jsstring) : M Client (option EnhancedSession) :=
  try_catch
    (match oauth_restore w did with
     | None => throw OtherError
     | Some None => ret None
     | Some (Some s) =>
         c <- get ;;
         match c_sessionId c with
         | [] => (sid <- newSessionId ;; set_sessionId sid)
         | _ :: _ => ret tt
         end ;;;
         enhancedSession <- enhance w s ;;
         syncSessionToDatabase w enhancedSession ;;;
         updateSessionActivity w enhancedSession ;;;
         ret (Some enhancedSession)
     end)
    (fun _ => ret None).

Definition CURRENT_DID : jsstring := lit "nymeria-current-did".

Definition clear_identity (w : World) : M Client unit :=
  if has_window w then removeItem CURRENT_DID else ret tt.

Definition signOut (w : World) (did : jsstring) : M Client unit :=
  try_catch
    (emit (CalledRevoke did) ;;;
     (if oauth_revoke w did then ret tt else throw OtherError) ;;;
     c <- get ;;
     deactivateSession w (c_sessionId c) ;;;
     clear_identity w ;;;
     sid <- newSessionId ;;
     set_sessionId sid)
    (fun _ => clear_identity w).

End Client.

(** ** The specification's vocabulary

    The format and length contracts of section 4.2, the reading of the
    sanitizers that the specification gives, and what it asks of sign-out.
    These follow the specification's words, not the code. *)

Module Spec.

Import Sanitize IdentityUtils.

(** Every white-space character is a space, and is not followed by white
    space. *)
Fixpoint single_spaced (s : jsstring) : bool :=
  match s with
  | [] => true
  | c :: r =>
      (if is_space c
       then is_code 32 c && match r with [] => true | d :: _ => negb (is_space d) end
       else true)
      && single_spaced r
  end.

(** Text: bounded length, no control character, white-space runs collapsed. *)
Definition text_contract (y : jsstring) : bool :=
  (length y <=? MAX_TEXT)%nat
  && forallb (fun c => negb (is_control c)) y
  && single_spaced y.

(** Trimmed: neither the first nor the last character is white space. *)
Definition starts_nospace (s : jsstring) : bool :=
  match s with
  | [] => true
  | c :: _ => negb (is_space c)
  end.

Definition trimmed (y : jsstring) : bool :=
  starts_nospace y && starts_nospace (rev y).

Definition lower_alnum (c : ascii) : bool := is_lower c || is_digit c.

(** [did:(plc|web):...] in lower case, at most 500 characters. *)
Definition did_contract (y : jsstring) : Prop :=
  exists method id,
    y = lit "did:" ++ method ++ lit ":" ++ id
    /\ (method = lit "plc" \/ method = lit "web")
    /\ id <> []
    /\ Forall (fun c => lower_alnum c || is_code 46 c || is_code 95 c || is_code 45 c = true) id
    /\ (length y <= 500)%nat.

(** A handle: lower-case letters, digits, dots and hyphens, 1 to 253
    characters. *)
Definition handle_contract (y : jsstring) : Prop :=
  y <> []
  /\ Forall (fun c => lower_alnum c || is_code 46 c || is_code 45 c = true) y
  /\ (length y <= 253)%nat.

(** An opaque token: [prefix], then one or more of [[a-zA-Z0-9_-]], at most
    128 characters in all. *)
Definition token_contract (prefix : string) (y : jsstring) : Prop :=
  exists suffix,
    y = lit prefix ++ suffix
    /\ suffix <> []
    /\ Forall (fun c => is_alnum c || is_code 95 c || is_code 45 c = true) suffix
    /\ (length y <= 128)%nat.

(** The normalized string of a URL whose scheme is http or https and whose
    host name has 1 to 253 characters. *)
Definition url_contract (URL_parse : jsstring -> option URL) (x y : jsstring) : Prop :=
  exists url,
    URL_parse x = Some url
    /\ y = href url
    /\ (protocol url = lit "http:" \/ protocol url = lit "https:")
    /\ (0 < length (hostname url) <= 253)%nat.

(** The URL parser reads back what it prints. *)
Definition URL_roundtrip (URL_parse : jsstring -> option URL) : Prop :=
  forall s url, URL_parse s = Some url -> URL_parse (href url) = Some url.

(** The specification's reading of [sanitizeSessionId] and
    [sanitizeDeviceId]: lower-case, trim, then the format and the length. *)
Definition sanitizeSessionId_spec (input : jsstring) : option jsstring :=
  let cleaned := toLowerCase (trim input) in
  if re_session cleaned && (length cleaned <=? 128)%nat then Some cleaned else None.

Definition sanitizeDeviceId_spec (input : jsstring) : option jsstring :=
  let cleaned := toLowerCase (trim input) in
  if re_device cleaned && (length cleaned <=? 128)%nat then Some cleaned else None.

(** An identifier of the identity utilities: [prefix], then exactly 21
    characters of [[0-9a-z]]. *)
Definition minted (prefix : string) (id : jsstring) : Prop :=
  exists suffix,
    id = lit prefix ++ suffix
    /\ length suffix = 21%nat
    /\ Forall (fun c => base36 c = true) suffix.

Import Client.

(** The locally remembered identity is forgotten. *)
Definition identity_cleared (c : Client) : Prop :=
  localStorage c !! CURRENT_DID = None.

(** Sign-out as the specification describes it: revoke, deactivate and clear
    are each attempted whatever happens to the others, and a replacement
    session id is minted. *)
Definition signOut_independent (w : World) (did : jsstring) (c : Client) : Prop :=
  exists c',
    signOut w did c = Val tt c'
    /\ CalledRevoke did ∈ trace c'
    /\ CalledFetch ApiDeactivate (c_sessionId c) ∈ trace c'
    /\ identity_cleared c'
    /\ exists rest, generateSessionId (random c) = Some (c_sessionId c', rest).

(** A client that only made further calls. *)
Definition made_calls (c c' : Client) (calls : list Event) : Prop :=
  c_sessionId c' = c_sessionId c /\ c_deviceId c' = c_deviceId c
  /\ localStorage c' = localStorage c /\ random c' = random c
  /\ trace c' = trace c ++ calls.

(** The handle of an enhanced session for a subject, given what the profile
    lookup returned. *)
Definition handle_of (profile : option ProfileView) (sub : jsstring) : jsstring :=
  match profile with
  | Some p =>
      match pv_displayName p with
      | Some d => d
      | None => sub
      end
  | None => sub
  end.

(** The enhanced session that the orchestrator builds for a provider
    session. *)
Definition enhanced_session (w : World) (s : OAuthSession) (c : Client)
  : EnhancedSession :=
  mkEnhancedSession s (c_sessionId c) (c_deviceId c)
    (match getProfile w (sub s) with
     | Some p => Some (mkUserMetadata (pv_displayName p) (pv_avatar p)
                                      (pv_description p))
     | None => None
     end)
    (sub s)
    (Some (handle_of (getProfile w (sub s)) (sub s)))
    (session_pds s).

(** The same world, with the account handles of its profiles replaced. *)
Definition with_account_handles (f : jsstring -> jsstring) (w : World) : World :=
  mkWorld (oauth_init w) (oauth_restore w) (oauth_revoke w)
          (fun actor =>
             match getProfile w actor with
             | Some p => Some (mkProfileView (f (pv_handle p)) (pv_displayName p)
                                             (pv_avatar p) (pv_description p))
             | None => None
             end)
          (fetch_resolves w) (JSON_parse_state w) (has_window w).

End Spec.

(** ** Concrete inputs used to exercise the statements *)

Module Examples.

Import Sanitize.

Definition example_URL : URL :=
  mkURL (lit "https:") (lit "example.com") (lit "https://example.com/").

(** A URL parser that knows one URL, written with or without the final
    slash. *)
Definition example_URL_parse (s : jsstring) : option URL :=
  if bool_decide (s = lit "https://example.com")
     || bool_decide (s = lit "https://example.com/")
  then Some example_URL
  else None.

Import Server.

(** A request environment in which the database runs every statement; the
    clock starts at [t]. *)
Definition example_env (t : Z) : Env :=
  mkEnv t (fun k => t + Z.of_nat k) t true true
        (fun _ => true) (fun _ => Some t).

Definition example_did : jsstring := lit "did:plc:abc123".
Definition example_sessionId : jsstring := lit "sess_0123456789abcdefghijk".
Definition example_deviceId : jsstring := lit "dev_0123456789abcdefghijk".

Definition example_sync_body (handle : string) : SyncBody :=
  mkSyncBody (IsString example_did) (IsString (lit handle)) Absent Absent Absent
             (IsString (lit "https://pds.example")) (IsString example_sessionId)
             (IsString example_deviceId) MetaAbsent.

Definition example_sync_request (handle : string) : Request SyncBody :=
  mkRequest SyncBody (Some (lit "203.0.113.7")) None
            (Some (lit "application/json")) (Some (example_sync_body handle)).

Definition empty_state : State := mkState [] [] ∅ [].

(** The state in which a handler leaves the server. *)
Definition state_after {A} (m : M State A) (st : State) : State :=
  match m st with
  | Val _ s => s
  | Exn _ s => s
  | Hang => st
  end.

Definition answer_of (m : M State Response) (st : State) : Response :=
  match m st with
  | Val r _ => r
  | _ => mkResponse 0 InvalidData
  end.

Definition first_sync (v : SyncRoute) : M State Response :=
  sync_route v (example_env 1000) (example_sync_request "alice.example").

Definition second_sync (v : SyncRoute) : M State Response :=
  sync_route v (example_env 2000) (example_sync_request "alice.test").

Definition example_activity_request (sid : jsstring) : Request ActivityBody :=
  mkRequest ActivityBody None None (Some (lit "application/json; charset=utf-8"))
            (Some (mkActivityBody (IsString sid) (IsString (lit "2025-01-01T00:00:00Z")))).

Definition example_deactivate_request (sid : jsstring) : Request DeactivateBody :=
  mkRequest DeactivateBody None None (Some (lit "application/json"))
            (Some (mkDeactivateBody (IsString sid))).

Import Client.

Definition example_entropy : IdentityUtils.entropy :=
  [200; 37; 0; 9; 10; 35; 36; 63; 255; 100; 1; 2; 3; 4; 5; 6; 7; 8;
   11; 12; 13; 14; 15; 16; 17; 18; 77]%N.

Definition example_session : OAuthSession := mkOAuthSession example_did None.

Definition example_profile : ProfileView :=
  mkProfileView (lit "alice.example") (Some (lit "Alice")) None None.

(** A world whose callback brings a session with the given [state], whose
    profile lookup answers [profile], and in which revocation and [fetch]
    succeed or fail as told. *)
Definition example_world (state : option jsstring) (profile : option ProfileView)
    (revoke_ok fetch_ok : bool) : World :=
  mkWorld (InitSession example_session state)
          (fun _ => Some (Some example_session))
          (fun _ => revoke_ok)
          (fun _ => profile)
          (fun _ => fetch_ok)
          (fun _ => ParseFails)
          true.

Definition example_client : Client :=
  mkClient (lit "sess_previous") example_deviceId
           {[ CURRENT_DID := example_did ]} example_entropy [].

End Examples.

(** * Further code of the repository *)

(** ** [sanitizeHtml] ([src/lib/security/sanitize.ts]) *)

Module Html.

(** [s.replace(/c/g, rep)] for a pattern that is one character. *)
Definition replaceAll (c : ascii) (rep : jsstring) (s : jsstring) : jsstring :=
  flat_map (fun x => if Ascii.eqb x c then rep else [x]) s.

Definition LT : ascii := "060"%char.
Definition GT : ascii := "062"%char.
Definition QUOT : ascii := "034"%char.
Definition APOS : ascii := "039"%char.
Definition SLASH : ascii := "047"%char.

(** The five replacements, in the order of the source. *)
Definition sanitizeHtml (input : jsstring) : jsstring :=
  replaceAll SLASH (lit "&#x2F;")
    (replaceAll APOS (lit "&#x27;")
       (replaceAll QUOT (lit "&quot;")
          (replaceAll GT (lit "&gt;")
             (replaceAll LT (lit "&lt;") input)))).

(** A character that [sanitizeHtml] replaces. *)
Definition special (c : ascii) : bool :=
  Ascii.eqb c LT || Ascii.eqb c GT || Ascii.eqb c QUOT || Ascii.eqb c APOS
  || Ascii.eqb c SLASH.

(** The entity written for one character. *)
Definition entity (c : ascii) : jsstring :=
  if Ascii.eqb c LT then lit "&lt;"
  else if Ascii.eqb c GT then lit "&gt;"
  else if Ascii.eqb c QUOT then lit "&quot;"
  else if Ascii.eqb c APOS then lit "&#x27;"
  else if Ascii.eqb c SLASH then lit "&#x2F;"
  else [c].

End Html.

(** ** [isValidDid], [isValidHandle] ([src/lib/auth/utils.ts]) *)

Module Validators.

Definition isValidDid (did : jsstring) : bool :=
  startsWith did (lit "did:") && (10 <? length did)%nat.

(** [[a-zA-Z]] *)
Definition is_letter (c : ascii) : bool := is_lower c || is_upper c.

(** The longest prefix of characters in a class, and what follows it. *)
Fixpoint span (cls : ascii -> bool) (s : jsstring) : jsstring * jsstring :=
  match s with
  | [] => ([], [])
  | c :: r =>
      if cls c then let (p, q) := span cls r in (c :: p, q)
      else ([], s)
  end.

(** [/^[a-zA-Z0-9.-]+\.[a-zA-Z]{2,}$/.test(handle)].  The letters that end
    the match are preceded by a dot, so they are the longest run of letters
    at the end of the string; the matcher reads the string from its end: that
    run, the dot, and one or more characters of the first class. *)
Definition isValidHandle (handle : jsstring) : bool :=
  let (tld, rest) := span is_letter (rev handle) in
  (2 <=? length tld)%nat
  && match rest with
     | [] => false
     | dot :: label => is_code 46 dot && all_plus Sanitize.handle_char label
     end.

(** What the regular expression of [isValidHandle] says: one or more of
    [[a-zA-Z0-9.-]], a dot, two or more letters. *)
Definition handle_regex (h : jsstring) : Prop :=
  exists label tld,
    h = label ++ lit "." ++ tld
    /\ label <> [] /\ Forall (fun c => Sanitize.handle_char c = true) label
    /\ (2 <= length tld)%nat /\ Forall (fun c => is_letter c = true) tld.

End Validators.

(** ** The gateway ([middleware]) and the user lookup ([GET /api/users/[did]]) *)

Module Gateway.

Import Server.

(** What [middleware] reads of a request: the path, the [x-session-id]
    header and the value of the [session-id] cookie. *)
Record GatewayRequest := mkGatewayRequest {
  pathname : jsstring;
  x_session_id : option jsstring;
  cookie_session_id : option jsstring
}.

Inductive Verdict :=
  | PassThrough                                     (* [NextResponse.next()] *)
  | Forwarded (userId : N) (sessionId : jsstring)   (* with [x-user-id], [x-session-id] *)
  | Denied (r : Response).

(** [eq(sessionId, ..) AND eq(isActive, true) AND gt(expiresAt, now)]; a
    comparison with a NULL [expires_at] is not true. *)
Definition verifiable (sid : jsstring) (now : Z) (r : UserSession) : bool :=
  same_sessionId sid r && s_isActive r
  && match s_expiresAt r with
     | Some e => now <? e
     | None => false
     end.

(** [request.headers.get("x-session-id") ?? request.cookies.get("session-id")?.value]:
    the cookie is read only when the header is missing. *)
Definition presented (request : GatewayRequest) : option jsstring :=
  match x_session_id request with
  | Some v => Some v
  | None => cookie_session_id request
  end.

Definition middleware (env : Env) (request : GatewayRequest) (st : State) : Verdict :=
  if negb (startsWith (pathname request) (lit "/api/protected")) then PassThrough
  else
    match presented request with
    | None | Some [] =>
        Denied (mkResponse 401 (Failure (lit "Session required")))
    | Some sid =>
        if sessions_stmt_ok env then
          match List.find (verifiable sid (clock env 0)) (userSessions st) with
          | None => Denied (mkResponse 401 (Failure (lit "Invalid or expired session")))
          | Some session => Forwarded (s_userId session) sid
          end
        else Denied (mkResponse 500 (Failure (lit "Authentication error")))
    end.

(** The user id of the row that the query of [middleware] returns. *)
Definition verified (sid : jsstring) (now : Z) (t : list UserSession) : option N :=
  option_map s_userId (List.find (verifiable sid now) t).

(** The answer of the user lookup: the row, or an error. *)
Inductive UserAnswer :=
  | UserRow (u : User)
  | UserError (status : nat) (error : jsstring).

(** [GET] of [src/app/api/users/[did]/route.ts].  [decode] is
    [decodeURIComponent], [None] where it throws. *)
Definition users_GET (env : Env) (decode : jsstring -> option jsstring)
    (rawDid : jsstring) (st : State) : UserAnswer :=
  match decode rawDid with
  | None => UserError 500 (lit "Failed to fetch user")
  | Some did =>
      if users_stmt_ok env then
        match List.find (same_did did) (users st) with
        | None => UserError 404 (lit "User not found")
        | Some user => UserRow user
        end
      else UserError 500 (lit "Failed to fetch user")
  end.


(** The handler wrote nothing to the database. *)
Definition untouched (st st' : State) : Prop :=
  users st' = users st /\ userSessions st' = userSessions st
  /\ db_log st' = db_log st.

(** A run of requests to the synchronization route with input validation,
    each in its environment: the answers in order and the state left. *)
Fixpoint serve_sync (requests : list (Env * Request SyncBody)) (st : State)
  : list Response * State :=
  match requests with
  | [] => ([], st)
  | (env, request) :: more =>
      match sync_POST_hardened env request st with
      | Val r st' =>
          let (rs, st'') := serve_sync more st' in (r :: rs, st'')
      | Exn _ st' => ([], st')
      | Hang => ([], st)
      end
  end.

(** One call of a session endpoint, and the state it leaves; a run of calls. *)
Inductive Call :=
  | Sync (v : SyncRoute) (env : Env) (request : Request SyncBody)
  | Activity (env : Env) (request : Request ActivityBody)
  | Deactivate (env : Env) (request : Request DeactivateBody).

Definition perform (c : Call) (st : State) : State :=
  match c with
  | Sync v env request => Examples.state_after (sync_route v env request) st
  | Activity env request => Examples.state_after (activity_POST env request) st
  | Deactivate env request => Examples.state_after (deactivate_POST env request) st
  end.


(** A table with one session that carries an expiry, as a row written by
    other means than the endpoints would. *)
Definition example_expiring_session : UserSession :=
  mkSession 9 7 Examples.example_sessionId (Some Examples.example_deviceId)
            1000 (Some 5000) (mkMetadata None) true 1000 None.

Definition example_gate_state : State :=
  mkState [] [example_expiring_session] ∅ [].

Definition example_protected_request : GatewayRequest :=
  mkGatewayRequest (lit "/api/protected/feed") None (Some Examples.example_sessionId).

(** Tables with one user and one other session, as rows written by other
    means than the endpoints would. *)
Definition example_user : User :=
  mkUser 7 Examples.example_did (lit "alice.example") (Some (lit "Alice")) None
         (lit "https://pds.example") 1000 true 1000 None.

Definition example_other_session : UserSession :=
  mkSession 10 7 (lit "sess_other") None 900 None (mkMetadata None) true 900 None.

Definition example_tables : State :=
  mkState [example_user] [example_other_session; example_expiring_session] ∅ [].

(** Eleven requests of one client within a second. *)
Definition example_burst : list (Env * Request SyncBody) :=
  map (fun k => (Examples.example_env (1000 + Z.of_nat k),
                 Examples.example_sync_request "alice.example"))
      (seq 0 11).

End Gateway.

(** ** More of [NymeriaAuth]: construction and sign-in *)

Module Orchestrator.

Import IdentityUtils Client.
Local Open Scope js_scope.

Definition DEVICE_ID : jsstring := lit "nymeria-device-id".

(** [generateDeviceId()] on the client's random source. *)
Definition newDeviceId : M Client jsstring :=
  fun c =>
    match generateDeviceId (random c) with
    | Some (id, rest) => Val id (with_random rest c)
    | None => Hang
    end.

(** [localStorage.setItem(key, value)] *)
Definition setItem (key value : jsstring) : M Client unit :=
  modify (fun c => mkClient (c_sessionId c) (c_deviceId c)
                            (<[key := value]> (localStorage c)) (random c) (trace c)).

(** [getOrCreateDeviceId].  An empty stored value is falsy and is replaced. *)
Definition getOrCreateDeviceId (w : World) : M Client jsstring :=
  if negb (has_window w) then ret (lit "ssr-temp-device-id")
  else
    c <- get ;;
    match localStorage c !! DEVICE_ID with
    | Some (x :: existingDeviceId) => ret (x :: existingDeviceId)
    | Some [] | None =>
        id <- newDeviceId ;;
        setItem DEVICE_ID id ;;;
        ret id
    end.

Definition set_deviceId (dev : jsstring) : M Client unit :=
  modify (fun c => mkClient (c_sessionId c) dev (localStorage c) (random c) (trace c)).

(** The two assignments of the constructor. *)
Definition constructor (w : World) : M Client unit :=
  dev <- getOrCreateDeviceId w ;;
  set_deviceId dev ;;;
  sid <- newSessionId ;;
  set_sessionId sid.

Record AuthState := mkAuthState {
  ident : jsstring;
  redirect : jsstring;
  state_sessionId : option jsstring
}.

(** [signIn], up to the call of the provider: returns the [state] object
    that is serialized and handed to [oauthClient.signIn].  [href] is
    [window.location.href]. *)
Definition signIn (href : jsstring) (ident : jsstring) (redirect : option jsstring)
  : M Client AuthState :=
  sid <- newSessionId ;;
  set_sessionId sid ;;;
  c <- get ;;
  ret (mkAuthState ident
         (match redirect with Some r => r | None => href end)
         (Some (c_sessionId c))).

(** The client that a method leaves. *)
Definition client_after {A} (m : M Client A) (c : Client) : Client :=
  match m c with
  | Val _ c' => c'
  | Exn _ c' => c'
  | Hang => c
  end.

(** A page load with an empty storage and random bytes for two
    identifiers. *)
Definition example_fresh_client : Client :=
  mkClient [] [] ∅ (Examples.example_entropy ++ Examples.example_entropy) [].

(** The same world, with other outcomes of [fetch]. *)
Definition with_fetch (f : Endpoint -> bool) (w : World) : World :=
  mkWorld (oauth_init w) (oauth_restore w) (oauth_revoke w) (getProfile w)
          f (JSON_parse_state w) (has_window w).

(** The same world, in which the callback brings [s] with the text [state],
    and that text parses to an object with the given [sessionId]. *)
Definition with_callback (s : OAuthSession) (state : jsstring)
    (sid : option jsstring) (w : World) : World :=
  mkWorld (InitSession s (Some state)) (oauth_restore w) (oauth_revoke w)
          (getProfile w) (fetch_resolves w)
          (fun text =>
             if bool_decide (text = state)
             then match sid with Some x => HasSessionId x | None => NoSessionId end
             else JSON_parse_state w text)
          (has_window w).

End Orchestrator.

(** ** Security headers ([src/lib/security/headers.ts]) *)

Module Headers.

(** A [Headers] object: names are case-insensitive and kept in lower case. *)
Abbreviation headers := (gmap jsstring jsstring).

(** Byte-lowercasing of a header name: A-Z only. *)
Definition byte_lowercase (name : jsstring) : jsstring :=
  map (fun c => if is_upper c then ascii_of_N (code c + 32) else c) name.

(** [headers.set(name, value)] and [headers.get(name)], for a name that is a
    token and a [Headers] object that can be modified. *)
Definition set (name value : jsstring) (h : headers) : headers :=
  <[byte_lowercase name := value]> h.

Definition get (name : jsstring) (h : headers) : option jsstring :=
  h !! byte_lowercase name.

Definition SECURITY_HEADERS : list (jsstring * jsstring) :=
  [ (lit "X-Content-Type-Options", lit "nosniff");
    (lit "X-XSS-Protection", lit "1; mode=block");
    (lit "X-Frame-Options", lit "DENY");
    (lit "Referrer-Policy", lit "strict-origin-when-cross-origin");
    (lit "Content-Security-Policy", lit "default-src 'none'; frame-ancestors 'none';");
    (lit "Permissions-Policy", lit "camera=(), microphone=(), geolocation=()") ].

(** [Object.entries(SECURITY_HEADERS).forEach(([key, value]) =>
    response.headers.set(key, value))] *)
Definition applySecurityHeaders (h : headers) : headers :=
  foldl (fun acc kv => set kv.1 kv.2 acc) h SECURITY_HEADERS.

End Headers.

(** ** From the orchestrator to the synchronization route *)

Module Wire.

Import Server.

(** A property of the body after [JSON.stringify] and [request.json()]: a
    property whose value is [undefined] is left out. *)
Definition field (v : option jsstring) : JField :=
  match v with
  | Some s => IsString s
  | None => Absent
  end.

(** The body that [syncSessionToDatabase] sends for a session.  [userAgent]
    is [navigator.userAgent]. *)
Definition sync_body (session : Client.EnhancedSession) (userAgent : jsstring)
  : SyncBody :=
  mkSyncBody
    (IsString (Client.es_sub session))
    (IsString (match Client.handle session with
               | Some h => h
               | None => Client.es_sub session
               end))
    (field (match Client.userMetadata session with
            | Some m => Client.displayName m
            | None => None
            end))
    (field (match Client.userMetadata session with
            | Some m => Client.avatar m
            | None => None
            end))
    (field (match Client.userMetadata session with
            | Some m => Client.description m
            | None => None
            end))
    (field (Client.pds session))
    (IsString (Client.sessionId session))
    (IsString (Client.deviceId session))
    (MetaObject (DevObject (IsString userAgent) (IsString (lit "web")))).

(** The profile lookup gave no display name. *)
Definition unnamed (w : Client.World) (sub : jsstring) : Prop :=
  match Client.getProfile w sub with
  | Some p => Client.pv_displayName p = None
  | None => True
  end.

End Wire.

(** * Properties *)

(** ** Sanitizers *)

Module SanitizeFacts.

Import Sanitize Spec Examples.

Ltac ascii_cases c := destruct c as [[] [] [] [] [] [] [] []].

Lemma lower_char_idem c : lower_char (lower_char c) = lower_char c.
Proof. ascii_cases c; reflexivity. Qed.

Lemma lower_char_not_upper c : is_upper (lower_char c) = false.
Proof. ascii_cases c; reflexivity. Qed.

Lemma toLowerCase_idem s : toLowerCase (toLowerCase s) = toLowerCase s.
Proof.
  unfold toLowerCase. rewrite map_map. apply map_ext. intros c. apply lower_char_idem.
Qed.

Lemma toLowerCase_not_upper s : Forall (fun c => is_upper c = false) (toLowerCase s).
Proof.
  unfold toLowerCase. induction s as [|c s IH]; simpl; constructor; auto using lower_char_not_upper.
Qed.

Lemma strip_prefix_app p s t : strip_prefix p s = Some t -> s = p ++ t.
Proof.
  revert s. induction p as [|a p IH]; intros [|b s] H; simpl in *; try congruence.
  destruct (Ascii.eqb a b) eqn:E; [|discriminate].
  apply Ascii.eqb_eq in E. subst b. f_equal. auto.
Qed.

Lemma strip_prefix_of_app p t : strip_prefix p (p ++ t) = Some t.
Proof.
  induction p as [|a p IH]; simpl; [reflexivity|]. now rewrite Ascii.eqb_refl.
Qed.

Lemma all_plus_Forall cls s :
  all_plus cls s = true <-> s <> [] /\ Forall (fun c => cls c = true) s.
Proof.
  destruct s as [|c s]; simpl.
  - split; [discriminate | intros [H _]; congruence].
  - rewrite andb_true_iff, forallb_forall, Forall_cons, Forall_forall.
    split.
    + intros [H1 H2]. split; [discriminate|]. split; [assumption|].
      intros x Hx. apply H2. now apply list_elem_of_In.
    + intros [_ [H1 H2]]. split; [assumption|]. intros x Hx. apply H2.
      now apply list_elem_of_In.
Qed.

(** Trimming *)

Lemma trimStart_fix s :
  match s with [] => True | c :: _ => is_space c = false end -> trimStart s = s.
Proof. destruct s as [|c s]; simpl; [reflexivity|]. now intros ->. Qed.

Lemma trim_nospace s : Forall (fun c => is_space c = false) s -> trim s = s.
Proof.
  intros H. unfold trim, trimEnd.
  rewrite (trimStart_fix s).
  2:{ destruct s; [exact I|]. now inversion H. }
  rewrite trimStart_fix; [apply rev_involutive|].
  destruct (rev s) as [|c r] eqn:E; [exact I|].
  rewrite Forall_forall in H. apply H.
  apply list_elem_of_In. apply in_rev. rewrite E. now left.
Qed.


Lemma did_char_nospace c : did_char c = true -> is_space c = false.
Proof. ascii_cases c; vm_compute; congruence. Qed.

Lemma handle_char_nospace c : handle_char c = true -> is_space c = false.
Proof. ascii_cases c; vm_compute; congruence. Qed.

Lemma token_char_nospace c : token_char c = true -> is_space c = false.
Proof. ascii_cases c; vm_compute; congruence. Qed.

Lemma Forall_nospace_lit (p : string) :
  forallb (fun c => negb (is_space c)) (lit p) = true ->
  Forall (fun c => is_space c = false) (lit p).
Proof.
  intros H. apply Forall_forall. intros c Hc.
  rewrite forallb_forall in H. apply list_elem_of_In in Hc.
  specialize (H c Hc). now destruct (is_space c).
Qed.

(** The shape of a string that a format accepts. *)

Lemma re_did_shape s :
  re_did s = true ->
  exists method id,
    s = lit "did:" ++ method ++ lit ":" ++ id
    /\ (method = lit "plc" \/ method = lit "web")
    /\ id <> [] /\ Forall (fun c => did_char c = true) id.
Proof.
  unfold re_did. intros H.
  destruct (strip_prefix (lit "did:") s) as [r|] eqn:E1; [|discriminate].
  apply strip_prefix_app in E1.
  destruct (strip_prefix (lit "plc:") r) as [t|] eqn:E2.
  - apply strip_prefix_app in E2. apply all_plus_Forall in H as [Hne Hall].
    exists (lit "plc"), t. subst. repeat split; auto.
  - destruct (strip_prefix (lit "web:") r) as [t|] eqn:E3; [|discriminate].
    apply strip_prefix_app in E3. apply all_plus_Forall in H as [Hne Hall].
    exists (lit "web"), t. subst. repeat split; auto.
Qed.

Lemma re_token_shape (prefix : string) s :
  match strip_prefix (lit prefix) s with
  | Some t => all_plus token_char t
  | None => false
  end = true <->
  exists suffix,
    s = lit prefix ++ suffix /\ suffix <> []
    /\ Forall (fun c => token_char c = true) suffix.
Proof.
  split.
  - destruct (strip_prefix (lit prefix) s) as [t|] eqn:E; [|discriminate].
    intros H. apply strip_prefix_app in E. apply all_plus_Forall in H as [Hne Hall].
    exists t. auto.
  - intros (t & -> & Hne & Hall). rewrite strip_prefix_of_app.
    apply all_plus_Forall. auto.
Qed.

Lemma re_did_nospace s : re_did s = true -> Forall (fun c => is_space c = false) s.
Proof.
  intros H. apply re_did_shape in H as (m & id & -> & Hm & _ & Hall).
  repeat rewrite Forall_app. repeat split.
  - now apply Forall_nospace_lit.
  - destruct Hm as [-> | ->]; now apply Forall_nospace_lit.
  - now apply Forall_nospace_lit.
  - eapply Forall_impl; [exact Hall|]. apply did_char_nospace.
Qed.

Lemma re_handle_nospace s : re_handle s = true -> Forall (fun c => is_space c = false) s.
Proof.
  intros H. apply all_plus_Forall in H as [_ H].
  eapply Forall_impl; [exact H|]. apply handle_char_nospace.
Qed.

Lemma re_token_nospace (prefix : string) suffix :
  forallb (fun c => negb (is_space c)) (lit prefix) = true ->
  Forall (fun c => token_char c = true) suffix ->
  Forall (fun c => is_space c = false) (lit prefix ++ suffix).
Proof.
  intros Hp H. apply Forall_app. split.
  - now apply Forall_nospace_lit.
  - eapply Forall_impl; [exact H|]. apply token_char_nospace.
Qed.

(** What each sanitizer accepts *)

Lemma sanitizeDid_Some x y :
  sanitizeDid x = Some y <->
  y = toLowerCase (trim x) /\ re_did y = true /\ (length y <= 500)%nat.
Proof.
  unfold sanitizeDid.
  destruct (re_did (toLowerCase (trim x))) eqn:E; simpl.
  - destruct (500 <? length (toLowerCase (trim x)))%nat eqn:L.
    + apply Nat.ltb_lt in L. split; [discriminate|]. intros (-> & _ & H). lia.
    + apply Nat.ltb_ge in L. split.
      * intros [= <-]. auto.
      * intros (-> & _ & _). reflexivity.
  - split; [discriminate|]. intros (-> & H & _). congruence.
Qed.

Lemma sanitizeHandle_Some x y :
  sanitizeHandle x = Some y <->
  y = toLowerCase (trim x) /\ re_handle y = true /\ (length y <= 253)%nat.
Proof.
  unfold sanitizeHandle.
  destruct (re_handle (toLowerCase (trim x))) eqn:E; simpl.
  - destruct (length (toLowerCase (trim x)) =? 0)%nat eqn:Z; simpl.
    + apply Nat.eqb_eq in Z. apply length_zero_iff_nil in Z.
      rewrite Z in E. discriminate.
    + destruct (253 <? length (toLowerCase (trim x)))%nat eqn:L.
      * apply Nat.ltb_lt in L. split; [discriminate|]. intros (-> & _ & H). lia.
      * apply Nat.ltb_ge in L. split.
        -- intros [= <-]. auto.
        -- intros (-> & _ & _). reflexivity.
  - split; [discriminate|]. intros (-> & H & _). congruence.
Qed.

Lemma sanitizeSessionId_Some x y :
  sanitizeSessionId x = Some y <->
  y = trim x /\ re_session y = true /\ (length y <= 128)%nat.
Proof.
  unfold sanitizeSessionId.
  destruct (re_session (trim x)) eqn:E; simpl.
  - destruct (128 <? length (trim x))%nat eqn:L.
    + apply Nat.ltb_lt in L. split; [discriminate|]. intros (-> & _ & H). lia.
    + apply Nat.ltb_ge in L. split.
      * intros [= <-]. auto.
      * intros (-> & _ & _). reflexivity.
  - split; [discriminate|]. intros (-> & H & _). congruence.
Qed.

Lemma sanitizeDeviceId_Some x y :
  sanitizeDeviceId x = Some y <->
  y = trim x /\ re_device y = true /\ (length y <= 128)%nat.
Proof.
  unfold sanitizeDeviceId.
  destruct (re_device (trim x)) eqn:E; simpl.
  - destruct (128 <? length (trim x))%nat eqn:L.
    + apply Nat.ltb_lt in L. split; [discriminate|]. intros (-> & _ & H). lia.
    + apply Nat.ltb_ge in L. split.
      * intros [= <-]. auto.
      * intros (-> & _ & _). reflexivity.
  - split; [discriminate|]. intros (-> & H & _). congruence.
Qed.


(** [trim] keeps a prefix of a suffix, and leaves no white space at the ends *)


Lemma trimStart_drop s : exists k, trimStart s = drop k s.
Proof.
  induction s as [|c s [k IH]]; simpl.
  - now exists 0%nat.
  - destruct (is_space c); [now exists (S k) | now exists 0%nat].
Qed.

Lemma trimEnd_take s : exists k, trimEnd s = take k s.
Proof.
  unfold trimEnd. destruct (trimStart_drop (rev s)) as [k ->].
  exists (length s - k)%nat. rewrite skipn_rev. apply rev_involutive.
Qed.

Lemma trimStart_starts s : starts_nospace (trimStart s) = true.
Proof.
  induction s as [|c s IH]; simpl; [reflexivity|].
  destruct (is_space c) eqn:E; [assumption|]. simpl. now rewrite E.
Qed.

Lemma starts_nospace_take k s :
  starts_nospace s = true -> starts_nospace (take k s) = true.
Proof. destruct k, s; simpl; auto. Qed.

Lemma trim_trimmed s : trimmed (trim s) = true.
Proof.
  unfold trimmed, trim. apply andb_true_iff. split.
  - destruct (trimEnd_take (trimStart s)) as [k ->].
    apply (starts_nospace_take k), trimStart_starts.
  - unfold trimEnd. rewrite rev_involutive. apply trimStart_starts.
Qed.

Lemma trim_of_trimmed s : trimmed s = true -> trim s = s.
Proof.
  unfold trimmed. intros H. apply andb_true_iff in H as [H1 H2].
  unfold trim, trimEnd. rewrite (trimStart_fix s).
  2:{ destruct s as [|a s]; [exact I|]. simpl in H1. now destruct (is_space a). }
  rewrite trimStart_fix; [apply rev_involutive|].
  destruct (rev s) as [|a r]; [exact I|]. simpl in H2. now destruct (is_space a).
Qed.

Lemma trim_idem s : trim (trim s) = trim s.
Proof. apply trim_of_trimmed, trim_trimmed. Qed.

Lemma trim_infix s : exists j k, trim s = take k (drop j s).
Proof.
  unfold trim. destruct (trimStart_drop s) as [j ->].
  destruct (trimEnd_take (drop j s)) as [k ->]. now exists j, k.
Qed.

Lemma trim_length s : (length (trim s) <= length s)%nat.
Proof.
  destruct (trim_infix s) as (j & k & ->).
  rewrite length_take, length_drop. lia.
Qed.

(** White-space runs *)

Lemma is_code_eq n c : is_code n c = true -> c = ascii_of_N n.
Proof.
  unfold is_code, code. intros H. apply N.eqb_eq in H. subst n.
  symmetry. apply ascii_N_embedding.
Qed.

Lemma single_spaced_tail c s : single_spaced (c :: s) = true -> single_spaced s = true.
Proof. simpl. intros H. now apply andb_true_iff in H as [_ H]. Qed.

Lemma single_spaced_drop k s : single_spaced s = true -> single_spaced (drop k s) = true.
Proof.
  revert s. induction k as [|k IH]; intros [|c s] H; simpl; auto.
  apply IH. eapply single_spaced_tail, H.
Qed.

Lemma single_spaced_take k s : single_spaced s = true -> single_spaced (take k s) = true.
Proof.
  revert s. induction k as [|k IH]; intros [|c s] H; simpl; auto.
  simpl in H. apply andb_true_iff in H as [H1 H2].
  apply andb_true_iff. split; [|now apply IH].
  destruct (is_space c); [|reflexivity].
  apply andb_true_iff in H1 as [-> H1]. simpl.
  destruct k, s; simpl; auto.
Qed.

Lemma single_spaced_trim s : single_spaced s = true -> single_spaced (trim s) = true.
Proof.
  intros H. destruct (trim_infix s) as (j & k & ->).
  now apply single_spaced_take, single_spaced_drop.
Qed.

Lemma collapse_from_spaced b s :
  single_spaced (collapse_from b s) = true
  /\ (b = true -> starts_nospace (collapse_from b s) = true).
Proof.
  revert b. induction s as [|c s IH]; intros b; simpl; [auto|].
  destruct (is_space c) eqn:E.
  - destruct b.
    + apply IH.
    + split; [|discriminate]. simpl.
      destruct (IH true) as [H1 H2]. rewrite H1. specialize (H2 eq_refl).
      unfold starts_nospace in H2.
      destruct (collapse_from true s); [reflexivity|]. now rewrite H2.
  - split.
    + simpl. rewrite E. apply IH.
    + intros _. simpl. now rewrite E.
Qed.

Lemma collapse_from_fix b s :
  single_spaced s = true -> (b = true -> starts_nospace s = true) ->
  collapse_from b s = s.
Proof.
  revert b. induction s as [|c s IH]; intros b H Hb; simpl; [reflexivity|].
  simpl in H. apply andb_true_iff in H as [H1 H2].
  destruct (is_space c) eqn:E.
  - apply andb_true_iff in H1 as [Hc Hn].
    destruct b.
    + specialize (Hb eq_refl). simpl in Hb. rewrite E in Hb. discriminate.
    + apply is_code_eq in Hc. subst c. f_equal. apply IH; [assumption|].
      intros _. exact Hn.
  - f_equal. apply IH; [assumption | discriminate].
Qed.

Lemma collapse_from_no_control b s :
  forallb (fun c => negb (is_control c)) s = true ->
  forallb (fun c => negb (is_control c)) (collapse_from b s) = true.
Proof.
  revert b. induction s as [|c s IH]; intros b H; simpl; [reflexivity|].
  simpl in H. apply andb_true_iff in H as [H1 H2].
  destruct (is_space c); [destruct b|]; simpl; auto.
  rewrite H1. simpl. auto.
Qed.

Lemma strip_control_no_control s :
  forallb (fun c => negb (is_control c)) (strip_control s) = true.
Proof.
  unfold strip_control. induction s as [|c s IH]; simpl; [reflexivity|].
  destruct (is_control c) eqn:E; simpl; [assumption|]. now rewrite E.
Qed.

Lemma strip_control_fix s :
  forallb (fun c => negb (is_control c)) s = true -> strip_control s = s.
Proof.
  unfold strip_control. induction s as [|c s IH]; simpl; [reflexivity|].
  intros H. apply andb_true_iff in H as [-> H]. f_equal. auto.
Qed.

Lemma forallb_take {A} (f : A -> bool) k (s : list A) :
  forallb f s = true -> forallb f (take k s) = true.
Proof.
  revert s. induction k as [|k IH]; intros [|c s] H; simpl; auto.
  simpl in H. apply andb_true_iff in H as [-> H]. simpl. auto.
Qed.

Lemma forallb_drop {A} (f : A -> bool) k (s : list A) :
  forallb f s = true -> forallb f (drop k s) = true.
Proof.
  revert s. induction k as [|k IH]; intros [|c s] H; simpl; auto.
  simpl in H. apply andb_true_iff in H as [_ H]. auto.
Qed.

(** [sanitizeText] *)

Lemma sanitizeText_contract x : text_contract (sanitizeText x) = true.
Proof.
  unfold text_contract, sanitizeText, substring0, collapse_ws.
  repeat (apply andb_true_iff; split).
  - apply Nat.leb_le. rewrite length_take. lia.
  - apply forallb_take, collapse_from_no_control, strip_control_no_control.
  - apply single_spaced_take, collapse_from_spaced.
Qed.

Lemma text_contract_trim z : text_contract z = true -> text_contract (trim z) = true.
Proof.
  unfold text_contract. intros H.
  apply andb_true_iff in H as [H H3]. apply andb_true_iff in H as [H1 H2].
  repeat (apply andb_true_iff; split).
  - apply Nat.leb_le. apply Nat.leb_le in H1. pose proof (trim_length z). lia.
  - destruct (trim_infix z) as (j & k & ->). now apply forallb_take, forallb_drop.
  - now apply single_spaced_trim.
Qed.

Lemma sanitizeText_of_contract z : text_contract z = true -> sanitizeText z = trim z.
Proof.
  intros H. apply text_contract_trim in H. unfold text_contract in H.
  apply andb_true_iff in H as [H H3]. apply andb_true_iff in H as [H1 H2].
  unfold sanitizeText, substring0, collapse_ws.
  rewrite strip_control_fix by assumption.
  rewrite collapse_from_fix by (assumption || discriminate).
  apply take_ge. now apply Nat.leb_le.
Qed.

Lemma sanitizeText_twice x : sanitizeText (sanitizeText x) = trim (sanitizeText x).
Proof. apply sanitizeText_of_contract, sanitizeText_contract. Qed.

Lemma sanitizeText_stable x :
  sanitizeText (sanitizeText (sanitizeText x)) = sanitizeText (sanitizeText x).
Proof.
  rewrite (sanitizeText_twice x).
  rewrite sanitizeText_of_contract by apply text_contract_trim, sanitizeText_contract.
  apply trim_idem.
Qed.


(** The accepted values meet their contracts *)

Lemma did_char_lower c :
  did_char c = true -> is_upper c = false ->
  lower_alnum c || is_code 46 c || is_code 95 c || is_code 45 c = true.
Proof. ascii_cases c; vm_compute; congruence. Qed.

Lemma handle_char_lower c :
  handle_char c = true -> is_upper c = false ->
  lower_alnum c || is_code 46 c || is_code 45 c = true.
Proof. ascii_cases c; vm_compute; congruence. Qed.

Lemma sanitizeDid_contract x y : sanitizeDid x = Some y -> did_contract y.
Proof.
  intros H. apply sanitizeDid_Some in H as (Hy & Hre & Hlen).
  pose proof (toLowerCase_not_upper (trim x)) as Hup. rewrite <- Hy in Hup.
  apply re_did_shape in Hre as (m & id & E & Hm & Hne & Hall).
  exists m, id. repeat split; auto.
  rewrite E in Hup. repeat rewrite Forall_app in Hup.
  destruct Hup as (_ & _ & _ & Hup).
  rewrite Forall_forall in *. intros c Hc. apply did_char_lower; auto.
Qed.

Lemma sanitizeDid_idem x y : sanitizeDid x = Some y -> sanitizeDid y = Some y.
Proof.
  intros H. apply sanitizeDid_Some in H as (Hy & Hre & Hlen).
  apply sanitizeDid_Some. repeat split; auto.
  rewrite (trim_nospace y) by now apply re_did_nospace.
  rewrite Hy at 2. now rewrite toLowerCase_idem.
Qed.

Lemma sanitizeHandle_contract x y : sanitizeHandle x = Some y -> handle_contract y.
Proof.
  intros H. apply sanitizeHandle_Some in H as (Hy & Hre & Hlen).
  pose proof (toLowerCase_not_upper (trim x)) as Hup. rewrite <- Hy in Hup.
  apply all_plus_Forall in Hre as [Hne Hall].
  repeat split; auto.
  rewrite Forall_forall in *. intros c Hc. apply handle_char_lower; auto.
Qed.

Lemma sanitizeHandle_idem x y : sanitizeHandle x = Some y -> sanitizeHandle y = Some y.
Proof.
  intros H. apply sanitizeHandle_Some in H as (Hy & Hre & Hlen).
  apply sanitizeHandle_Some. repeat split; auto.
  rewrite (trim_nospace y) by now apply re_handle_nospace.
  rewrite Hy at 2. now rewrite toLowerCase_idem.
Qed.

Lemma token_contract_iff (prefix : string) y :
  token_contract prefix y <->
  match strip_prefix (lit prefix) y with
  | Some t => all_plus token_char t
  | None => false
  end = true /\ (length y <= 128)%nat.
Proof.
  rewrite re_token_shape. unfold token_contract, token_char. split.
  - intros (t & ? & ? & ? & ?). split; [exists t|]; auto.
  - intros [(t & ? & ? & ?) ?]. exists t. auto.
Qed.

Lemma token_contract_nospace (prefix : string) y :
  forallb (fun c => negb (is_space c)) (lit prefix) = true ->
  token_contract prefix y -> trim y = y.
Proof.
  intros Hp (t & -> & _ & Hall & _). apply trim_nospace.
  now apply re_token_nospace.
Qed.

Lemma sanitizeSessionId_iff x y :
  sanitizeSessionId x = Some y <-> y = trim x /\ token_contract "sess_" y.
Proof.
  rewrite sanitizeSessionId_Some, token_contract_iff. unfold re_session. tauto.
Qed.

Lemma sanitizeDeviceId_iff x y :
  sanitizeDeviceId x = Some y <-> y = trim x /\ token_contract "dev_" y.
Proof.
  rewrite sanitizeDeviceId_Some, token_contract_iff. unfold re_device. tauto.
Qed.

Lemma sanitizeUrl_contract URL_parse x y :
  sanitizeUrl URL_parse x = Some y -> url_contract URL_parse x y.
Proof.
  unfold sanitizeUrl, url_contract.
  destruct (URL_parse x) as [u|]; [|discriminate].
  destruct (bool_decide (protocol u = lit "http:") || bool_decide (protocol u = lit "https:")) eqn:P;
    simpl; [|discriminate].
  destruct (length (hostname u) =? 0)%nat eqn:Z; simpl; [discriminate|].
  destruct (253 <? length (hostname u))%nat eqn:L; [discriminate|].
  intros [= <-]. exists u. repeat split.
  - apply orb_true_iff in P as [P|P]; apply bool_decide_eq_true in P; auto.
  - apply Nat.eqb_neq in Z. lia.
  - now apply Nat.ltb_ge in L.
Qed.

Lemma sanitizeUrl_idem URL_parse x y :
  URL_roundtrip URL_parse ->
  sanitizeUrl URL_parse x = Some y -> sanitizeUrl URL_parse y = Some y.
Proof.
  intros RT. unfold sanitizeUrl.
  destruct (URL_parse x) as [u|] eqn:E; [|discriminate].
  destruct (negb _) eqn:P; [discriminate|].
  destruct (_ || _) eqn:L in |- *; [discriminate|].
  intros [= <-]. rewrite (RT _ _ E), P, L. reflexivity.
Qed.

Lemma example_URL_roundtrip : URL_roundtrip example_URL_parse.
Proof.
  intros s u. unfold example_URL_parse.
  destruct (_ || _); [|discriminate]. intros [= <-]. reflexivity.
Qed.

(** C6 (as amended).  Every sanitizer returns a rejection or a value that
    meets its contract: for [sanitizeText] at most 10000 characters, no
    control character and white space only as single spaces (a space may
    remain at either end); for the others the format and the length bound.
    [sanitizeDid], [sanitizeHandle], [sanitizeSessionId] and
    [sanitizeDeviceId] are idempotent on what they accept, and so is
    [sanitizeUrl] when the URL parser reads back what it prints.  A second
    [sanitizeText] trims the result of the first, so [sanitizeText] is
    idempotent exactly on the inputs whose result is trimmed. *)
Theorem sanitizers_contract_and_idempotence (URL_parse : jsstring -> option URL) :
  (forall x,
      text_contract (sanitizeText x) = true
      /\ sanitizeText (sanitizeText x) = trim (sanitizeText x)
      /\ (trimmed (sanitizeText x) = true <->
          sanitizeText (sanitizeText x) = sanitizeText x))
  /\ (forall x y, sanitizeUrl URL_parse x = Some y ->
        url_contract URL_parse x y
        /\ (URL_roundtrip URL_parse -> sanitizeUrl URL_parse y = Some y))
  /\ (forall x y, sanitizeDid x = Some y ->
        did_contract y /\ sanitizeDid y = Some y)
  /\ (forall x y, sanitizeHandle x = Some y ->
        handle_contract y /\ sanitizeHandle y = Some y)
  /\ (forall x y, sanitizeSessionId x = Some y ->
        token_contract "sess_" y /\ sanitizeSessionId y = Some y)
  /\ (forall x y, sanitizeDeviceId x = Some y ->
        token_contract "dev_" y /\ sanitizeDeviceId y = Some y).
Proof.
  split; [|split; [|split; [|split; [|split]]]].
  - intros x. split; [apply sanitizeText_contract|].
    split; [apply sanitizeText_twice|]. split; intros H.
    + rewrite sanitizeText_twice. now apply trim_of_trimmed.
    + rewrite <- H, sanitizeText_twice. apply trim_trimmed.
  - intros x y H. split; [now apply sanitizeUrl_contract|].
    intros RT. eapply sanitizeUrl_idem; eauto.
  - intros x y H. split; [eapply sanitizeDid_contract | eapply sanitizeDid_idem]; eauto.
  - intros x y H.
    split; [eapply sanitizeHandle_contract | eapply sanitizeHandle_idem]; eauto.
  - intros x y H. apply sanitizeSessionId_iff in H as [_ H]. split; [assumption|].
    apply sanitizeSessionId_iff. split; [|assumption].
    symmetry. now apply (token_contract_nospace "sess_").
  - intros x y H. apply sanitizeDeviceId_iff in H as [_ H]. split; [assumption|].
    apply sanitizeDeviceId_iff. split; [|assumption].
    symmetry. now apply (token_contract_nospace "dev_").
Qed.

Lemma sanitizers_contract_and_idempotence_witness :
  (sanitizeDid (lit " DID:plc:Abc.1 ") = Some (lit "did:plc:abc.1")
   /\ did_contract (lit "did:plc:abc.1")
   /\ sanitizeDid (lit "did:plc:abc.1") = Some (lit "did:plc:abc.1"))
  /\ (sanitizeUrl example_URL_parse (lit "https://example.com")
        = Some (lit "https://example.com/")
      /\ sanitizeUrl example_URL_parse (lit "https://example.com/")
        = Some (lit "https://example.com/"))
  /\ (sanitizeSessionId (lit " sess_Ab-1 ") = Some (lit "sess_Ab-1")
      /\ token_contract "sess_" (lit "sess_Ab-1")).
Proof.
  pose proof (sanitizers_contract_and_idempotence example_URL_parse)
    as (_ & Hurl & Hdid & _ & Hsess & _).
  split; [|split].
  - split; [reflexivity|].
    apply (Hdid (lit " DID:plc:Abc.1 ")). reflexivity.
  - split; [reflexivity|].
    apply (Hurl (lit "https://example.com")); [reflexivity|].
    apply example_URL_roundtrip.
  - split; [reflexivity|].
    apply (Hsess (lit " sess_Ab-1 ")). reflexivity.
Defined.

(** C6 (as stated) fails: [sanitizeText] is not idempotent.  A control
    character in front of a space shields the space from [trim]; the space is
    left at the front of the result and a second pass removes it. *)
Lemma sanitizeText_not_idempotent :
  sanitizeText ("001"%char :: lit " a") = lit " a"
  /\ sanitizeText (sanitizeText ("001"%char :: lit " a")) = lit "a"
  /\ sanitizeText (sanitizeText ("001"%char :: lit " a"))
     <> sanitizeText ("001"%char :: lit " a").
Proof. repeat split. vm_compute. discriminate. Qed.

(** C7 (as amended).  [sanitizeSessionId] and [sanitizeDeviceId] trim the
    input and do not change its case: the result is the trimmed input when
    that is ["sess_"] (["dev_"]) followed by one or more of [[a-zA-Z0-9_-]]
    and has at most 128 characters, and a rejection otherwise. *)
Theorem session_device_id_sanitizers (x : jsstring) :
  (sanitizeSessionId x = Some (trim x) /\ token_contract "sess_" (trim x)
   \/ sanitizeSessionId x = None /\ ~ token_contract "sess_" (trim x))
  /\ (sanitizeDeviceId x = Some (trim x) /\ token_contract "dev_" (trim x)
      \/ sanitizeDeviceId x = None /\ ~ token_contract "dev_" (trim x)).
Proof.
  split.
  - destruct (sanitizeSessionId x) as [y|] eqn:E.
    + left. apply sanitizeSessionId_iff in E as [-> H]. auto.
    + right. split; [reflexivity|]. intros H.
      assert (sanitizeSessionId x = Some (trim x)) by now apply sanitizeSessionId_iff.
      congruence.
  - destruct (sanitizeDeviceId x) as [y|] eqn:E.
    + left. apply sanitizeDeviceId_iff in E as [-> H]. auto.
    + right. split; [reflexivity|]. intros H.
      assert (sanitizeDeviceId x = Some (trim x)) by now apply sanitizeDeviceId_iff.
      congruence.
Qed.

Lemma session_device_id_sanitizers_witness :
  sanitizeSessionId (lit " sess_Ab-1 ") = Some (lit "sess_Ab-1")
  /\ token_contract "sess_" (lit "sess_Ab-1")
  /\ sanitizeDeviceId (lit "dev_a b") = None
  /\ ~ token_contract "dev_" (lit "dev_a b").
Proof.
  destruct (session_device_id_sanitizers (lit " sess_Ab-1 ")) as [[[_ Hs] | [Hs _]] _];
    [|discriminate Hs].
  destruct (session_device_id_sanitizers (lit "dev_a b")) as [_ [[Hd _] | [_ Hd]]];
    [discriminate Hd|].
  repeat split; assumption.
Defined.

(** C7 (as stated) fails: the code does not lower-case a session or device
    id; an id with capitals is accepted as it is. *)
Lemma sanitizeSessionId_keeps_case :
  sanitizeSessionId (lit "sess_ABC") = Some (lit "sess_ABC")
  /\ sanitizeSessionId_spec (lit "sess_ABC") = Some (lit "sess_abc")
  /\ sanitizeSessionId (lit "sess_ABC") <> sanitizeSessionId_spec (lit "sess_ABC")
  /\ sanitizeDeviceId (lit "dev_ABC") <> sanitizeDeviceId_spec (lit "dev_ABC").
Proof. repeat split; vm_compute; discriminate. Qed.

End SanitizeFacts.

(** ** Identity utilities *)

Module IdentityFacts.

Import IdentityUtils Spec.

Lemma alphabet_base36 : Forall (fun c => base36 c = true) ALPHABET.
Proof. repeat constructor. Qed.

Lemma customRandom_sound size bytes :
  forall id id' rest,
    customRandom ALPHABET size id bytes = Some (id', rest) ->
    exists t, id' = id ++ t /\ length id' = size
              /\ Forall (fun c => base36 c = true) t.
Proof.
  induction bytes as [|b bytes IH]; intros id id' rest; simpl; [discriminate|].
  set (next := match ALPHABET !! N.to_nat (N.land b (mask_of ALPHABET)) with
               | Some c => id ++ [c]
               | None => id
               end).
  assert (Hnext : exists t, next = id ++ t /\ Forall (fun c => base36 c = true) t).
  { subst next. destruct (ALPHABET !! _) as [c|] eqn:E.
    - exists [c]. split; [reflexivity|]. constructor; [|constructor].
      pose proof alphabet_base36 as HA. rewrite Forall_forall in HA.
      apply HA. eapply list_elem_of_lookup_2, E.
    - exists []. split; [now rewrite app_nil_r | constructor]. }
  destruct Hnext as (t & Ht & Hall).
  destruct (length next =? size)%nat eqn:L.
  - intros [= <- <-]. exists t. apply Nat.eqb_eq in L. auto.
  - intros H. apply IH in H as (t' & -> & Hlen & Hall').
    exists (t ++ t'). rewrite Ht, <- app_assoc. repeat split; auto.
    + now rewrite Ht, <- app_assoc in Hlen.
    + now apply Forall_app.
Qed.

Lemma customRandom_returns size bytes :
  forall id,
    (length id < size)%nat ->
    (size - length id <= length (List.filter usable bytes))%nat ->
    is_Some (customRandom ALPHABET size id bytes).
Proof.
  induction bytes as [|b bytes IH]; intros id Hlt Hen; simpl in *; [lia|].
  unfold usable in Hen at 1.
  destruct (N.land b (mask_of ALPHABET) <? N.of_nat (length ALPHABET))%N eqn:U.
  - apply N.ltb_lt in U.
    destruct (lookup_lt_is_Some_2 ALPHABET (N.to_nat (N.land b (mask_of ALPHABET))))
      as [c ->]; [lia|].
    rewrite length_app. simpl in *.
    destruct (length id + 1 =? size)%nat eqn:L; [eauto|].
    apply Nat.eqb_neq in L. apply IH; rewrite length_app; simpl; lia.
  - apply N.ltb_ge in U.
    rewrite (lookup_ge_None_2 ALPHABET) by lia.
    destruct (length id =? size)%nat eqn:L; [eauto|].
    apply IH; lia.
Qed.

Lemma nanoid_sound bytes id rest :
  nanoid bytes = Some (id, rest) ->
  length id = 21%nat /\ Forall (fun c => base36 c = true) id.
Proof.
  unfold nanoid, customAlphabet. intros H.
  apply customRandom_sound in H as (t & -> & Hlen & Hall). auto.
Qed.

Lemma nanoid_returns bytes :
  (21 <= length (List.filter usable bytes))%nat -> is_Some (nanoid bytes).
Proof.
  intros H. apply customRandom_returns; simpl; lia.
Qed.

(** C9.  Every value that [generateSessionId] returns is ["sess_"] followed
    by exactly 21 characters of [[0-9a-z]], every value that
    [generateDeviceId] returns is ["dev_"] followed by 21 such characters, and
    both return as soon as the random source supplies 21 bytes that map into
    the alphabet. *)
Theorem generated_ids_format (bytes : entropy) :
  (forall id rest, generateSessionId bytes = Some (id, rest) -> minted "sess_" id)
  /\ (forall id rest, generateDeviceId bytes = Some (id, rest) -> minted "dev_" id)
  /\ ((21 <= length (List.filter usable bytes))%nat ->
      is_Some (generateSessionId bytes) /\ is_Some (generateDeviceId bytes)).
Proof.
  split; [|split].
  - unfold generateSessionId. intros id rest H.
    destruct (nanoid bytes) as [[t r]|] eqn:E; [|discriminate].
    injection H as <- <-. apply nanoid_sound in E as [? ?]. now exists t.
  - unfold generateDeviceId. intros id rest H.
    destruct (nanoid bytes) as [[t r]|] eqn:E; [|discriminate].
    injection H as <- <-. apply nanoid_sound in E as [? ?]. now exists t.
  - intros H. apply nanoid_returns in H as [[t r] E].
    unfold generateSessionId, generateDeviceId. rewrite E. eauto.
Qed.

Lemma generated_ids_format_witness :
  generateSessionId Examples.example_entropy
  = Some (lit "sess_910az23456789bcdefghi", [77%N])
  /\ minted "sess_" (lit "sess_910az23456789bcdefghi")
  /\ is_Some (generateDeviceId Examples.example_entropy).
Proof.
  destruct (generated_ids_format Examples.example_entropy) as (Hs & _ & Hr).
  split; [reflexivity|]. split.
  - apply (Hs _ [77%N]). reflexivity.
  - apply Hr. vm_compute. lia.
Defined.

End IdentityFacts.

(** ** Rate limiter *)

Module RateLimitFacts.

Import RateLimit.

(** Boolean comparisons of the code, as the orders [lia] knows. *)
Ltac order_hyps :=
  repeat match goal with
    | H : (_ >=? _) = true |- _ => rewrite Z.geb_leb in H; apply Z.leb_le in H
    | H : (_ >=? _) = false |- _ => rewrite Z.geb_leb in H; apply Z.leb_gt in H
    | H : (_ >? _) = true |- _ => rewrite Z.gtb_ltb in H; apply Z.ltb_lt in H
    | H : (_ >? _) = false |- _ => rewrite Z.gtb_ltb in H; apply Z.ltb_ge in H
    | H : (_ <? _) = true |- _ => apply Z.ltb_lt in H
    | H : (_ <? _) = false |- _ => apply Z.ltb_ge in H
    end.

Section Window.

Variables (key : jsstring) (N W : Z).

(** A call that finds no entry, or an entry whose window is over, opens a
    window. *)
Lemma check_opens (now : Z) (store : gmap jsstring RateLimitEntry) :
  match store !! key with
  | None => True
  | Some e => now > resetTime e
  end ->
  check now store key N W
  = (mkCheck true (N - 1) (now + W), <[key := mkEntry 1 (now + W)]> store).
Proof.
  unfold check. destruct (store !! key) as [e|]; [|reflexivity].
  intros H. destruct (now >? resetTime e) eqn:E; [reflexivity|]. order_hyps. lia.
Qed.

(** A call inside the window counts, up to the limit. *)
Lemma check_inside (now : Z) (store : gmap jsstring RateLimitEntry) (k R : Z) :
  store !! key = Some (mkEntry k R) -> now <= R ->
  check now store key N W
  = if k >=? N then (mkCheck false 0 R, store)
    else (mkCheck true (N - (k + 1)) R, <[key := mkEntry (k + 1) R]> store).
Proof.
  intros Hk Hle. unfold check. rewrite Hk. simpl.
  destruct (now >? R) eqn:E; order_hyps; [lia|]. reflexivity.
Qed.


Lemma check_many_inside (times : list Z) :
  forall (store : gmap jsstring RateLimitEntry) k R,
    store !! key = Some (mkEntry k R) ->
    Forall (fun t => t <= R) times ->
    (exists k', (check_many times store key N W).2 !! key = Some (mkEntry k' R))
    /\ length (check_many times store key N W).1 = length times
    /\ forall i r, (check_many times store key N W).1 !! i = Some r -> answer N k R i r.
Proof.
  induction times as [|t times IH]; intros store k R Hk Hin; simpl.
  - split; [eauto|]. split; [reflexivity|]. intros i r. now rewrite lookup_nil.
  - apply Forall_cons in Hin as [Ht Hin].
    rewrite (check_inside t store k R Hk Ht).
    destruct (k >=? N) eqn:E.
    + specialize (IH store k R Hk Hin).
      destruct (check_many times store key N W) as [rs store'] eqn:C. simpl in *.
      destruct IH as (Hk' & Hlen & Hrs). split; [assumption|]. split; [lia|].
      intros [|i] r; simpl.
      * intros [= <-]. split; [reflexivity|]. simpl.
        destruct (_ <? _) eqn:L; order_hyps; [lia | auto].
      * intros Hr. destruct (Hrs i r Hr) as [HR Hi]. split; [assumption|].
        destruct (k + Z.of_nat i <? N) eqn:L1; order_hyps; [lia|].
        destruct (k + Z.of_nat (S i) <? N) eqn:L2; order_hyps; [lia | assumption].
    + assert (Hk1 : <[key := mkEntry (k + 1) R]> store !! key = Some (mkEntry (k + 1) R))
        by apply lookup_insert_eq.
      specialize (IH _ (k + 1) R Hk1 Hin).
      destruct (check_many times _ key N W) as [rs store'] eqn:C. simpl in *.
      destruct IH as (Hk' & Hlen & Hrs). split; [assumption|]. split; [lia|].
      intros [|i] r; simpl.
      * intros [= <-]. split; [reflexivity|]. simpl.
        destruct (_ <? _) eqn:L; order_hyps; [split; [reflexivity | lia] | lia].
      * intros Hr. destruct (Hrs i r Hr) as [HR Hi]. split; [assumption|].
        replace (k + Z.of_nat (S i)) with (k + 1 + Z.of_nat i) by lia.
        exact Hi.
Qed.

End Window.

(** C2.  A call that opens a window (no entry for the key, or an entry whose
    [resetTime] has passed), followed by any number of calls made no later
    than the window's [resetTime]: call number [i+1] is allowed exactly when
    [i < N], a denied call carries [remaining = 0], and every answer carries
    the [resetTime] of the opening call.  In particular the first [N] of
    [N+1] calls are allowed and the [(N+1)]-th is denied.  The first call
    made strictly after [resetTime] is allowed and leaves the count at 1 in
    a window of its own. *)
Theorem check_fixed_window (store : gmap jsstring RateLimitEntry)
    (key : jsstring) (N W t0 : Z) (times : list Z) :
  1 <= N ->
  match store !! key with
  | None => True
  | Some e => t0 > resetTime e
  end ->
  Forall (fun t => t <= t0 + W) times ->
  let results := (check_many (t0 :: times) store key N W).1 in
  let store' := (check_many (t0 :: times) store key N W).2 in
  length results = S (length times)
  /\ (forall i r, results !! i = Some r ->
        cr_resetTime r = t0 + W
        /\ allowed r = (Z.of_nat i <? N)
        /\ (allowed r = false -> remaining r = 0))
  /\ (forall t', t' > t0 + W ->
        check t' store' key N W
        = (mkCheck true (N - 1) (t' + W), <[key := mkEntry 1 (t' + W)]> store')).
Proof.
  intros HN Hopen Hin. simpl.
  rewrite (check_opens key N W t0 store Hopen).
  pose proof (check_many_inside key N W times
                (<[key := mkEntry 1 (t0 + W)]> store) 1 (t0 + W)
                (lookup_insert_eq _ _ _) Hin) as (Hk' & Hlen & Hrs).
  destruct (check_many times _ key N W) as [rs store'] eqn:C. simpl in *.
  split; [lia|]. split.
  - intros [|i] r; simpl.
    + intros [= <-]. simpl. split; [reflexivity|]. split; [|discriminate].
      symmetry. apply Z.ltb_lt. lia.
    + intros Hr. destruct (Hrs i r Hr) as [HR Hi]. split; [assumption|].
      replace (Z.of_nat (S i) <? N) with (1 + Z.of_nat i <? N)
        by (f_equal; lia).
      destruct (1 + Z.of_nat i <? N); destruct Hi as [-> Hrem]; auto.
      split; [reflexivity | discriminate].
  - intros t' Ht'. destruct Hk' as [k' Hk']. apply check_opens.
    rewrite Hk'. simpl. lia.
Qed.

Lemma check_fixed_window_witness :
  (check_many [0; 10; 20] ∅ (lit "203.0.113.7") 2 1000).1
  = [mkCheck true 1 1000; mkCheck true 0 1000; mkCheck false 0 1000]
  /\ (forall i r,
        (check_many [0; 10; 20] ∅ (lit "203.0.113.7") 2 1000).1 !! i = Some r ->
        cr_resetTime r = 0 + 1000
        /\ allowed r = (Z.of_nat i <? 2)
        /\ (allowed r = false -> remaining r = 0)).
Proof.
  split; [reflexivity|].
  apply (check_fixed_window ∅ (lit "203.0.113.7") 2 1000 0 [10; 20]).
  - lia.
  - rewrite lookup_empty. exact I.
  - repeat constructor; lia.
Defined.

End RateLimitFacts.

(** ** Server *)

Module ServerFacts.

Import Sanitize RateLimit Server Examples.

(** *** Rows of a key *)

Section Keyed.

Context {Row K : Type} `{EqDecision K}.
Variables (key : Row -> K) (k : K) (conflicts : Row -> bool).
Hypothesis conflicts_key : forall r, conflicts r = bool_decide (key r = k).

Lemma filter_absent (t : list Row) :
  k ∉ map key t -> List.filter conflicts t = [].
Proof.
  induction t as [|r t IH]; simpl; [reflexivity|]. intros Hk.
  apply not_elem_of_cons in Hk as [Hr Hk].
  rewrite conflicts_key, bool_decide_eq_false_2 by congruence. auto.
Qed.

End Keyed.

Lemma update_where_none {Row} (cond : Row -> bool) (f : Row -> Row) (t : list Row) :
  List.filter cond t = [] -> update_where cond f t = ([], t).
Proof.
  induction t as [|r t IH]; simpl; [reflexivity|].
  destruct (cond r); [discriminate|]. intros H. now rewrite (IH H).
Qed.


(** *** What a schema accepts *)

Lemma z_string_Some chk f s : z_string chk f = Some s -> f = IsString s /\ chk s = true.
Proof.
  destruct f as [|x|]; simpl; try discriminate.
  destruct (chk x) eqn:E; [|discriminate]. now intros [= <-].
Qed.

Lemma syncSchema_fields b data :
  syncSchema b = Some data ->
  b_did b = IsString (did data) /\ b_handle b = IsString (handle data)
  /\ b_sessionId b = IsString (sessionId data).
Proof.
  unfold syncSchema.
  destruct (z_string any (b_did b)) as [d|] eqn:E1; [|discriminate].
  destruct (z_string any (b_handle b)) as [h|] eqn:E2; [|discriminate].
  destruct (z_optional any (b_displayName b)); [|discriminate].
  destruct (z_optional any (b_avatar b)); [|discriminate].
  destruct (z_optional any (b_description b)); [|discriminate].
  destruct (z_optional any (b_pds b)); [|discriminate].
  destruct (z_string any (b_sessionId b)) as [sid|] eqn:E3; [|discriminate].
  destruct (z_string any (b_deviceId b)); [|discriminate].
  destruct (z_metadata any any (b_metadata b)); [|discriminate].
  intros [= <-]. simpl.
  apply z_string_Some in E1 as [-> _], E2 as [-> _], E3 as [-> _]. auto.
Qed.

Lemma syncSchema_hardened_fields env b data :
  syncSchema_hardened env b = Some data ->
  b_did b = IsString (did data) /\ b_handle b = IsString (handle data)
  /\ b_sessionId b = IsString (sessionId data)
  /\ (min_len 1 (sessionId data) && max_len 128 (sessionId data)
      && all_plus token_char (sessionId data)) = true.
Proof.
  unfold syncSchema_hardened.
  destruct (z_string _ (b_did b)) as [d|] eqn:E1; [|discriminate].
  destruct (z_string _ (b_handle b)) as [h|] eqn:E2; [|discriminate].
  destruct (z_optional _ (b_displayName b)); [|discriminate].
  destruct (z_optional _ (b_avatar b)); [|discriminate].
  destruct (z_optional _ (b_description b)); [|discriminate].
  destruct (z_optional _ (b_pds b)); [|discriminate].
  destruct (z_string _ (b_sessionId b)) as [sid|] eqn:E3; [|discriminate].
  destruct (z_string _ (b_deviceId b)); [|discriminate].
  destruct (z_metadata _ _ (b_metadata b)); [|discriminate].
  intros [= <-]. simpl.
  apply z_string_Some in E1 as [-> _], E2 as [-> _], E3 as [-> ?]. auto.
Qed.

(** *** The statements of the synchronization route *)

(** The [INSERT] on [users] fails on every table and for every request: the
    row it proposes has no [id].  So does the [INSERT] on [userSessions]. *)
Lemma insert_users_fails env data (t : list User) :
  insert_on_conflict users_not_null (same_did (did data)) (user_set env data)
                     (user_values env data) t = None.
Proof. reflexivity. Qed.

Lemma insert_sessions_fails env user data (t : list UserSession) :
  insert_on_conflict sessions_not_null (same_sessionId (sessionId data))
                     (session_set env data) (session_values env user data) t = None.
Proof. reflexivity. Qed.

(** The two statements of the route come to the first one, which throws. *)
Lemma sync_persist_run env data st :
  sync_persist env data st
  = Exn OtherError
        (mkState (users st) (userSessions st) (rateLimiter st)
                 (db_log st ++ [InsertUsers (did data)])).
Proof.
  unfold sync_persist, upsert_user, bind, log_op, modify, get, throw. simpl.
  destruct (users_stmt_ok env); reflexivity.
Qed.

(** What either version of the route does with a request. *)
Lemma sync_route_outcome v env (req : Request SyncBody) st :
  exists r st',
    sync_route v env req st = Val r st'
    /\ users st' = users st /\ userSessions st' = userSessions st
    /\ (((status r = 400%nat \/ status r = 429%nat) /\ db_log st' = db_log st)
        \/ (r = mkResponse 500 (Failure (lit "Failed to sync user data"))
            /\ (db_log st' = db_log st
                \/ exists b data,
                     json req = Some b
                     /\ b_did b = IsString (did data)
                     /\ b_handle b = IsString (handle data)
                     /\ b_sessionId b = IsString (sessionId data)
                     /\ db_log st' = db_log st ++ [InsertUsers (did data)]))).
Proof.
  destruct v; simpl.
  - unfold sync_POST, try_catch, bind, request_json, zod_parse, ret, throw.
    destruct (json req) as [b|] eqn:J; simpl; [|eauto 10].
    destruct (syncSchema b) as [data|] eqn:S; simpl; [|eauto 10].
    rewrite sync_persist_run.
    apply syncSchema_fields in S as (? & ? & ?).
    eexists _, _. split; [reflexivity|]. simpl.
    split; [reflexivity|]. split; [reflexivity|]. right. split; [reflexivity|].
    right. exists b, data. auto.
  - unfold sync_POST_hardened, try_catch, bind, get, set_rateLimiter, modify,
      request_json, zod_parse, ret, throw.
    destruct (applyRateLimit _ _ _ _) as [res store]. simpl.
    destruct (allowed res); simpl; [|eauto 10].
    destruct (is_json_content req); simpl; [|eauto 10].
    destruct (json req) as [b|] eqn:J; simpl; [|eauto 10].
    destruct (syncSchema_hardened env b) as [data|] eqn:S; simpl; [|eauto 10].
    destruct (startsWith (sessionId data) (lit "sess_")); simpl; [|eauto 10].
    rewrite sync_persist_run.
    apply syncSchema_hardened_fields in S as (? & ? & ? & _).
    eexists _, _. split; [reflexivity|]. simpl.
    split; [reflexivity|]. split; [reflexivity|]. right. split; [reflexivity|].
    right. exists b, data. auto.
Qed.

(** C1 (the code at the failing input).  The [INSERT] of the route gives no
    [id], and the [id] column of [users] is a primary key without a default:
    the statement fails on the NOT NULL constraint, which is checked before
    the conflict is looked for, and the handler answers 500.  For the two
    requests of the claim (same [did] and [sessionId], handles
    ["alice.example"] and ["alice.test"]) on empty tables, either version of
    the route answers both with status 500 and leaves no [users] row for the
    [did] and no [userSessions] row for the [sessionId], where the claim has
    one of each; the statement on [userSessions] is never sent.  And so for
    every request, environment and tables: no synchronization request is
    answered with success, and none changes a row of either table, so the
    handle of an existing row is not replaced either. *)
Theorem sync_insert_without_id_fails :
  (forall v,
      answer_of (first_sync v) empty_state
      = mkResponse 500 (Failure (lit "Failed to sync user data"))
      /\ answer_of (second_sync v) (state_after (first_sync v) empty_state)
         = mkResponse 500 (Failure (lit "Failed to sync user data"))
      /\ rows_for_did example_did
           (state_after (second_sync v) (state_after (first_sync v) empty_state)) = []
      /\ rows_for_session example_sessionId
           (state_after (second_sync v) (state_after (first_sync v) empty_state)) = []
      /\ db_log (state_after (second_sync v) (state_after (first_sync v) empty_state))
         = [InsertUsers example_did; InsertUsers example_did])
  /\ (forall v env (req : Request SyncBody) st,
        exists r st',
          sync_route v env req st = Val r st'
          /\ succeeded r = false
          /\ users st' = users st /\ userSessions st' = userSessions st).
Proof.
  split.
  - intros v. destruct v; repeat split; vm_compute; reflexivity.
  - intros v env req st.
    destruct (sync_route_outcome v env req st) as (r & st' & Hrun & Hu & Hs & Hcase).
    exists r, st'. split; [exact Hrun|]. split; [|auto].
    unfold succeeded.
    destruct Hcase as [[[H | H] _] | [-> _]]; [| |reflexivity];
      destruct (payload r); try reflexivity; rewrite H; reflexivity.
Qed.

End ServerFacts.

(** ** Client *)

Module ClientFacts.

Import IdentityUtils Client Spec Examples.

Lemma generateSessionId_minted bytes id rest :
  generateSessionId bytes = Some (id, rest) -> minted "sess_" id.
Proof.
  unfold generateSessionId. intros H.
  destruct (nanoid bytes) as [[t r]|] eqn:E; [|discriminate].
  injection H as <- <-. apply IdentityFacts.nanoid_sound in E as [? ?]. now exists t.
Qed.

(** A [fetch] wrapped in its [try]/[catch] returns, whatever the network
    does. *)
Lemma caught_fetch w api sid c :
  try_catch (fetch w api sid) (fun _ => ret tt) c = Val tt (emitted (CalledFetch api sid) c).
Proof.
  unfold try_catch, fetch, bind, emit, modify, ret, throw. simpl.
  now destruct (fetch_resolves w api).
Qed.

Lemma enhance_Val w s c : enhance w s c = Val (enhanced_session w s c) c.
Proof.
  unfold enhance, enhanced_session, fetchUserProfile, try_catch, bind, get, ret,
    throw, extractPdsFromSession, handle_of, displayName_or.
  destruct (getProfile w (sub s)) as [p|]; simpl.
  - destruct (session_pds s); [reflexivity|]. now destruct (_ || _).
  - destruct (session_pds s); [reflexivity|]. now destruct (_ || _).
Qed.


(** The callback, once the provider has returned a session and the session
    id is chosen. *)
Lemma handleCallback_session w s state c :
  oauth_init w = InitSession s state ->
  handleCallback w c
  = match parsedState_sessionId w state with
    | Some sid =>
        let c1 := with_sessionId sid c in
        Val (Some (enhanced_session w s c1))
            (emitted (CalledFetch ApiSync sid) c1)
    | None =>
        match generateSessionId (random c) with
        | Some (id, rest) =>
            let c1 := with_sessionId id (with_random rest c) in
            Val (Some (enhanced_session w s c1))
                (emitted (CalledFetch ApiSync id) c1)
        | None => Hang
        end
    end.
Proof.
  intros Hinit. unfold handleCallback. rewrite Hinit.
  unfold try_catch at 1. unfold bind at 1.
  destruct (parsedState_sessionId w state) as [sid|].
  - unfold ret at 1. unfold bind at 1. unfold set_sessionId, modify.
    unfold bind at 1. rewrite enhance_Val.
    unfold bind at 1. unfold syncSessionToDatabase. rewrite caught_fetch.
    reflexivity.
  - unfold newSessionId.
    destruct (generateSessionId (random c)) as [[id rest]|]; [|reflexivity].
    unfold bind at 1. unfold set_sessionId, modify.
    unfold bind at 1. rewrite enhance_Val.
    unfold bind at 1. unfold syncSessionToDatabase. rewrite caught_fetch.
    reflexivity.
Qed.


Lemma restoreSession_session w did s c :
  oauth_restore w did = Some (Some s) ->
  restoreSession w did c
  = match c_sessionId c with
    | [] =>
        match generateSessionId (random c) with
        | Some (id, rest) =>
            let c1 := with_sessionId id (with_random rest c) in
            Val (Some (enhanced_session w s c1))
                (emitted (CalledFetch ApiActivity id) (emitted (CalledFetch ApiSync id) c1))
        | None => Hang
        end
    | _ :: _ =>
        Val (Some (enhanced_session w s c))
            (emitted (CalledFetch ApiActivity (c_sessionId c))
                     (emitted (CalledFetch ApiSync (c_sessionId c)) c))
    end.
Proof.
  intros Hres. unfold restoreSession. rewrite Hres.
  unfold try_catch at 1. unfold bind at 1. unfold get at 1.
  destruct (c_sessionId c) as [|a sid] eqn:E.
  - unfold bind at 1. unfold bind at 1. unfold newSessionId.
    destruct (generateSessionId (random c)) as [[id rest]|]; [|reflexivity].
    unfold set_sessionId, modify.
    unfold bind at 1. rewrite enhance_Val.
    unfold bind at 1. unfold syncSessionToDatabase. rewrite caught_fetch.
    unfold bind at 1. unfold updateSessionActivity. rewrite caught_fetch.
    reflexivity.
  - unfold bind at 1. unfold ret at 1.
    unfold bind at 1. rewrite enhance_Val.
    unfold bind at 1. unfold syncSessionToDatabase. rewrite caught_fetch.
    unfold bind at 1. unfold updateSessionActivity. rewrite caught_fetch.
    unfold enhanced_session. simpl. rewrite E. reflexivity.
Qed.

Lemma signOut_run w did c :
  signOut w did c
  = if oauth_revoke w did then
      let c1 := emitted (CalledFetch ApiDeactivate (c_sessionId c)) (emitted (CalledRevoke did) c) in
      let c2 := if has_window w then removed CURRENT_DID c1 else c1 in
      match generateSessionId (random c2) with
      | Some (id, rest) => Val tt (with_sessionId id (with_random rest c2))
      | None => Hang
      end
    else
      let c1 := emitted (CalledRevoke did) c in
      Val tt (if has_window w then removed CURRENT_DID c1 else c1).
Proof.
  unfold signOut, try_catch, bind, emit, modify, get, ret, throw.
  destruct (oauth_revoke w did).
  - unfold deactivateSession. rewrite caught_fetch.
    unfold clear_identity, removeItem, modify, ret, newSessionId, set_sessionId, modify.
    destruct (has_window w); simpl;
      now destruct (generateSessionId _) as [[id rest]|].
  - unfold clear_identity, removeItem, modify, ret. now destruct (has_window w).
Qed.

(** C4.  [handleCallback] returns [null], and does not throw, when the
    provider's code exchange throws or yields no session.  When it yields a
    session whose round-tripped [state] does not parse, and the random source
    supplies the bytes of one identifier, [handleCallback] returns an
    enhanced session for the provider's subject whose [sessionId] is the
    identifier that [generateSessionId] then draws, a minted ["sess_"]
    identifier that also becomes the client's session id. *)
Theorem handleCallback_outcomes (w : World) (c : Client) :
  (match oauth_init w with
   | InitSession _ _ => False
   | _ => True
   end -> handleCallback w c = Val None c)
  /\ (forall s state id rest,
        oauth_init w = InitSession s (Some state) ->
        state <> [] ->
        JSON_parse_state w state = ParseFails ->
        generateSessionId (random c) = Some (id, rest) ->
        exists es c',
          handleCallback w c = Val (Some es) c'
          /\ sessionId es = id /\ es_sub es = sub s /\ session es = s
          /\ c_sessionId c' = id /\ random c' = rest
          /\ minted "sess_" id).
Proof.
  split.
  - unfold handleCallback, try_catch, ret, throw.
    destruct (oauth_init w); [reflexivity | reflexivity | contradiction].
  - intros s state id rest Hinit Hne Hparse Hgen.
    rewrite (handleCallback_session w s (Some state) c Hinit).
    assert (Hp : parsedState_sessionId w (Some state) = None).
    { unfold parsedState_sessionId. destruct state; [reflexivity|]. now rewrite Hparse. }
    rewrite Hp, Hgen. eexists _, _. split; [reflexivity|].
    repeat split. eapply generateSessionId_minted, Hgen.
Qed.

Lemma handleCallback_outcomes_witness :
  exists es c',
    handleCallback (example_world (Some (lit "{oops")) (Some example_profile) true true)
                   example_client = Val (Some es) c'
    /\ sessionId es = lit "sess_910az23456789bcdefghi"
    /\ es_sub es = example_did.
Proof.
  destruct (handleCallback_outcomes
              (example_world (Some (lit "{oops")) (Some example_profile) true true)
              example_client) as [_ H].
  destruct (H example_session (lit "{oops") (lit "sess_910az23456789bcdefghi") [77%N])
    as (es & c' & Hrun & Hid & Hsub & _).
  - reflexivity.
  - discriminate.
  - reflexivity.
  - reflexivity.
  - exists es, c'. auto.
Defined.

(** C10.  In every enhanced session that [handleCallback] or
    [restoreSession] returns, [handle] is the [displayName] of the fetched
    profile when the lookup succeeded and the profile has one, and the
    session's subject DID otherwise; the account handle of the profile is not
    read: replacing it changes nothing in what the two functions do.  And
    the two functions do return such a session: [handleCallback] whenever the
    provider's [init] yields a session and the state carries a session id or
    the generator returns one, [restoreSession] whenever the provider's
    [restore] yields a session and the instance has a session id or the
    generator returns one; the session is for the provider's subject. *)
Theorem enhanced_session_handle (w : World) (did : jsstring) (c : Client) :
  (forall es c', handleCallback w c = Val (Some es) c' ->
     handle es = Some (handle_of (getProfile w (es_sub es)) (es_sub es)))
  /\ (forall es c', restoreSession w did c = Val (Some es) c' ->
        handle es = Some (handle_of (getProfile w (es_sub es)) (es_sub es)))
  /\ (forall f,
        handleCallback (with_account_handles f w) c = handleCallback w c
        /\ restoreSession (with_account_handles f w) did c = restoreSession w did c)
  /\ (forall s state,
        oauth_init w = InitSession s state ->
        is_Some (parsedState_sessionId w state)
        \/ is_Some (generateSessionId (random c)) ->
        exists es c',
          handleCallback w c = Val (Some es) c'
          /\ session es = s /\ es_sub es = sub s
          /\ handle es = Some (handle_of (getProfile w (sub s)) (sub s)))
  /\ (forall s,
        oauth_restore w did = Some (Some s) ->
        c_sessionId c <> [] \/ is_Some (generateSessionId (random c)) ->
        exists es c',
          restoreSession w did c = Val (Some es) c'
          /\ session es = s /\ es_sub es = sub s
          /\ handle es = Some (handle_of (getProfile w (sub s)) (sub s))).
Proof.
  assert (Hes : forall f s c0,
             enhanced_session (with_account_handles f w) s c0 = enhanced_session w s c0).
  { intros f s c0. unfold enhanced_session, with_account_handles, handle_of. simpl.
    now destruct (getProfile w (sub s)). }
  split; [|split; [|split; [|split]]].
  - intros es c'. destruct (oauth_init w) as [| |s state] eqn:Hinit.
    + unfold handleCallback, try_catch, throw, ret. rewrite Hinit. discriminate.
    + unfold handleCallback, try_catch, throw, ret. rewrite Hinit. discriminate.
    + rewrite (handleCallback_session w s state c Hinit).
      destruct (parsedState_sessionId w state) as [sid|].
      * intros [= <- _]. reflexivity.
      * destruct (generateSessionId (random c)) as [[id rest]|]; [|discriminate].
        intros [= <- _]. reflexivity.
  - intros es c'. destruct (oauth_restore w did) as [[s|]|] eqn:Hres.
    + rewrite (restoreSession_session w did s c Hres).
      destruct (c_sessionId c).
      * destruct (generateSessionId (random c)) as [[id rest]|]; [|discriminate].
        intros [= <- _]. reflexivity.
      * intros [= <- _]. reflexivity.
    + unfold restoreSession, try_catch, throw, ret. rewrite Hres. discriminate.
    + unfold restoreSession, try_catch, throw, ret. rewrite Hres. discriminate.
  - intros f. split.
    + destruct (oauth_init w) as [| |s state] eqn:Hinit.
      * unfold handleCallback. simpl. now rewrite Hinit.
      * unfold handleCallback. simpl. now rewrite Hinit.
      * rewrite (handleCallback_session w s state c Hinit).
        rewrite (handleCallback_session (with_account_handles f w) s state c Hinit).
        change (parsedState_sessionId (with_account_handles f w) state)
          with (parsedState_sessionId w state).
        destruct (parsedState_sessionId w state);
          [|destruct (generateSessionId (random c)) as [[id rest]|]];
          simpl; now rewrite ?Hes.
    + destruct (oauth_restore w did) as [[s|]|] eqn:Hres.
      * rewrite (restoreSession_session w did s c Hres).
        rewrite (restoreSession_session (with_account_handles f w) did s c Hres).
        destruct (c_sessionId c);
          [destruct (generateSessionId (random c)) as [[id rest]|]|];
          simpl; now rewrite ?Hes.
      * unfold restoreSession. simpl. now rewrite Hres.
      * unfold restoreSession. simpl. now rewrite Hres.
  - intros s state Hinit Hid.
    rewrite (handleCallback_session w s state c Hinit).
    destruct (parsedState_sessionId w state) as [sid|].
    + eexists _, _. split; [reflexivity|]. repeat split.
    + destruct Hid as [[x Hx] | [[id rest] Hg]]; [discriminate|].
      rewrite Hg. eexists _, _. split; [reflexivity|]. repeat split.
  - intros s Hres Hid.
    rewrite (restoreSession_session w did s c Hres).
    destruct (c_sessionId c) as [|x sid].
    + destruct Hid as [Hne | [[id rest] Hg]]; [congruence|].
      rewrite Hg. eexists _, _. split; [reflexivity|]. repeat split.
    + eexists _, _. split; [reflexivity|]. repeat split.
Qed.


Lemma enhanced_session_handle_witness :
  (exists es c',
      handleCallback (example_world None (Some example_profile) true true) example_client
      = Val (Some es) c'
      /\ handle es = Some (lit "Alice"))
  /\ (exists es c',
         restoreSession (example_world None (Some example_profile) true true)
                        example_did example_client
         = Val (Some es) c'
         /\ handle es = Some (lit "Alice"))
  /\ (exists es c',
         restoreSession (example_world None None true true) example_did example_client
         = Val (Some es) c'
         /\ handle es = Some example_did).
Proof.
  destruct (enhanced_session_handle
              (example_world None (Some example_profile) true true)
              example_did example_client) as (_ & _ & _ & Hcb & Hrs).
  destruct (enhanced_session_handle
              (example_world None None true true)
              example_did example_client) as (_ & _ & _ & _ & Hrs').
  split; [|split].
  - destruct (Hcb example_session None eq_refl) as (es & c' & Hrun & _ & _ & Hh).
    + right. eexists. vm_compute. reflexivity.
    + exists es, c'. split; [exact Hrun|]. rewrite Hh. reflexivity.
  - destruct (Hrs example_session eq_refl) as (es & c' & Hrun & _ & _ & Hh).
    + left. discriminate.
    + exists es, c'. split; [exact Hrun|]. rewrite Hh. reflexivity.
  - destruct (Hrs' example_session eq_refl) as (es & c' & Hrun & _ & _ & Hh).
    + left. discriminate.
    + exists es, c'. split; [exact Hrun|]. rewrite Hh. reflexivity.
Defined.

Lemma removed_cleared c : identity_cleared (removed CURRENT_DID c).
Proof. unfold identity_cleared, removed. simpl. apply lookup_delete_eq. Qed.

(** C5 (as amended).  In a browser, every [signOut] that returns has
    attempted the revocation and leaves the local identity cleared, also when
    the revocation fails.  When the revocation succeeds, the deactivation
    request is sent for the current session id, the local identity is
    cleared and a freshly generated session id replaces the current one,
    whether or not the deactivation request fails. *)
Theorem signOut_clears_identity (w : World) (did : jsstring) (c : Client) :
  has_window w = true ->
  (oauth_revoke w did = false ->
   exists c', signOut w did c = Val tt c'
              /\ identity_cleared c'
              /\ CalledRevoke did ∈ trace c')
  /\ (oauth_revoke w did = true ->
      forall id rest,
        generateSessionId (random c) = Some (id, rest) ->
        exists c', signOut w did c = Val tt c'
                   /\ identity_cleared c'
                   /\ trace c' = trace c ++ [CalledRevoke did;
                                             CalledFetch ApiDeactivate (c_sessionId c);
                                             CalledRemoveItem CURRENT_DID]
                   /\ c_sessionId c' = id
                   /\ minted "sess_" id).
Proof.
  intros Hwin. rewrite signOut_run, Hwin. split.
  - intros ->. eexists. split; [reflexivity|]. split; [apply removed_cleared|].
    simpl. apply elem_of_app. left. apply elem_of_app. right. apply list_elem_of_singleton.
    reflexivity.
  - intros -> id rest Hgen. simpl. rewrite Hgen.
    eexists. split; [reflexivity|]. split; [apply lookup_delete_eq|].
    split; [simpl; now rewrite <- !app_assoc|].
    split; [reflexivity|]. eapply generateSessionId_minted, Hgen.
Qed.

Lemma signOut_clears_identity_witness :
  exists c',
    signOut (example_world None None true false) example_did example_client = Val tt c'
    /\ identity_cleared c'
    /\ c_sessionId c' = lit "sess_910az23456789bcdefghi".
Proof.
  destruct (signOut_clears_identity (example_world None None true false)
              example_did example_client eq_refl) as [_ H].
  destruct (H eq_refl (lit "sess_910az23456789bcdefghi") [77%N] eq_refl)
    as (c' & Hrun & Hclear & _ & Hid & _).
  exists c'. auto.
Defined.

(** C5 (as stated) fails: when the revocation throws, control passes to the
    [catch] block; the deactivation request is never sent and the session id
    is not replaced. *)
Lemma signOut_revoke_failure_skips_deactivation :
  ~ signOut_independent (example_world None None false true) example_did example_client.
Proof.
  intros (c' & Hrun & _ & Hfetch & _).
  rewrite signOut_run in Hrun. unfold example_world in Hrun.
  cbn [oauth_revoke has_window] in Hrun. injection Hrun as <-.
  cbn [trace removed emitted example_client app] in Hfetch.
  apply elem_of_cons in Hfetch as [Hfetch | Hfetch]; [discriminate|].
  apply elem_of_cons in Hfetch as [Hfetch | Hfetch]; [discriminate|].
  now apply elem_of_nil in Hfetch.
Qed.

End ClientFacts.

(** ** Endpoints *)

Module EndpointFacts.

Import Sanitize RateLimit Server Examples ServerFacts.

(** Unfolds the statements and the control flow of a handler. *)
Ltac run_handler :=
  unfold sync_persist, update_sessions, upsert_user, upsert_session, log_op,
    set_users, set_userSessions, set_rateLimiter, request_json, zod_parse;
  unfold try_catch, bind, modify, get, ret, throw.

(** *** Which session ids reach the database *)

(** The activity route sends nothing to the database for a session id that
    does not match the pattern. *)
Lemma activity_checks_session_id env (req : Request ActivityBody) st b sid :
  json req = Some b -> a_sessionId b = IsString sid ->
  session_id_pattern sid = false ->
  exists r, activity_POST env req st = Val r st /\ status r = 400%nat.
Proof.
  intros J S P. unfold activity_POST, try_catch, bind, request_json, zod_parse.
  destruct (is_json_content req); simpl; [|eauto].
  rewrite J. simpl.
  assert (Hs : activitySchema env b = None).
  { unfold activitySchema. rewrite S. simpl.
    unfold session_id_pattern in P.
    destruct (min_len 1 sid); simpl; [|reflexivity].
    rewrite andb_comm. now rewrite P. }
  rewrite Hs. simpl. eauto.
Qed.

(** The route with input validation sends nothing to the database for a
    session id that is not ["sess_"]-prefixed, has a character outside
    [[a-zA-Z0-9_-]] or is longer than 128; it lets ["sess_"] alone through. *)
Lemma sync_hardened_checks_session_id env (req : Request SyncBody) st b sid :
  json req = Some b -> b_sessionId b = IsString sid ->
  startsWith sid (lit "sess_") && all_plus token_char sid && max_len 128 sid = false ->
  exists r st',
    sync_POST_hardened env req st = Val r st'
    /\ db_log st' = db_log st /\ users st' = users st
    /\ userSessions st' = userSessions st
    /\ (status r = 400%nat \/ status r = 429%nat).
Proof.
  intros J S P.
  unfold sync_POST_hardened, try_catch, bind, get, set_rateLimiter, modify,
    request_json, zod_parse.
  destruct (applyRateLimit _ _ _ _) as [res store]. simpl.
  destruct (allowed res); simpl; [|eauto 10].
  destruct (is_json_content req); simpl; [|eauto 10].
  rewrite J. simpl.
  destruct (syncSchema_hardened env b) as [data|] eqn:E; simpl; [|eauto 10].
  apply syncSchema_hardened_fields in E as (_ & _ & Hsid & Hchk).
  rewrite S in Hsid. injection Hsid as ->.
  apply andb_true_iff in Hchk as [Hchk H3]. apply andb_true_iff in Hchk as [_ H2].
  rewrite H2, H3 in P. rewrite !andb_true_r in P. rewrite P. simpl.
  unfold ret. eauto 10.
Qed.

Lemma sync_hardened_accepts_bare_prefix :
  session_id_pattern (lit "sess_") = false
  /\ db_log (state_after
               (sync_POST_hardened (example_env 1000)
                  (mkRequest SyncBody None None (Some (lit "application/json"))
                     (Some (mkSyncBody (IsString example_did)
                              (IsString (lit "alice.example")) Absent Absent Absent
                              Absent (IsString (lit "sess_"))
                              (IsString example_deviceId) MetaAbsent))))
               empty_state)
     = [InsertUsers example_did].
Proof. split; vm_compute; reflexivity. Qed.

(** The first version of the synchronization route has no check either. *)
Lemma sync_plain_reaches_database env xff xri ct (b : SyncBody) data st :
  syncSchema b = Some data ->
  exists r st',
    sync_POST env (mkRequest SyncBody xff xri ct (Some b)) st = Val r st'
    /\ exists rest, db_log st' = db_log st ++ InsertUsers (did data) :: rest.
Proof.
  intros S. unfold sync_POST, try_catch, bind, request_json, zod_parse. simpl.
  rewrite S. simpl. rewrite sync_persist_run.
  eexists _, _. split; [reflexivity|]. simpl. eauto.
Qed.

(** C3 (the code at the failing input).  The deactivation route accepts any
    string as [sessionId]: for ["not-a-session"], which does not match the
    session-id pattern, it sends the [UPDATE] to the database, and so it does
    for every other string. *)
Theorem deactivate_skips_session_id_check :
  session_id_pattern (lit "not-a-session") = false
  /\ forall env st xff xri ct sid,
       exists r st',
         deactivate_POST env
           (mkRequest DeactivateBody xff xri ct
              (Some (mkDeactivateBody (IsString sid)))) st = Val r st'
         /\ db_log st' = db_log st ++ [UpdateUserSessions sid].
Proof.
  split; [reflexivity|]. intros env st xff xri ct sid.
  unfold deactivate_POST. run_handler. simpl.
  destruct (sessions_stmt_ok env); simpl; [|eauto].
  destruct (update_where (same_sessionId sid) (deactivate_set env) (userSessions st))
    as [hit table]. simpl.
  destruct (head (map s_id hit)); simpl; eauto.
Qed.

(** *** A session record that does not exist *)

Import Client Spec ClientFacts.

(** C8.  For a session id with no [userSessions] row and a database that
    executes the statement: a well-formed activity request is answered with
    status 200, [success: true] and the warning ["Session not found"]; a
    deactivation request is answered with status 404 and the error
    ["Session not found"], where a failing statement gives status 500; no
    table changes; and the client's [updateSessionActivity] and
    [deactivateSession] make their one request and return normally, whatever
    the endpoint answers and also when the request itself fails. *)
Theorem missing_session_not_an_error (env : Env) (st : State) (sid : jsstring) :
  sessions_stmt_ok env = true ->
  rows_for_session sid st = [] ->
  (forall (req : Request ActivityBody) ts t,
      is_json_content req = true ->
      json req = Some (mkActivityBody (IsString sid) (IsString ts)) ->
      session_id_pattern sid = true ->
      datetime env ts = Some t ->
      exists st',
        activity_POST env req st
        = Val (mkResponse 200 (Success None (Some (lit "Session not found")))) st'
        /\ users st' = users st /\ userSessions st' = userSessions st)
  /\ (forall (req : Request DeactivateBody),
        json req = Some (mkDeactivateBody (IsString sid)) ->
        (exists st',
            deactivate_POST env req st
            = Val (mkResponse 404 (Failure (lit "Session not found"))) st'
            /\ users st' = users st /\ userSessions st' = userSessions st)
        /\ forall env', sessions_stmt_ok env' = false ->
             exists st',
               deactivate_POST env' req st
               = Val (mkResponse 500 (Failure (lit "Failed to deactivate session"))) st')
  /\ (forall w es c,
        exists c', updateSessionActivity w es c = Val tt c'
                   /\ made_calls c c' [CalledFetch ApiActivity (sessionId es)])
  /\ (forall w x c,
        exists c', deactivateSession w x c = Val tt c'
                   /\ made_calls c c' [CalledFetch ApiDeactivate x]).
Proof.
  intros Hok Hnone. unfold rows_for_session in Hnone.
  split; [|split; [|split]].
  - intros req ts t Hct J P D.
    unfold activity_POST, try_catch, bind, request_json, zod_parse.
    rewrite Hct, J. simpl.
    assert (Hs : activitySchema env (mkActivityBody (IsString sid) (IsString ts))
                 = Some (sid, t)).
    { unfold activitySchema. simpl.
      unfold session_id_pattern in P. apply andb_true_iff in P as [P1 P2].
      assert (Hmin : min_len 1 sid = true).
      { unfold re_session in P1. destruct sid as [|a sid']; [discriminate|reflexivity]. }
      rewrite Hmin, P1, P2. simpl.
      rewrite bool_decide_eq_true_2 by (rewrite D; eauto). now rewrite D. }
    rewrite Hs. simpl.
    run_handler. simpl. rewrite Hok. simpl.
    rewrite (update_where_none _ _ _ Hnone). simpl. eauto.
  - intros req J. split.
    + unfold deactivate_POST. run_handler.
      rewrite J. simpl. rewrite Hok. simpl.
      rewrite (update_where_none _ _ _ Hnone). simpl. eauto.
    + intros env' Hfail.
      unfold deactivate_POST. run_handler.
      rewrite J. simpl. rewrite Hfail. simpl. eauto.
  - intros w es c. unfold updateSessionActivity. rewrite caught_fetch.
    eexists. split; [reflexivity|]. repeat split.
  - intros w x c. unfold deactivateSession. rewrite caught_fetch.
    eexists. split; [reflexivity|]. repeat split.
Qed.

Lemma missing_session_not_an_error_witness :
  (exists st',
      activity_POST (example_env 1000) (example_activity_request example_sessionId)
                    empty_state
      = Val (mkResponse 200 (Success None (Some (lit "Session not found")))) st')
  /\ (exists st',
         deactivate_POST (example_env 1000) (example_deactivate_request example_sessionId)
                         empty_state
         = Val (mkResponse 404 (Failure (lit "Session not found"))) st').
Proof.
  destruct (missing_session_not_an_error (example_env 1000) empty_state
              example_sessionId eq_refl eq_refl) as (Ha & Hd & _).
  split.
  - destruct (Ha (example_activity_request example_sessionId)
                 (lit "2025-01-01T00:00:00Z") 1000 eq_refl eq_refl eq_refl eq_refl)
      as (st' & H & _).
    now exists st'.
  - destruct (Hd (example_deactivate_request example_sessionId) eq_refl)
      as [(st' & H & _) _].
    now exists st'.
Defined.

End EndpointFacts.

(** ** Escaping and the sanitizers, further *)

Module HtmlFacts.

Import Html SanitizeFacts.

Lemma replaceAll_app c rep s t :
  replaceAll c rep (s ++ t) = replaceAll c rep s ++ replaceAll c rep t.
Proof. unfold replaceAll. apply flat_map_app. Qed.

Lemma replaceAll_absent c rep s :
  Forall (fun x => Ascii.eqb x c = false) s -> replaceAll c rep s = s.
Proof.
  unfold replaceAll. induction 1 as [|x s Hx _ IH]; simpl; [reflexivity|].
  now rewrite Hx, IH.
Qed.

Lemma entity_clean c : Forall (fun x => special x = false) (entity c).
Proof.
  unfold entity.
  destruct (Ascii.eqb c LT) eqn:E1; [repeat constructor|].
  destruct (Ascii.eqb c GT) eqn:E2; [repeat constructor|].
  destruct (Ascii.eqb c QUOT) eqn:E3; [repeat constructor|].
  destruct (Ascii.eqb c APOS) eqn:E4; [repeat constructor|].
  destruct (Ascii.eqb c SLASH) eqn:E5; [repeat constructor|].
  constructor; [|constructor]. unfold special. now rewrite E1, E2, E3, E4, E5.
Qed.

Lemma sanitizeHtml_char c : sanitizeHtml [c] = entity c.
Proof. ascii_cases c; reflexivity. Qed.

Lemma sanitizeHtml_app s t : sanitizeHtml (s ++ t) = sanitizeHtml s ++ sanitizeHtml t.
Proof. unfold sanitizeHtml. now rewrite !replaceAll_app. Qed.

(** The five passes amount to one pass that writes the entity of each
    character. *)
Lemma sanitizeHtml_flat_map s : sanitizeHtml s = flat_map entity s.
Proof.
  induction s as [|c s IH]; [reflexivity|].
  change (c :: s) with ([c] ++ s).
  rewrite sanitizeHtml_app, sanitizeHtml_char, IH. reflexivity.
Qed.

Lemma entity_fixed c : special c = false -> entity c = [c].
Proof.
  unfold special, entity. intros H.
  repeat (apply orb_false_iff in H as [H ?]).
  now repeat match goal with E : Ascii.eqb _ _ = false |- _ => rewrite E; clear E end.
Qed.

Lemma sanitizeHtml_no_special s : Forall (fun c => special c = false) (sanitizeHtml s).
Proof.
  rewrite sanitizeHtml_flat_map. induction s as [|c s IH]; simpl; [constructor|].
  apply Forall_app. split; [apply entity_clean | exact IH].
Qed.

(** X1.  [sanitizeHtml] replaces each of the characters less-than,
    greater-than, double quote, apostrophe and slash by its entity and keeps
    every other character: the five passes do not interfere, the result is
    the concatenation of the entities of the characters of the input, it
    contains none of the five characters, and it is never shorter than the
    input. *)
Theorem sanitizeHtml_escapes (s t : jsstring) :
  sanitizeHtml s = flat_map entity s
  /\ sanitizeHtml (s ++ t) = sanitizeHtml s ++ sanitizeHtml t
  /\ Forall (fun c => special c = false) (sanitizeHtml s)
  /\ (length s <= length (sanitizeHtml s))%nat.
Proof.
  split; [apply sanitizeHtml_flat_map|]. split; [apply sanitizeHtml_app|].
  split; [apply sanitizeHtml_no_special|].
  rewrite sanitizeHtml_flat_map.
  - induction s as [|c s IH]; simpl; [lia|].
    rewrite length_app.
    assert (1 <= length (entity c))%nat; [|lia].
    ascii_cases c; vm_compute; lia.
Qed.

Lemma sanitizeHtml_clean s :
  Forall (fun c => special c = false) s -> sanitizeHtml s = s.
Proof.
  rewrite sanitizeHtml_flat_map.
  induction 1 as [|c s Hc _ IH]; simpl; [reflexivity|].
  now rewrite (entity_fixed c Hc), IH.
Qed.

(** X2.  [sanitizeHtml] is idempotent, and it returns its input unchanged
    exactly when the input has none of the five characters.  The ampersand is
    not escaped, so text that already is an entity is kept as it is. *)
Theorem sanitizeHtml_idempotent (s : jsstring) :
  sanitizeHtml (sanitizeHtml s) = sanitizeHtml s
  /\ (sanitizeHtml s = s <-> Forall (fun c => special c = false) s)
  /\ sanitizeHtml (entity "060"%char ++ s) = sanitizeHtml ("060"%char :: s).
Proof.
  split; [|split].
  - apply sanitizeHtml_clean, sanitizeHtml_no_special.
  - split; [|apply sanitizeHtml_clean].
    intros H. rewrite <- H. apply sanitizeHtml_no_special.
  - change ("060"%char :: s) with (["060"%char] ++ s).
    rewrite !sanitizeHtml_app. reflexivity.
Qed.


End HtmlFacts.

Module SanitizeMore.

Import Sanitize Spec SanitizeFacts.

Lemma is_space_lower c : is_space (lower_char c) = is_space c.
Proof. ascii_cases c; reflexivity. Qed.

Lemma trimStart_lower s : trimStart (toLowerCase s) = toLowerCase (trimStart s).
Proof.
  unfold toLowerCase. induction s as [|c s IH]; simpl; [reflexivity|].
  rewrite is_space_lower. now destruct (is_space c).
Qed.

Lemma trim_lower s : trim (toLowerCase s) = toLowerCase (trim s).
Proof.
  unfold trim, trimEnd. rewrite trimStart_lower.
  unfold toLowerCase at 1. rewrite <- map_rev.
  change (map lower_char (rev (trimStart s))) with (toLowerCase (rev (trimStart s))).
  rewrite trimStart_lower. unfold toLowerCase. now rewrite map_rev.
Qed.

Lemma trimStart_padded pre s :
  Forall (fun c => is_space c = true) pre -> trimStart (pre ++ s) = trimStart s.
Proof. induction 1 as [|c pre Hc _ IH]; simpl; [reflexivity|]. now rewrite Hc. Qed.

Lemma trimStart_app_nonspace s t :
  trimStart s <> [] -> trimStart (s ++ t) = trimStart s ++ t.
Proof.
  induction s as [|c s IH]; simpl; [congruence|].
  destruct (is_space c); auto.
Qed.

Lemma trimStart_all_space s :
  Forall (fun c => is_space c = true) s -> trimStart s = [].
Proof. induction 1 as [|c s Hc _ IH]; simpl; [reflexivity|]. now rewrite Hc. Qed.

Lemma trimStart_empty_all_space s :
  trimStart s = [] -> Forall (fun c => is_space c = true) s.
Proof.
  induction s as [|c s IH]; simpl; [constructor|].
  destruct (is_space c) eqn:E; [|discriminate]. intros H. constructor; auto.
Qed.

(** White space around a string does not survive [trim]. *)
Lemma trim_padded pre s post :
  Forall (fun c => is_space c = true) pre ->
  Forall (fun c => is_space c = true) post ->
  trim (pre ++ s ++ post) = trim s.
Proof.
  intros Hpre Hpost. unfold trim. rewrite (trimStart_padded pre) by assumption.
  unfold trimEnd. destruct (trimStart s) as [|c r] eqn:E.
  - apply trimStart_empty_all_space in E.
    rewrite (trimStart_padded s) by assumption.
    assert (Hp : trimStart post = []) by now apply trimStart_all_space.
    rewrite Hp. reflexivity.
  - rewrite trimStart_app_nonspace by congruence. rewrite E.
    rewrite rev_app_distr. rewrite (trimStart_padded (rev post)); [reflexivity|].
    apply Forall_forall. intros x Hx. rewrite Forall_forall in Hpost. apply Hpost.
    apply list_elem_of_In. apply in_rev. now apply list_elem_of_In.
Qed.

Lemma lower_class_did c :
  lower_alnum c || is_code 46 c || is_code 95 c || is_code 45 c = true ->
  did_char c = true.
Proof. ascii_cases c; vm_compute; congruence. Qed.

Lemma lower_class_handle c :
  lower_alnum c || is_code 46 c || is_code 45 c = true -> handle_char c = true.
Proof. ascii_cases c; vm_compute; congruence. Qed.

Lemma did_contract_re y : did_contract y -> re_did y = true /\ (length y <= 500)%nat.
Proof.
  intros (m & id & -> & Hm & Hne & Hall & Hlen). split; [|assumption].
  assert (Hp : all_plus did_char id = true).
  { apply all_plus_Forall. split; [assumption|].
    eapply Forall_impl; [exact Hall|]. apply lower_class_did. }
  unfold re_did. rewrite strip_prefix_of_app.
  destruct Hm as [-> | ->].
  - change (lit "plc" ++ lit ":" ++ id) with (lit "plc:" ++ id).
    now rewrite strip_prefix_of_app.
  - change (lit "web" ++ lit ":" ++ id) with (lit "web:" ++ id).
    change (strip_prefix (lit "plc:") (lit "web:" ++ id)) with (@None jsstring).
    cbv beta iota. now rewrite strip_prefix_of_app.
Qed.

Lemma handle_contract_re y :
  handle_contract y -> re_handle y = true /\ (length y <= 253)%nat.
Proof.
  intros (Hne & Hall & Hlen). split; [|assumption].
  apply all_plus_Forall. split; [assumption|].
  eapply Forall_impl; [exact Hall|]. apply lower_class_handle.
Qed.

(** X3.  [sanitizeDid] and [sanitizeHandle] accept exactly the inputs whose
    trimmed, lower-cased form is a well-formed DID (handle), and then return
    that form; every other input is rejected. *)
Theorem sanitizeDid_sanitizeHandle_accept_exactly (x : jsstring) :
  (sanitizeDid x = Some (toLowerCase (trim x)) /\ did_contract (toLowerCase (trim x))
   \/ sanitizeDid x = None /\ ~ did_contract (toLowerCase (trim x)))
  /\ (sanitizeHandle x = Some (toLowerCase (trim x))
      /\ handle_contract (toLowerCase (trim x))
      \/ sanitizeHandle x = None /\ ~ handle_contract (toLowerCase (trim x))).
Proof.
  split.
  - destruct (sanitizeDid x) as [y|] eqn:E.
    + left. pose proof (sanitizeDid_contract _ _ E) as Hc.
      apply sanitizeDid_Some in E as (-> & _). auto.
    + right. split; [reflexivity|]. intros Hc. apply did_contract_re in Hc as [Hre Hlen].
      assert (sanitizeDid x = Some (toLowerCase (trim x)))
        by (apply sanitizeDid_Some; auto).
      congruence.
  - destruct (sanitizeHandle x) as [y|] eqn:E.
    + left. pose proof (sanitizeHandle_contract _ _ E) as Hc.
      apply sanitizeHandle_Some in E as (-> & _). auto.
    + right. split; [reflexivity|]. intros Hc.
      apply handle_contract_re in Hc as [Hre Hlen].
      assert (sanitizeHandle x = Some (toLowerCase (trim x)))
        by (apply sanitizeHandle_Some; auto).
      congruence.
Qed.

Lemma sanitizeDid_depends x x' :
  toLowerCase (trim x) = toLowerCase (trim x') -> sanitizeDid x = sanitizeDid x'.
Proof. unfold sanitizeDid. now intros ->. Qed.

Lemma sanitizeHandle_depends x x' :
  toLowerCase (trim x) = toLowerCase (trim x') -> sanitizeHandle x = sanitizeHandle x'.
Proof. unfold sanitizeHandle. now intros ->. Qed.

(** X4.  White space around the input never changes what a sanitizer
    returns, and [sanitizeDid] and [sanitizeHandle] return the same for two
    inputs that differ only in the case of their letters. *)
Theorem sanitizers_ignore_padding_and_case (pre post x x' : jsstring) :
  Forall (fun c => is_space c = true) pre ->
  Forall (fun c => is_space c = true) post ->
  (sanitizeText (pre ++ x ++ post) = sanitizeText x
   /\ sanitizeDid (pre ++ x ++ post) = sanitizeDid x
   /\ sanitizeHandle (pre ++ x ++ post) = sanitizeHandle x
   /\ sanitizeSessionId (pre ++ x ++ post) = sanitizeSessionId x
   /\ sanitizeDeviceId (pre ++ x ++ post) = sanitizeDeviceId x)
  /\ (toLowerCase x = toLowerCase x' ->
      sanitizeDid x = sanitizeDid x' /\ sanitizeHandle x = sanitizeHandle x').
Proof.
  intros Hpre Hpost.
  pose proof (trim_padded pre x post Hpre Hpost) as Ht. split.
  - unfold sanitizeText, sanitizeSessionId, sanitizeDeviceId. rewrite Ht.
    repeat split.
    + apply sanitizeDid_depends. now rewrite Ht.
    + apply sanitizeHandle_depends. now rewrite Ht.
  - intros Hl.
    assert (toLowerCase (trim x) = toLowerCase (trim x'))
      by now rewrite <- !trim_lower, Hl.
    split; [now apply sanitizeDid_depends | now apply sanitizeHandle_depends].
Qed.

Lemma sanitizers_ignore_padding_and_case_witness :
  sanitizeDid (lit "  did:plc:abc ") = sanitizeDid (lit "did:plc:abc")
  /\ sanitizeHandle (lit "Alice.Example") = sanitizeHandle (lit "alice.EXAMPLE").
Proof.
  split.
  - apply (sanitizers_ignore_padding_and_case (lit "  ") (lit " ")
             (lit "did:plc:abc") (lit "did:plc:abc")); repeat constructor.
  - apply (sanitizers_ignore_padding_and_case [] []
             (lit "Alice.Example") (lit "alice.EXAMPLE")); [constructor..|reflexivity].
Defined.

Lemma collapse_from_length b s : (length (collapse_from b s) <= length s)%nat.
Proof.
  revert b. induction s as [|c s IH]; intros b; simpl; [lia|].
  pose proof (IH true). pose proof (IH false).
  destruct (is_space c); [destruct b|]; simpl; lia.
Qed.

Lemma strip_control_length s : (length (strip_control s) <= length s)%nat.
Proof.
  unfold strip_control. induction s as [|c s IH]; simpl; [lia|].
  destruct (negb (is_control c)); simpl; lia.
Qed.

Lemma trim_all_space s : Forall (fun c => is_space c = true) s -> trim s = [].
Proof. intros H. unfold trim. now rewrite trimStart_all_space. Qed.

(** X5.  [sanitizeText] never returns more characters than it was given, it
    returns the empty string for an input of white space only, and it returns
    unchanged any text that is already clean: at most 10000 characters, no
    control character, single spaces only, and none at either end. *)
Theorem sanitizeText_edges (x : jsstring) :
  (length (sanitizeText x) <= length x)%nat
  /\ (Forall (fun c => is_space c = true) x -> sanitizeText x = [])
  /\ (text_contract x = true -> trimmed x = true -> sanitizeText x = x).
Proof.
  split; [|split].
  - unfold sanitizeText, substring0, collapse_ws. rewrite length_take.
    pose proof (collapse_from_length false (strip_control (trim x))).
    pose proof (strip_control_length (trim x)). pose proof (trim_length x). lia.
  - intros H. unfold sanitizeText. now rewrite trim_all_space.
  - intros Hc Ht. rewrite sanitizeText_of_contract by assumption.
    now apply trim_of_trimmed.
Qed.

Lemma sanitizeText_edges_witness :
  sanitizeText (lit "   ") = [] /\ sanitizeText (lit "a b") = lit "a b".
Proof.
  destruct (sanitizeText_edges (lit "   ")) as (_ & H1 & _).
  destruct (sanitizeText_edges (lit "a b")) as (_ & _ & H2).
  split; [apply H1; repeat constructor | apply H2; reflexivity].
Defined.

End SanitizeMore.

(** ** Validators *)

Module ValidatorFacts.

Import Sanitize Validators SanitizeFacts.

Lemma span_spec cls s :
  s = (span cls s).1 ++ (span cls s).2
  /\ Forall (fun c => cls c = true) (span cls s).1
  /\ match (span cls s).2 with
     | [] => True
     | c :: _ => cls c = false
     end.
Proof.
  induction s as [|c s (IH1 & IH2 & IH3)]; simpl; [repeat split; constructor|].
  destruct (cls c) eqn:E.
  - destruct (span cls s) as [p q]. simpl in *. repeat split; auto.
    now f_equal.
  - simpl. repeat split; auto.
Qed.

Lemma span_app cls p q :
  Forall (fun c => cls c = true) p ->
  match q with [] => True | c :: _ => cls c = false end ->
  span cls (p ++ q) = (p, q).
Proof.
  intros Hp Hq. induction Hp as [|c p Hc _ IH]; simpl.
  - destruct q as [|c q]; simpl; [reflexivity|]. now rewrite Hq.
  - now rewrite Hc, IH.
Qed.

Lemma Forall_rev_iff {A} (P : A -> Prop) (l : list A) : Forall P (rev l) <-> Forall P l.
Proof.
  rewrite !Forall_forall. split; intros H x Hx; apply H;
    apply list_elem_of_In; apply list_elem_of_In in Hx; [now apply in_rev in Hx | now apply in_rev].
Qed.

Lemma isValidHandle_sound h : isValidHandle h = true -> handle_regex h.
Proof.
  unfold isValidHandle, handle_regex.
  pose proof (span_spec is_letter (rev h)) as (Hs & Hl & _).
  destruct (span is_letter (rev h)) as [tld rest]. simpl in *.
  intros H. apply andb_true_iff in H as [Hlen H].
  destruct rest as [|dot label]; [discriminate|].
  apply andb_true_iff in H as [Hdot Hlabel].
  apply is_code_eq in Hdot. subst dot.
  apply all_plus_Forall in Hlabel as [Hne Hall].
  exists (rev label), (rev tld). split; [|split; [|split; [|split]]].
  - apply (f_equal (@rev ascii)) in Hs. rewrite rev_involutive in Hs.
    rewrite Hs, rev_app_distr. simpl. now rewrite <- app_assoc.
  - intros E. apply (f_equal (@rev ascii)) in E. rewrite rev_involutive in E.
    now apply Hne.
  - now apply Forall_rev_iff.
  - rewrite length_rev. now apply Nat.leb_le.
  - now apply Forall_rev_iff.
Qed.

Lemma isValidHandle_complete h : handle_regex h -> isValidHandle h = true.
Proof.
  unfold isValidHandle. intros (label & tld & -> & Hne & Hall & Hlen & Hl).
  rewrite !rev_app_distr. change (rev (lit ".")) with (lit ".").
  rewrite <- app_assoc. change (lit "." ++ rev label) with ("."%char :: rev label).
  rewrite span_app; [| now apply Forall_rev_iff | reflexivity].
  apply andb_true_iff. split; [rewrite length_rev; now apply Nat.leb_le|].
  apply andb_true_iff. split; [reflexivity|].
  apply all_plus_Forall. split.
  - intros E. apply (f_equal (@rev ascii)) in E. rewrite rev_involutive in E.
    now apply Hne.
  - now apply Forall_rev_iff.
Qed.

(** X6.  [isValidHandle] accepts exactly the strings that the regular
    expression describes: one or more characters of [[a-zA-Z0-9.-]], then a
    dot, then two or more letters up to the end. *)
Theorem isValidHandle_regex (h : jsstring) :
  isValidHandle h = true <-> handle_regex h.
Proof. split; [apply isValidHandle_sound | apply isValidHandle_complete]. Qed.

Lemma letter_handle_char c : is_letter c = true -> handle_char c = true.
Proof. ascii_cases c; vm_compute; congruence. Qed.

Lemma lower_handle_char c : handle_char c = true -> handle_char (lower_char c) = true.
Proof. ascii_cases c; vm_compute; congruence. Qed.

Lemma handle_regex_chars h :
  handle_regex h -> h <> [] /\ Forall (fun c => handle_char c = true) h.
Proof.
  intros (label & tld & -> & Hne & Hall & _ & Hl). split.
  - destruct label; [congruence | discriminate].
  - apply Forall_app. split; [assumption|]. apply Forall_app. split.
    + repeat constructor.
    + eapply Forall_impl; [exact Hl|]. apply letter_handle_char.
Qed.

(** X7.  A handle that [isValidHandle] accepts and that has at most 253
    characters is accepted by [sanitizeHandle], which returns it in lower
    case.  On a DID that [sanitizeDid] returned, [isValidDid] only asks for
    more than 10 characters: it rejects the shortest sanitized DIDs. *)
Theorem validators_and_sanitizers (h : jsstring) :
  (isValidHandle h = true -> (length h <= 253)%nat ->
   sanitizeHandle h = Some (toLowerCase h))
  /\ (forall x y, sanitizeDid x = Some y ->
        isValidDid y = (10 <? length y)%nat).
Proof.
  split.
  - intros Hv Hlen. apply isValidHandle_sound, handle_regex_chars in Hv as [Hne Hall].
    assert (Ht : trim h = h).
    { apply trim_nospace. eapply Forall_impl; [exact Hall|]. apply handle_char_nospace. }
    apply sanitizeHandle_Some. rewrite Ht. split; [reflexivity|]. split.
    + apply all_plus_Forall. split.
      * destruct h; [congruence | discriminate].
      * unfold toLowerCase. apply Forall_map.
        eapply Forall_impl; [exact Hall|]. apply lower_handle_char.
    + unfold toLowerCase. now rewrite length_map.
  - intros x y H. apply sanitizeDid_Some in H as (_ & Hre & _).
    apply re_did_shape in Hre as (m & id & -> & _).
    unfold isValidDid, startsWith. now rewrite strip_prefix_of_app.
Qed.

Lemma validators_and_sanitizers_witness :
  sanitizeHandle (lit "Alice.Example") = Some (lit "alice.example")
  /\ isValidDid (lit "did:plc:ab") = false.
Proof.
  destruct (validators_and_sanitizers (lit "Alice.Example")) as [H1 H2].
  split.
  - apply H1; [reflexivity | vm_compute; lia].
  - apply (H2 (lit " DID:PLC:ab ")). reflexivity.
Defined.

End ValidatorFacts.

(** ** The rate limiter, further *)

Module RateLimitMore.

Import RateLimit RateLimitFacts.

Lemma cleanup_lookup (now : Z) (store : gmap jsstring RateLimitEntry) (k : jsstring) :
  cleanup now store !! k
  = match store !! k with
    | Some e => if now >? resetTime e then None else Some e
    | None => None
    end.
Proof.
  unfold cleanup. destruct (store !! k) as [e|] eqn:E.
  - destruct (now >? resetTime e) eqn:G; order_hyps.
    + apply map_lookup_filter_None. right. intros e' He'. simpl.
      rewrite E in He'. injection He' as <-. intros H. apply H. lia.
    + apply map_lookup_filter_Some. split; [assumption|]. simpl. lia.
  - apply map_lookup_filter_None. now left.
Qed.

(** X8.  The sweep removes exactly the entries whose window is over and
    leaves the others as they are; and it is invisible to [check]: a call at
    the time of the sweep or later gets the same answer, and leaves the same
    entry for its key, with or without the sweep. *)
Theorem cleanup_transparent (now t : Z) (store : gmap jsstring RateLimitEntry)
    (key : jsstring) (limit windowMs : Z) :
  now <= t ->
  (forall k, cleanup now store !! k
             = match store !! k with
               | Some e => if now >? resetTime e then None else Some e
               | None => None
               end)
  /\ (check t (cleanup now store) key limit windowMs).1
     = (check t store key limit windowMs).1
  /\ (check t (cleanup now store) key limit windowMs).2 !! key
     = (check t store key limit windowMs).2 !! key.
Proof.
  intros Hle. split; [apply cleanup_lookup|].
  unfold check. rewrite cleanup_lookup.
  destruct (store !! key) as [e|] eqn:E; simpl.
  - destruct (now >? resetTime e) eqn:G.
    + destruct (t >? resetTime e) eqn:G'; order_hyps; [|lia]. simpl.
      now rewrite !lookup_insert_eq.
    + destruct (t >? resetTime e); simpl; [now rewrite !lookup_insert_eq|].
      destruct (count e >=? limit); simpl.
      * now rewrite cleanup_lookup, E, G.
      * now rewrite !lookup_insert_eq.
  - now rewrite !lookup_insert_eq.
Qed.

Lemma cleanup_transparent_witness :
  (check 70000 (cleanup 65000 {[ lit "a" := mkEntry 3 60000 ]}) (lit "a") 10 60000).1
  = (check 70000 {[ lit "a" := mkEntry 3 60000 ]} (lit "a") 10 60000).1.
Proof.
  apply (cleanup_transparent 65000 70000 {[ lit "a" := mkEntry 3 60000 ]}
           (lit "a") 10 60000). lia.
Defined.

(** X9.  Keys do not interfere: a call for one key leaves the entry of every
    other key as it is, and its answer depends on the entry of its own key
    only. *)
Theorem check_isolated (t : Z) (store store' : gmap jsstring RateLimitEntry)
    (key other : jsstring) (limit windowMs : Z) :
  (other <> key ->
   (check t store key limit windowMs).2 !! other = store !! other)
  /\ (store !! key = store' !! key ->
      (check t store key limit windowMs).1 = (check t store' key limit windowMs).1).
Proof.
  split.
  - intros Hne. unfold check.
    destruct (store !! key) as [e|]; simpl.
    + destruct (t >? resetTime e); simpl; [now rewrite lookup_insert_ne|].
      destruct (count e >=? limit); simpl; [reflexivity | now rewrite lookup_insert_ne].
    + now rewrite lookup_insert_ne.
  - intros H. unfold check. rewrite <- H.
    destruct (store !! key) as [e|]; simpl; [|reflexivity].
    destruct (t >? resetTime e); simpl; [reflexivity|].
    now destruct (count e >=? limit).
Qed.

Lemma check_isolated_witness :
  (check 5 {[ lit "b" := mkEntry 9 100 ]} (lit "a") 10 60000).2 !! lit "b"
  = Some (mkEntry 9 100).
Proof.
  destruct (check_isolated 5 {[ lit "b" := mkEntry 9 100 ]} ∅ (lit "a") (lit "b") 10 60000)
    as [H _].
  rewrite H; [reflexivity | discriminate].
Defined.

(** X10.  With a limit of at least 1, [remaining] is never negative; a denied
    call leaves the store as it is, so it neither counts nor moves the end of
    the window.  With a limit of 0 or less the call that opens a window is
    allowed all the same, and reports a negative [remaining]. *)
Theorem check_remaining_and_denial (t : Z) (store : gmap jsstring RateLimitEntry)
    (key : jsstring) (limit windowMs : Z) :
  (1 <= limit -> 0 <= remaining (check t store key limit windowMs).1)
  /\ (allowed (check t store key limit windowMs).1 = false ->
      (check t store key limit windowMs).2 = store)
  /\ (limit <= 0 -> store !! key = None ->
      allowed (check t store key limit windowMs).1 = true
      /\ remaining (check t store key limit windowMs).1 < 0).
Proof.
  unfold check. destruct (store !! key) as [e|]; simpl.
  - destruct (t >? resetTime e); simpl.
    + repeat split; try lia; discriminate.
    + destruct (count e >=? limit) eqn:G; order_hyps; simpl.
      * repeat split; try lia; discriminate.
      * repeat split; try lia; discriminate.
  - repeat split; try lia; discriminate.
Qed.

Lemma check_remaining_and_denial_witness :
  (check 0 ∅ (lit "a") 0 1000).1 = mkCheck true (-1) 1000
  /\ remaining (check 0 ∅ (lit "a") 0 1000).1 < 0.
Proof.
  split; [reflexivity|].
  apply (check_remaining_and_denial 0 ∅ (lit "a") 0 1000); [lia | reflexivity].
Defined.

End RateLimitMore.

(** ** The synchronization route, further *)

Module SyncFacts.

Import Sanitize RateLimit Server Gateway Examples RateLimitFacts ServerFacts EndpointFacts.

(** *** The routes, case by case *)

Lemma sync_persist_limiter env data st :
  match sync_persist env data st with
  | Val r st' => rateLimiter st' = rateLimiter st /\ status r = 200%nat
  | Exn _ st' => rateLimiter st' = rateLimiter st
  | Hang => False
  end.
Proof. now rewrite sync_persist_run. Qed.

(** One request to the route with validation: it is answered, the limiter
    has counted it, and the limiter alone decides on status 429. *)
Lemma sync_hardened_step env (req : Request SyncBody) st :
  exists r st',
    sync_POST_hardened env req st = Val r st'
    /\ rateLimiter st'
       = (check (date_now env) (rateLimiter st) (clientIP req) 10 60000).2
    /\ (allowed (check (date_now env) (rateLimiter st) (clientIP req) 10 60000).1 = false ->
        r = mkResponse 429
              (RateLimited
                 (cr_resetTime (check (date_now env) (rateLimiter st) (clientIP req) 10 60000).1)
                 (remaining (check (date_now env) (rateLimiter st) (clientIP req) 10 60000).1))
        /\ untouched st st')
    /\ (allowed (check (date_now env) (rateLimiter st) (clientIP req) 10 60000).1 = true ->
        status r <> 429%nat).
Proof.
  unfold sync_POST_hardened, applyRateLimit.
  change (limit AUTH_SYNC) with 10. change (windowMs AUTH_SYNC) with 60000.
  unfold bind at 1. unfold get at 1.
  destruct (check (date_now env) (rateLimiter st) (clientIP req) 10 60000) as [c store].
  unfold bind at 1. unfold set_rateLimiter, modify. simpl.
  destruct (allowed c); simpl.
  - unfold try_catch.
    destruct (is_json_content req); simpl;
      [|eexists _, _; split; [reflexivity|]; split; [reflexivity|]; split;
        [discriminate | intros _; discriminate]].
    unfold bind at 1. unfold request_json.
    destruct (json req) as [b|]; simpl;
      [|eexists _, _; split; [reflexivity|]; split; [reflexivity|]; split;
        [discriminate | intros _; discriminate]].
    unfold bind at 1. unfold zod_parse.
    destruct (syncSchema_hardened env b) as [data|]; simpl;
      [|eexists _, _; split; [reflexivity|]; split; [reflexivity|]; split;
        [discriminate | intros _; discriminate]].
    destruct (startsWith (sessionId data) (lit "sess_")); simpl;
      [|eexists _, _; split; [reflexivity|]; split; [reflexivity|]; split;
        [discriminate | intros _; discriminate]].
    match goal with
    | |- context [sync_persist env data ?s] =>
        pose proof (sync_persist_limiter env data s) as Hp;
        destruct (sync_persist env data s) as [r0 s0|e s0|]
    end.
    + destruct Hp as [Hl Hs]. eexists _, _. split; [reflexivity|].
      split; [exact Hl|]. split; [discriminate|]. intros _. rewrite Hs. discriminate.
    + destruct e; eexists _, _; (split; [reflexivity|]); (split; [exact Hp|]);
        (split; [discriminate | intros _; discriminate]).
    + contradiction.
  - eexists _, _. split; [reflexivity|]. split; [reflexivity|]. split.
    + intros _. split; [reflexivity|]. repeat split.
    + discriminate.
Qed.

Lemma serve_sync_checks (ip : jsstring) (requests : list (Env * Request SyncBody)) :
  forall st,
    Forall (fun er => clientIP er.2 = ip) requests ->
    length (serve_sync requests st).1 = length requests
    /\ forall i r c,
         (serve_sync requests st).1 !! i = Some r ->
         (check_many (map (fun er => date_now er.1) requests) (rateLimiter st)
                     ip 10 60000).1 !! i = Some c ->
         (allowed c = false ->
          r = mkResponse 429 (RateLimited (cr_resetTime c) (remaining c)))
         /\ (allowed c = true -> status r <> 429%nat).
Proof.
  induction requests as [|[env req] more IH]; intros st Hip; simpl.
  - split; [reflexivity|]. intros i r c. now rewrite lookup_nil.
  - apply Forall_cons in Hip as [Hreq Hip]. simpl in Hreq.
    destruct (sync_hardened_step env req st) as (r0 & st' & Hrun & Hl & Hdeny & Hallow).
    rewrite Hrun. rewrite Hreq in Hl, Hdeny, Hallow.
    destruct (check (date_now env) (rateLimiter st) ip 10 60000) as [c0 store] eqn:C.
    simpl in *. specialize (IH st' Hip). rewrite Hl in IH.
    destruct (serve_sync more st') as [rs st'']. simpl in *.
    destruct (check_many _ store ip 10 60000) as [cs store'']. simpl in *.
    destruct IH as [Hlen IH]. split; [lia|].
    intros [|i] r c; simpl.
    + intros [= <-] [= <-]. split; [|assumption]. intros H. now apply Hdeny.
    + apply IH.
Qed.

Lemma check_many_quota (ip : jsstring) (t0 : Z) (times : list Z)
    (store : gmap jsstring RateLimitEntry) :
  match store !! ip with
  | None => True
  | Some e => t0 > resetTime e
  end ->
  Forall (fun t => t <= t0 + 60000) times ->
  length (check_many (t0 :: times) store ip 10 60000).1 = S (length times)
  /\ forall i c,
       (check_many (t0 :: times) store ip 10 60000).1 !! i = Some c ->
       cr_resetTime c = t0 + 60000
       /\ (allowed c = true -> (i < 10)%nat)
       /\ (allowed c = false -> (10 <= i)%nat /\ remaining c = 0).
Proof.
  intros Hopen Hin. simpl check_many.
  rewrite (check_opens ip 10 60000 t0 store Hopen).
  destruct (check_many_inside ip 10 60000 times
              (<[ip := mkEntry 1 (t0 + 60000)]> store)
              1 (t0 + 60000) (lookup_insert_eq _ _ _) Hin) as (_ & Hlenc & Hans).
  destruct (check_many times _ ip 10 60000) as [cs store']. simpl in *.
  split; [lia|]. intros [|i] c; simpl.
  - intros [= <-]. simpl. repeat split; try lia; discriminate.
  - intros Hci. destruct (Hans i c Hci) as [HR Hif]. split; [assumption|].
    destruct (1 + Z.of_nat i <? 10) eqn:L; order_hyps; destruct Hif as [Ha Hrem];
      rewrite Ha; split; try discriminate; intros _; try split; try lia.
Qed.

(** X11.  The quota of the synchronization route is 10 requests per minute
    and client address, whatever the requests carry: of the requests that one
    address sends no later than 60 seconds after a request that opened its
    window, the first ten are not answered with status 429 and every later
    one is, with [remaining] 0 and the end of that window as [resetTime]. *)
Theorem sync_quota (ip : jsstring) (env0 : Env) (req0 : Request SyncBody)
    (more : list (Env * Request SyncBody)) (st : State) :
  match rateLimiter st !! ip with
  | None => True
  | Some e => date_now env0 > resetTime e
  end ->
  Forall (fun er => clientIP er.2 = ip) ((env0, req0) :: more) ->
  Forall (fun er => date_now er.1 <= date_now env0 + 60000) more ->
  length (serve_sync ((env0, req0) :: more) st).1 = S (length more)
  /\ forall i r,
       (serve_sync ((env0, req0) :: more) st).1 !! i = Some r ->
       ((i < 10)%nat -> status r <> 429%nat)
       /\ ((10 <= i)%nat ->
           r = mkResponse 429 (RateLimited (date_now env0 + 60000) 0)).
Proof.
  intros Hopen Hip Hin.
  destruct (serve_sync_checks ip ((env0, req0) :: more) st Hip) as [Hlen Hrs].
  assert (Hin' : Forall (fun t => t <= date_now env0 + 60000)
                        (map (fun er : Env * Request SyncBody => date_now er.1) more))
    by (apply Forall_map; exact Hin).
  destruct (check_many_quota ip (date_now env0) _ (rateLimiter st) Hopen Hin')
    as [Hlenc Hcs].
  split; [exact Hlen|]. intros i r Hr.
  assert (Hi : (i < length (check_many (date_now env0 :: map (fun er : Env * Request SyncBody => date_now er.1) more)
                              (rateLimiter st) ip 10 60000).1)%nat).
  { apply lookup_lt_Some in Hr. rewrite Hlenc, length_map. rewrite Hlen in Hr. exact Hr. }
  destruct (lookup_lt_is_Some_2 _ i Hi) as [c Hci].
  destruct (Hcs i c Hci) as (HR & Hat & Haf).
  destruct (Hrs i r c Hr Hci) as [Hdeny Hallow].
  destruct (allowed c) eqn:A.
  - split; [intros _; now apply Hallow|]. intros Hi'. specialize (Hat eq_refl). lia.
  - destruct (Haf eq_refl) as [Hi' Hrem]. split; [lia|]. intros _.
    rewrite (Hdeny eq_refl), HR, Hrem. reflexivity.
Qed.


Lemma sync_quota_witness :
  (serve_sync example_burst empty_state).1 !! 10%nat
  = Some (mkResponse 429 (RateLimited 61000 0)).
Proof.
  destruct (sync_quota (lit "203.0.113.7") (example_env 1000)
              (example_sync_request "alice.example")
              (map (fun k => (example_env (1000 + Z.of_nat k),
                              example_sync_request "alice.example")) (seq 1 10))
              empty_state) as [Hlen H].
  - unfold empty_state. cbn [rateLimiter]. rewrite lookup_empty. exact I.
  - repeat constructor.
  - repeat constructor; simpl; lia.
  - change ((example_env 1000, example_sync_request "alice.example")
            :: map (fun k => (example_env (1000 + Z.of_nat k),
                              example_sync_request "alice.example")) (seq 1 10))
      with example_burst in *.
    destruct (lookup_lt_is_Some_2 (serve_sync example_burst empty_state).1 10%nat)
      as [r Hr]; [rewrite Hlen; simpl; lia|].
    rewrite Hr. f_equal. apply (H 10%nat r Hr). lia.
Defined.


End SyncFacts.

(** ** The gateway and the session endpoints *)

Module GatewayFacts.

Import Sanitize RateLimit Server Gateway Examples ServerFacts EndpointFacts SyncFacts.

(** *** What the gateway reads of the tables *)

Lemma middleware_verified env request st :
  middleware env request st
  = if negb (startsWith (pathname request) (lit "/api/protected")) then PassThrough
    else match presented request with
         | None | Some [] => Denied (mkResponse 401 (Failure (lit "Session required")))
         | Some sid =>
             if sessions_stmt_ok env then
               match verified sid (clock env 0) (userSessions st) with
               | None => Denied (mkResponse 401 (Failure (lit "Invalid or expired session")))
               | Some u => Forwarded u sid
               end
             else Denied (mkResponse 500 (Failure (lit "Authentication error")))
         end.
Proof.
  unfold middleware, verified.
  destruct (negb _); [reflexivity|].
  destruct (presented request) as [[|c sid]|]; try reflexivity.
  destruct (sessions_stmt_ok env); [|reflexivity].
  now destruct (List.find _ _).
Qed.

Lemma update_where_table {Row} (cond : Row -> bool) (f : Row -> Row) (t : list Row) :
  (update_where cond f t).2 = map (fun r => if cond r then f r else r) t.
Proof.
  induction t as [|r t IH]; simpl; [reflexivity|].
  destruct (update_where cond f t) as [hit t']. simpl in *.
  destruct (cond r); simpl; now rewrite IH.
Qed.

Lemma update_where_hit {Row} (cond : Row -> bool) (f : Row -> Row) (t : list Row) :
  (update_where cond f t).1 = map f (List.filter cond t).
Proof.
  induction t as [|r t IH]; simpl; [reflexivity|].
  destruct (update_where cond f t) as [hit t']. simpl in *.
  destruct (cond r); simpl; now rewrite IH.
Qed.

Lemma verified_update_kept sid now cond update (t : list UserSession) :
  (forall r, verifiable sid now (update r) = verifiable sid now r) ->
  (forall r, s_userId (update r) = s_userId r) ->
  verified sid now (update_where cond update t).2 = verified sid now t.
Proof.
  intros Hv Hu. rewrite update_where_table. unfold verified.
  induction t as [|r t IH]; simpl; [reflexivity|].
  destruct (cond r).
  - rewrite Hv. destruct (verifiable sid now r); simpl; [now rewrite Hu | exact IH].
  - destruct (verifiable sid now r); [reflexivity | exact IH].
Qed.

Lemma verifiable_activity_set env t sid now r :
  verifiable sid now (activity_set env t r) = verifiable sid now r.
Proof. reflexivity. Qed.

Lemma verifiable_deactivate_set env sid now r :
  verifiable sid now (deactivate_set env r) = false.
Proof. unfold verifiable. simpl. now rewrite andb_false_r. Qed.

(** After the deactivation of [sid0] no row of [sid0] is verifiable, and
    the rows of the other ids are as before. *)
Lemma verified_deactivated env sid0 sid now (t : list UserSession) :
  verified sid now (update_where (same_sessionId sid0) (deactivate_set env) t).2
  = if bool_decide (sid = sid0) then None else verified sid now t.
Proof.
  rewrite update_where_table. unfold verified.
  induction t as [|r t IH]; simpl.
  - now destruct (bool_decide _).
  - destruct (same_sessionId sid0 r) eqn:C; unfold same_sessionId in C.
    + rewrite verifiable_deactivate_set.
      destruct (bool_decide (sid = sid0)) eqn:D; [exact IH|].
      apply bool_decide_eq_true in C. apply bool_decide_eq_false in D.
      assert (V : verifiable sid now r = false).
      { unfold verifiable, same_sessionId.
        rewrite bool_decide_eq_false_2 by congruence. reflexivity. }
      rewrite V. exact IH.
    + destruct (bool_decide (sid = sid0)) eqn:D.
      * apply bool_decide_eq_true in D. apply bool_decide_eq_false in C.
        assert (V : verifiable sid now r = false).
        { unfold verifiable, same_sessionId.
          rewrite bool_decide_eq_false_2 by congruence. reflexivity. }
        rewrite V. exact IH.
      * destruct (verifiable sid now r); [reflexivity | exact IH].
Qed.

(** *** What the endpoints do to the session table *)

Lemma activity_outcome env (req : Request ActivityBody) st :
  exists r st',
    activity_POST env req st = Val r st'
    /\ users st' = users st /\ rateLimiter st' = rateLimiter st
    /\ ((userSessions st' = userSessions st /\ status r <> 200%nat)
        \/ exists b sid ts t,
             json req = Some b /\ a_sessionId b = IsString sid
             /\ a_lastActiveAt b = IsString ts /\ datetime env ts = Some t
             /\ sessions_stmt_ok env = true
             /\ userSessions st'
                = (update_where (same_sessionId sid) (activity_set env t)
                                (userSessions st)).2
             /\ r = match List.filter (same_sessionId sid) (userSessions st) with
                    | [] => json_ok (Success None (Some (lit "Session not found")))
                    | _ :: _ => json_ok (Success None None)
                    end).
Proof.
  unfold activity_POST. run_handler.
  pose proof I as Done.
  destruct (is_json_content req); simpl; [|eexists _, _; (split; [reflexivity|]); simpl; auto 6].
  destruct (json req) as [b|] eqn:J; simpl; [|eexists _, _; (split; [reflexivity|]); simpl; auto 6].
  destruct (activitySchema env b) as [[sid t]|] eqn:A; simpl; [|eexists _, _; (split; [reflexivity|]); simpl; auto 6].
  destruct (sessions_stmt_ok env) eqn:Ok; simpl; [|eexists _, _; (split; [reflexivity|]); simpl; auto 6].
  pose proof (update_where_table (same_sessionId sid) (activity_set env t)
                                 (userSessions st)) as Ht.
  pose proof (update_where_hit (same_sessionId sid) (activity_set env t)
                               (userSessions st)) as Hh.
  destruct (update_where (same_sessionId sid) (activity_set env t) (userSessions st))
    as [hit table]. simpl in *.
  unfold activitySchema in A.
  destruct (z_string _ (a_sessionId b)) as [sid'|] eqn:E1; [|discriminate].
  destruct (z_string _ (a_lastActiveAt b)) as [ts|] eqn:E2; [|discriminate].
  destruct (datetime env ts) as [t'|] eqn:E3; [|discriminate].
  injection A as -> ->.
  apply z_string_Some in E1 as [E1 _], E2 as [E2 _].
  rewrite Hh.
  destruct (List.filter (same_sessionId sid) (userSessions st)) as [|row rows] eqn:F;
    simpl; eexists _, _; (split; [reflexivity|]); simpl;
    (split; [reflexivity|]); (split; [reflexivity|]);
    right; exists b, sid, ts, t; rewrite F, update_where_table; auto 10.
Qed.

Lemma deactivate_outcome env (req : Request DeactivateBody) st :
  exists r st',
    deactivate_POST env req st = Val r st'
    /\ users st' = users st /\ rateLimiter st' = rateLimiter st
    /\ ((userSessions st' = userSessions st /\ status r = 500%nat
         /\ (sessions_stmt_ok env = false
             \/ forall sid, json req <> Some (mkDeactivateBody (IsString sid))))
        \/ exists sid,
             json req = Some (mkDeactivateBody (IsString sid))
             /\ sessions_stmt_ok env = true
             /\ userSessions st'
                = (update_where (same_sessionId sid) (deactivate_set env)
                                (userSessions st)).2
             /\ r = match List.filter (same_sessionId sid) (userSessions st) with
                    | [] => mkResponse 404 (Failure (lit "Session not found"))
                    | _ :: _ => json_ok (Success None None)
                    end).
Proof.
  unfold deactivate_POST. run_handler.
  destruct (json req) as [[f]|] eqn:J; simpl;
    [|eexists _, _; (split; [reflexivity|]); simpl; auto 10].
  unfold deactivateSchema. simpl.
  destruct f as [|sid|]; simpl;
    [eexists _, _; (split; [reflexivity|]); simpl; auto 10|
    |eexists _, _; (split; [reflexivity|]); simpl; auto 10].
  destruct (sessions_stmt_ok env) eqn:Ok; simpl;
    [|eexists _, _; (split; [reflexivity|]); simpl; auto 10].
  pose proof (update_where_table (same_sessionId sid) (deactivate_set env)
                                 (userSessions st)) as Ht.
  pose proof (update_where_hit (same_sessionId sid) (deactivate_set env)
                               (userSessions st)) as Hh.
  destruct (update_where (same_sessionId sid) (deactivate_set env) (userSessions st))
    as [hit table]. simpl in *.
  rewrite Hh.
  destruct (List.filter (same_sessionId sid) (userSessions st)) as [|row rows] eqn:F;
    simpl; eexists _, _; (split; [reflexivity|]); simpl;
    (split; [reflexivity|]); (split; [reflexivity|]);
    right; exists sid; rewrite F, update_where_table; auto.
Qed.

(** The verdict of the gateway after one call of an endpoint. *)
Lemma verified_perform c st sid now :
  verified sid now (userSessions (perform c st)) = verified sid now (userSessions st)
  \/ verified sid now (userSessions (perform c st)) = None.
Proof.
  destruct c as [v env req|env req|env req]; unfold perform, state_after.
  - destruct (sync_route_outcome v env req st) as (r & st' & -> & _ & -> & _).
    now left.
  - destruct (activity_outcome env req st) as (r & st' & -> & _ & _ & H).
    destruct H as [[-> _] | (b & sid' & ts & t & _ & _ & _ & _ & _ & -> & _)]; [now left|].
    left. now apply verified_update_kept.
  - destruct (deactivate_outcome env req st) as (r & st' & -> & _ & _ & H).
    destruct H as [(-> & _) | (sid' & _ & _ & -> & _)]; [now left|].
    rewrite verified_deactivated. destruct (bool_decide _); auto.
Qed.


(** X16 (gateway): on a table that respects the unique index on session ids,
    [middleware] forwards a request, with the user id [u] and the session id
    [sid], exactly when the path is under [/api/protected], the query ran,
    [sid] is the non-empty session id presented (the header, else the cookie)
    and the table has a row of [sid] that is active, carries an expiry later
    than now and belongs to [u]. *)
Theorem middleware_forwards_valid_sessions (env : Env) (request : GatewayRequest)
    (st : State) (u : N) (sid : jsstring) :
  NoDup (map s_sessionId (userSessions st)) ->
  middleware env request st = Forwarded u sid
  <-> (startsWith (pathname request) (lit "/api/protected") = true
       /\ presented request = Some sid /\ sid <> []
       /\ sessions_stmt_ok env = true
       /\ exists r e,
            r ∈ userSessions st /\ s_sessionId r = sid /\ s_isActive r = true
            /\ s_expiresAt r = Some e /\ clock env 0 < e /\ s_userId r = u).
Proof.
  intros Hnd. unfold middleware. split.
  - destruct (startsWith _ _); simpl; [|discriminate].
    destruct (presented request) as [[|c s]|]; try discriminate.
    destruct (sessions_stmt_ok env); [|discriminate].
    destruct (List.find _ _) as [r|] eqn:F; [|discriminate].
    intros [= <- <-]. apply find_some in F as [Hin V].
    unfold verifiable in V.
    apply andb_true_iff in V as [V Ve]. apply andb_true_iff in V as [Vs Va].
    destruct (s_expiresAt r) as [e|] eqn:Ee; [|discriminate].
    apply Z.ltb_lt in Ve. apply bool_decide_eq_true in Vs.
    repeat split; try easy.
    exists r, e. rewrite list_elem_of_In. auto 10.
  - intros (-> & -> & Hne & -> & r & e & Hin & Hs & Ha & He & Hlt & Hu). simpl.
    destruct sid as [|c s]; [congruence|].
    assert (V : verifiable (c :: s) (clock env 0) r = true).
    { unfold verifiable, same_sessionId.
      rewrite bool_decide_eq_true_2, Ha, He by assumption. simpl.
      now apply Z.ltb_lt. }
    destruct (List.find _ _) as [r'|] eqn:F.
    + apply find_some in F as [Hin' V'].
      assert (r' = r); [|subst; reflexivity].
      unfold verifiable in V'.
      apply andb_true_iff in V' as [V' _]. apply andb_true_iff in V' as [Vs' _].
      apply bool_decide_eq_true in Vs'.
      apply list_elem_of_In in Hin'.
      apply list_elem_of_lookup in Hin as [i Hi], Hin' as [j Hj].
      assert (i = j).
      { apply (NoDup_lookup _ i j (s_sessionId r) Hnd).
        - change (map s_sessionId) with (fmap (M:=list) s_sessionId).
          now rewrite list_lookup_fmap, Hi.
        - change (map s_sessionId) with (fmap (M:=list) s_sessionId).
          rewrite list_lookup_fmap, Hj. simpl. congruence. }
      subst. congruence.
    + exfalso. apply list_elem_of_In in Hin.
      pose proof (find_none _ _ F r Hin). congruence.
Qed.

Lemma middleware_forwards_valid_sessions_witness :
  middleware (example_env 2000) example_protected_request example_gate_state
  = Forwarded 7 example_sessionId.
Proof.
  apply (middleware_forwards_valid_sessions (example_env 2000) example_protected_request
           example_gate_state 7 example_sessionId).
  - simpl. apply NoDup_singleton.
  - split; [reflexivity|]. split; [reflexivity|]. split; [discriminate|].
    split; [reflexivity|].
    exists example_expiring_session, 5000.
    split; [apply list_elem_of_singleton; reflexivity|].
    repeat split; try reflexivity.
Defined.

(** The refusals of the gateway.  A path outside [/api/protected] passes
    whatever the request carries and whatever the state of the database; a
    protected request is never passed on without a verdict; a missing or
    empty session id is refused with 401 before any query, and an empty
    [x-session-id] header hides the cookie; a refusal is a 401 while the
    query runs, and the 500 is the answer of a failing query alone. *)
Lemma middleware_refusals (env : Env) (request : GatewayRequest) (st : State) :
  (startsWith (pathname request) (lit "/api/protected") = false ->
   middleware env request st = PassThrough)
  /\ (startsWith (pathname request) (lit "/api/protected") = true ->
      middleware env request st <> PassThrough
      /\ (x_session_id request = Some [] \/ presented request = None ->
          middleware env request st
          = Denied (mkResponse 401 (Failure (lit "Session required"))))
      /\ (forall r, middleware env request st = Denied r ->
          (status r = 401%nat /\ (sessions_stmt_ok env = false ->
                                  payload r = Failure (lit "Session required")))
          \/ (status r = 500%nat /\ sessions_stmt_ok env = false
              /\ exists sid, presented request = Some sid /\ sid <> []))).
Proof.
  rewrite middleware_verified. split; intros ->; simpl; [reflexivity|].
  split; [|split].
  - destruct (presented request) as [[|c s]|]; try discriminate.
    destruct (sessions_stmt_ok env); [|discriminate].
    now destruct (verified _ _ _).
  - intros [H | ->]; [|reflexivity].
    unfold presented. now rewrite H.
  - intros r.
    destruct (presented request) as [[|c s]|]; try (intros [= <-]; left; now split).
    destruct (sessions_stmt_ok env).
    + destruct (verified _ _ _); [discriminate|].
      intros [= <-]. left. split; [reflexivity | discriminate].
    + intros [= <-]. right. split; [reflexivity|]. split; [reflexivity|].
      exists (c :: s). split; [reflexivity | discriminate].
Qed.

(** X17 (gateway and endpoints): no call of the synchronization, activity
    or deactivation endpoint makes the gateway forward a request that it did
    not forward before the call: whatever the call and its outcome, a request
    forwarded afterwards was forwarded before, with the same user id. *)
Theorem endpoints_never_widen_access (c : Call) (st : State) (env : Env)
    (request : GatewayRequest) (u : N) (sid : jsstring) :
  middleware env request (perform c st) = Forwarded u sid ->
  middleware env request st = Forwarded u sid.
Proof.
  rewrite !middleware_verified.
  destruct (negb _); [easy|].
  destruct (presented request) as [[|x s]|]; try easy.
  destruct (sessions_stmt_ok env); [|easy].
  destruct (verified_perform c st (x :: s) (clock env 0)) as [-> | ->]; easy.
Qed.

Lemma endpoints_never_widen_access_witness :
  middleware (example_env 3000) example_protected_request example_gate_state
  = Forwarded 7 example_sessionId.
Proof.
  apply (endpoints_never_widen_access
           (Activity (example_env 2000) (example_activity_request example_sessionId))
           example_gate_state (example_env 3000) example_protected_request 7
           example_sessionId).
  vm_compute. reflexivity.
Defined.



(** *** Deactivation and activity on an existing session *)

Lemma filter_map_update {Row} (cond keyed : Row -> bool) (f : Row -> Row)
    (t : list Row) :
  (forall r, keyed (f r) = keyed r) ->
  List.filter keyed (map (fun r => if cond r then f r else r) t)
  = map (fun r => if cond r then f r else r) (List.filter keyed t).
Proof.
  intros Hk. induction t as [|r t IH]; simpl; [reflexivity|].
  assert (E : keyed (if cond r then f r else r) = keyed r)
    by (destruct (cond r); [apply Hk | reflexivity]).
  rewrite E. destruct (keyed r); simpl; now rewrite IH.
Qed.

Lemma unique_session_rows sid st :
  NoDup (map s_sessionId (userSessions st)) ->
  rows_for_session sid st = []
  \/ exists row, rows_for_session sid st = [row] /\ s_sessionId row = sid.
Proof.
  unfold rows_for_session. induction (userSessions st) as [|r t IH]; simpl;
    [now left|].
  intros Hnd. apply NoDup_cons in Hnd as [Hr Hnd].
  destruct (same_sessionId sid r) eqn:C; [|now apply IH].
  apply bool_decide_eq_true in C. right. exists r. split; [|exact C].
  f_equal. apply (filter_absent s_sessionId sid); [reflexivity|].
  now rewrite <- C.
Qed.

Lemma update_misses_other_ids sid sid' (f : UserSession -> UserSession)
    (t : list UserSession) :
  sid' <> sid ->
  map (fun r => if same_sessionId sid r then f r else r)
      (List.filter (same_sessionId sid') t)
  = List.filter (same_sessionId sid') t.
Proof.
  intros Hne. induction t as [|x t IH]; simpl; [reflexivity|].
  destruct (same_sessionId sid' x) eqn:C; [|exact IH].
  simpl. apply bool_decide_eq_true in C.
  unfold same_sessionId at 1.
  rewrite bool_decide_eq_false_2 by congruence. now rewrite IH.
Qed.

(** An activity report that passes the validation of the route, on a
    database that runs the statement. *)
Lemma activity_accepted env (req : Request ActivityBody) sid ts t st :
  is_json_content req = true ->
  json req = Some (mkActivityBody (IsString sid) (IsString ts)) ->
  session_id_pattern sid = true -> datetime env ts = Some t ->
  sessions_stmt_ok env = true ->
  activity_POST env req st
  = Val (match rows_for_session sid st with
         | [] => json_ok (Success None (Some (lit "Session not found")))
         | _ :: _ => json_ok (Success None None)
         end)
        (mkState (users st)
                 (map (fun r => if same_sessionId sid r then activity_set env t r else r)
                      (userSessions st))
                 (rateLimiter st) (db_log st ++ [UpdateUserSessions sid])).
Proof.
  intros Hct J P D Ok.
  unfold activity_POST, try_catch, bind, request_json, zod_parse.
  rewrite Hct, J. simpl.
  assert (Hs : activitySchema env (mkActivityBody (IsString sid) (IsString ts))
               = Some (sid, t)).
  { unfold activitySchema. simpl.
    unfold session_id_pattern in P. apply andb_true_iff in P as [P1 P2].
    assert (Hmin : min_len 1 sid = true).
    { unfold re_session in P1. destruct sid as [|a sid']; [discriminate|reflexivity]. }
    rewrite Hmin, P1, P2. simpl.
    rewrite bool_decide_eq_true_2 by (rewrite D; eauto). now rewrite D. }
  rewrite Hs. simpl.
  run_handler. simpl. rewrite Ok. simpl.
  pose proof (update_where_table (same_sessionId sid) (activity_set env t)
                                 (userSessions st)) as Ht.
  pose proof (update_where_hit (same_sessionId sid) (activity_set env t)
                               (userSessions st)) as Hh.
  destruct (update_where (same_sessionId sid) (activity_set env t) (userSessions st))
    as [hit table]. simpl in *. subst hit table.
  unfold rows_for_session.
  now destruct (List.filter (same_sessionId sid) (userSessions st)).
Qed.

(** X19 (deactivation): on tables that respect the unique index, a
    deactivation answered with 200 switched [is_active] of the one row of the
    session id off and stamped [updated_at]; every other column of that row,
    every other session and every user are as they were.  From then on the
    gateway refuses the session id with 401 and a further deactivation of it
    is answered with 200 again.  An activity report for it that passes the
    validation of the activity route is still answered with plain success
    and sets [last_active_at], and neither it nor any other activity request
    switches the session on again. *)
Theorem deactivate_revokes (env : Env) (req : Request DeactivateBody)
    (sid : jsstring) (st st' : State) (r : Response) :
  NoDup (map s_sessionId (userSessions st)) ->
  json req = Some (mkDeactivateBody (IsString sid)) ->
  deactivate_POST env req st = Val r st' -> status r = 200%nat ->
  (exists row,
      rows_for_session sid st = [row]
      /\ rows_for_session sid st'
         = [mkSession (s_id row) (s_userId row) (s_sessionId row) (s_deviceId row)
                      (s_lastActiveAt row) (s_expiresAt row) (s_metadata row) false
                      (s_createdAt row) (Some (clock env 0))])
  /\ users st' = users st
  /\ (forall sid', sid' <> sid -> rows_for_session sid' st' = rows_for_session sid' st)
  /\ (forall env' request,
        startsWith (pathname request) (lit "/api/protected") = true ->
        presented request = Some sid -> sessions_stmt_ok env' = true ->
        exists e, middleware env' request st' = Denied (mkResponse 401 (Failure e)))
  /\ (forall env' req',
        json req' = Some (mkDeactivateBody (IsString sid)) ->
        sessions_stmt_ok env' = true ->
        exists st'', deactivate_POST env' req' st' = Val (json_ok (Success None None)) st'')
  /\ (forall env' (req' : Request ActivityBody) ts t,
        is_json_content req' = true ->
        json req' = Some (mkActivityBody (IsString sid) (IsString ts)) ->
        session_id_pattern sid = true -> datetime env' ts = Some t ->
        sessions_stmt_ok env' = true ->
        exists st'' row,
          activity_POST env' req' st' = Val (json_ok (Success None None)) st''
          /\ rows_for_session sid st'' = [row]
          /\ s_isActive row = false /\ s_lastActiveAt row = t)
  /\ (forall env' (req' : Request ActivityBody) r' st'',
        activity_POST env' req' st' = Val r' st'' ->
        Forall (fun row => s_isActive row = false) (rows_for_session sid st'')).
Proof.
  intros Hnd J Run S200.
  destruct (deactivate_outcome env req st) as (r0 & st0 & Run0 & Hu & _ & H).
  rewrite Run in Run0. injection Run0 as <- <-.
  destruct H as [(_ & H500 & _) | (sid0 & J0 & Ok & Hs & Hr)]; [congruence|].
  rewrite J in J0. injection J0 as <-.
  assert (Hrows : forall sid',
             rows_for_session sid' st'
             = map (fun r => if same_sessionId sid r then deactivate_set env r else r)
                   (rows_for_session sid' st)).
  { intros sid'. unfold rows_for_session. rewrite Hs, update_where_table.
    now apply filter_map_update. }
  destruct (unique_session_rows sid st Hnd) as [E | (row & E & Hk)].
  { unfold rows_for_session in E. rewrite E in Hr. subst r. discriminate. }
  assert (Hrow' : rows_for_session sid st' = [deactivate_set env row]).
  { rewrite Hrows, E. simpl. unfold same_sessionId.
    now rewrite bool_decide_eq_true_2. }
  split; [exists row; split; [exact E | exact Hrow']|].
  split; [exact Hu|].
  split.
  { intros sid' Hne. rewrite Hrows. now apply update_misses_other_ids. }
  split.
  { intros env' request Hp Hpres Ok'.
    rewrite middleware_verified, Hp, Hpres, Ok'. simpl.
    destruct sid as [|c s]; [eauto|].
    rewrite Hs, verified_deactivated, bool_decide_eq_true_2 by reflexivity. eauto. }
  split.
  { intros env' req' J' Ok'.
    destruct (deactivate_outcome env' req' st') as (r1 & st1 & Run1 & _ & _ & H1).
    destruct H1 as [(_ & _ & [H | H]) | (sid1 & J1 & _ & _ & Hr1)].
    - congruence.
    - now destruct (H sid).
    - rewrite J' in J1. injection J1 as <-.
      fold (rows_for_session sid st') in Hr1. rewrite Hrow' in Hr1. subst r1. eauto. }
  split.
  { intros env' req' ts t Hct J' P D Ok'.
    rewrite (activity_accepted env' req' sid ts t st' Hct J' P D Ok'), Hrow'.
    eexists _, _. split; [reflexivity|].
    unfold rows_for_session at 1. cbn [userSessions].
    rewrite filter_map_update by reflexivity.
    fold (rows_for_session sid st'). rewrite Hrow'. simpl.
    unfold same_sessionId. rewrite bool_decide_eq_true_2 by exact Hk.
    repeat split. }
  intros env' req' r' st'' Run'.
  destruct (activity_outcome env' req' st') as (r1 & st1 & Run1 & _ & _ & H1).
  rewrite Run' in Run1. injection Run1 as <- <-.
  destruct H1 as [[E' _] | (b & sid1 & ts & t & _ & _ & _ & _ & _ & E' & _)].
  - unfold rows_for_session in *. rewrite E', Hrow'. now constructor.
  - unfold rows_for_session in *. rewrite E', update_where_table.
    rewrite filter_map_update by reflexivity. rewrite Hrow'. simpl.
    destruct (same_sessionId sid1 _); now constructor.
Qed.

Lemma deactivate_revokes_witness :
  (exists e,
      middleware (example_env 3000) example_protected_request
        (state_after (deactivate_POST (example_env 2000)
                        (example_deactivate_request example_sessionId))
                     example_tables)
      = Denied (mkResponse 401 (Failure e)))
  /\ (exists st'' row,
         activity_POST (example_env 3000) (example_activity_request example_sessionId)
           (state_after (deactivate_POST (example_env 2000)
                           (example_deactivate_request example_sessionId))
                        example_tables)
         = Val (json_ok (Success None None)) st''
         /\ rows_for_session example_sessionId st'' = [row]
         /\ s_isActive row = false /\ s_lastActiveAt row = 3000)
  /\ rows_for_session (lit "sess_other")
       (state_after (deactivate_POST (example_env 2000)
                       (example_deactivate_request example_sessionId))
                    example_tables)
     = [example_other_session].
Proof.
  destruct (deactivate_revokes (example_env 2000)
              (example_deactivate_request example_sessionId) example_sessionId
              example_tables
              (state_after (deactivate_POST (example_env 2000)
                              (example_deactivate_request example_sessionId))
                           example_tables)
              (answer_of (deactivate_POST (example_env 2000)
                            (example_deactivate_request example_sessionId))
                         example_tables))
    as (_ & _ & Hother & Hgate & _ & Hact & _).
  - simpl. apply NoDup_cons. split; [|apply NoDup_singleton].
    intros Hin. apply list_elem_of_singleton in Hin. discriminate.
  - reflexivity.
  - vm_compute. reflexivity.
  - reflexivity.
  - split; [|split].
    + apply (Hgate (example_env 3000) example_protected_request); reflexivity.
    + apply (Hact (example_env 3000) (example_activity_request example_sessionId)
                  (lit "2025-01-01T00:00:00Z") 3000); reflexivity.
    + rewrite Hother; [reflexivity | discriminate].
Defined.

(** X20 (activity): on tables that respect the unique index, an activity
    report answered with success and no warning set [last_active_at] of the
    one row of the session id to the time the client reported, whatever the
    time stored before and whatever the clock of the server, and besides
    [updated_at] changed nothing else in the row (it stays inactive if it
    was), no other session and no user. *)
Theorem activity_sets_reported_time (env : Env) (req : Request ActivityBody)
    (sid ts : jsstring) (st st' : State) :
  NoDup (map s_sessionId (userSessions st)) ->
  json req = Some (mkActivityBody (IsString sid) (IsString ts)) ->
  activity_POST env req st = Val (json_ok (Success None None)) st' ->
  exists row t,
    datetime env ts = Some t
    /\ rows_for_session sid st = [row]
    /\ rows_for_session sid st'
       = [mkSession (s_id row) (s_userId row) (s_sessionId row) (s_deviceId row)
                    t (s_expiresAt row) (s_metadata row) (s_isActive row)
                    (s_createdAt row) (Some (clock env 0))]
    /\ users st' = users st
    /\ forall sid', sid' <> sid -> rows_for_session sid' st' = rows_for_session sid' st.
Proof.
  intros Hnd J Run.
  destruct (activity_outcome env req st) as (r0 & st0 & Run0 & Hu & _ & H).
  rewrite Run in Run0. injection Run0 as <- <-.
  assert (Hdb : exists t, datetime env ts = Some t /\ sessions_stmt_ok env = true
                /\ userSessions st'
                   = (update_where (same_sessionId sid) (activity_set env t)
                                   (userSessions st)).2
                /\ exists row rows, List.filter (same_sessionId sid) (userSessions st)
                                    = row :: rows).
  { destruct H as [E | (b & sid0 & ts0 & t & J0 & Hsid & Hts & Hd & Ok & Hs & Hr)].
    - now destruct E as [_ E].
    - rewrite J in J0. injection J0 as <-. simpl in Hsid, Hts.
      injection Hsid as <-. injection Hts as <-.
      exists t. repeat split; try assumption.
      destruct (List.filter _ _) as [|row rows]; [discriminate | eauto]. }
  destruct Hdb as (t & Hd & Ok & Hs & row0 & rows0 & Hf).
  assert (Hrows : forall sid',
             rows_for_session sid' st'
             = map (fun r => if same_sessionId sid r then activity_set env t r else r)
                   (rows_for_session sid' st)).
  { intros sid'. unfold rows_for_session. rewrite Hs, update_where_table.
    now apply filter_map_update. }
  destruct (unique_session_rows sid st Hnd) as [E | (row & E & Hk)].
  { unfold rows_for_session in E. congruence. }
  exists row, t. split; [exact Hd|]. split; [exact E|].
  split.
  { rewrite Hrows, E. simpl. unfold same_sessionId.
    now rewrite bool_decide_eq_true_2. }
  split; [exact Hu|].
  intros sid' Hne. rewrite Hrows. now apply update_misses_other_ids.
Qed.

Lemma activity_sets_reported_time_witness :
  exists row,
    rows_for_session example_sessionId
      (state_after (activity_POST (example_env 2000)
                      (example_activity_request example_sessionId))
                   example_gate_state) = [row]
    /\ s_lastActiveAt row = 2000.
Proof.
  destruct (activity_sets_reported_time (example_env 2000)
              (example_activity_request example_sessionId) example_sessionId
              (lit "2025-01-01T00:00:00Z") example_gate_state
              (state_after (activity_POST (example_env 2000)
                              (example_activity_request example_sessionId))
                           example_gate_state))
    as (row & t & Hd & _ & Hrow & _).
  - simpl. apply NoDup_singleton.
  - reflexivity.
  - vm_compute. reflexivity.
  - eexists. split; [exact Hrow|]. simpl.
    simpl in Hd. now injection Hd as <-.
Defined.

(** *** The user lookup *)

Lemma find_none_filter {A} (p : A -> bool) (l : list A) :
  List.find p l = None <-> List.filter p l = [].
Proof.
  induction l as [|x l IH]; simpl; [tauto|].
  destruct (p x); [split; discriminate | exact IH].
Qed.

Lemma find_unique_did (u : User) (l : list User) :
  NoDup (map u_did l) -> u ∈ l -> List.find (same_did (u_did u)) l = Some u.
Proof.
  induction l as [|x l IH]; simpl; intros Hnd Hin.
  - now apply elem_of_nil in Hin.
  - apply NoDup_cons in Hnd as [Hx Hnd].
    apply elem_of_cons in Hin as [<- | Hin].
    + unfold same_did. now rewrite bool_decide_eq_true_2.
    + unfold same_did at 1.
      rewrite bool_decide_eq_false_2; [now apply IH|].
      intros E. apply Hx. rewrite E. now apply list_elem_of_fmap_2.
Qed.

(** X21 (user lookup): on a table that respects the unique index on [did],
    [GET /api/users/[did]] answers with a user exactly when the statement ran
    and that user is the row of the table whose DID is the decoded path
    segment; it answers with 404 and ["User not found"] exactly when the
    statement ran and the table has no row of the decoded DID, and with 500
    and ["Failed to fetch user"] exactly when the segment does not decode or
    the statement fails; it gives no other answer. *)
Theorem users_GET_answers (env : Env) (decode : jsstring -> option jsstring)
    (rawDid : jsstring) (st : State) :
  NoDup (map u_did (users st)) ->
  (forall u,
      users_GET env decode rawDid st = UserRow u
      <-> users_stmt_ok env = true /\ u ∈ users st /\ decode rawDid = Some (u_did u))
  /\ (forall code e,
        users_GET env decode rawDid st = UserError code e
        <-> (code = 404%nat /\ e = lit "User not found" /\ users_stmt_ok env = true
             /\ exists d, decode rawDid = Some d /\ rows_for_did d st = [])
            \/ (code = 500%nat /\ e = lit "Failed to fetch user"
                /\ (decode rawDid = None \/ users_stmt_ok env = false))).
Proof.
  intros Hnd. unfold users_GET, rows_for_did. split.
  - intros u. split.
    + destruct (decode rawDid) as [d|] eqn:D; [|discriminate].
      destruct (users_stmt_ok env); [|discriminate].
      destruct (List.find _ _) as [x|] eqn:F; [|discriminate].
      intros [= ->]. apply find_some in F as [Hin Hd].
      apply bool_decide_eq_true in Hd.
      split; [reflexivity|]. split; [now apply list_elem_of_In | congruence].
    + intros (-> & Hin & ->). now rewrite (find_unique_did u _ Hnd Hin).
  - intros code e. split.
    + destruct (decode rawDid) as [d|] eqn:D; [|intros [= <- <-]; right; auto].
      destruct (users_stmt_ok env); [|intros [= <- <-]; right; auto].
      destruct (List.find _ _) as [x|] eqn:F; [discriminate|].
      intros [= <- <-]. left. repeat split. exists d. split; [reflexivity|].
      now apply find_none_filter.
    + intros [(-> & -> & -> & d & -> & Hrows) | (-> & -> & [-> | Hfail])].
      * apply find_none_filter in Hrows. now rewrite Hrows.
      * reflexivity.
      * destruct (decode rawDid); [now rewrite Hfail | reflexivity].
Qed.

Lemma users_GET_answers_witness :
  users_GET (example_env 1000) Some example_did example_tables = UserRow example_user.
Proof.
  apply (users_GET_answers (example_env 1000) Some example_did example_tables).
  - simpl. apply NoDup_singleton.
  - split; [reflexivity|]. split; [|reflexivity].
    apply list_elem_of_singleton. reflexivity.
Defined.

End GatewayFacts.

(** ** The orchestrator: device identity, sign-in and restoration *)

Module OrchestratorFacts.

Import IdentityUtils Client Spec Orchestrator Examples ClientFacts.

Lemma generateDeviceId_minted bytes id rest :
  generateDeviceId bytes = Some (id, rest) -> minted "dev_" id.
Proof.
  unfold generateDeviceId. intros H.
  destruct (nanoid bytes) as [[t r]|] eqn:E; [|discriminate].
  injection H as <- <-. apply IdentityFacts.nanoid_sound in E as [? ?]. now exists t.
Qed.

Lemma minted_nonempty prefix id : prefix <> EmptyString -> minted prefix id -> id <> [].
Proof.
  intros Hp (t & -> & _). destruct prefix; [congruence|]. discriminate.
Qed.

Lemma device_key_apart : DEVICE_ID <> CURRENT_DID.
Proof. discriminate. Qed.

(** The run of [getOrCreateDeviceId], case by case. *)
Lemma getOrCreateDeviceId_run w c :
  getOrCreateDeviceId w c
  = if has_window w then
      match localStorage c !! DEVICE_ID with
      | Some (x :: d) => Val (x :: d) c
      | _ =>
          match generateDeviceId (random c) with
          | Some (id, rest) =>
              Val id (mkClient (c_sessionId c) (c_deviceId c)
                               (<[DEVICE_ID := id]> (localStorage c)) rest (trace c))
          | None => Hang
          end
      end
    else Val (lit "ssr-temp-device-id") c.
Proof.
  unfold getOrCreateDeviceId, newDeviceId, setItem, bind, get, ret, modify.
  destruct (has_window w); simpl; [|reflexivity].
  destruct (localStorage c !! DEVICE_ID) as [[|x d]|]; try reflexivity;
    now destruct (generateDeviceId (random c)) as [[id rest]|].
Qed.

(** In a browser the identifier returned is stored, and is not empty. *)
Lemma getOrCreateDeviceId_stored w c c' d :
  has_window w = true ->
  getOrCreateDeviceId w c = Val d c' ->
  localStorage c' !! DEVICE_ID = Some d /\ d <> [] /\ trace c' = trace c.
Proof.
  intros Hw. rewrite getOrCreateDeviceId_run, Hw.
  assert (Hfresh : match generateDeviceId (random c) with
                   | Some (id, rest) =>
                       Val id (mkClient (c_sessionId c) (c_deviceId c)
                                 (<[DEVICE_ID := id]> (localStorage c)) rest (trace c))
                   | None => Hang
                   end = Val d c' ->
                   localStorage c' !! DEVICE_ID = Some d /\ d <> [] /\ trace c' = trace c).
  { destruct (generateDeviceId (random c)) as [[id rest]|] eqn:G; [|discriminate].
    intros [= <- <-]. simpl. rewrite lookup_insert_eq.
    split; [reflexivity|]. split; [|reflexivity].
    eapply minted_nonempty; [|eapply generateDeviceId_minted; exact G]. discriminate. }
  destruct (localStorage c !! DEVICE_ID) as [[|x e]|] eqn:L; try exact Hfresh.
  intros [= <- <-]. rewrite L. split; [reflexivity|]. split; [discriminate | reflexivity].
Qed.

(** X22 (device identity): in a browser [getOrCreateDeviceId] returns the
    non-empty identifier found under ["nymeria-device-id"] and changes
    nothing; when none is stored, or an empty one, it returns a fresh
    ["dev_"] identifier and stores it.  Either way the identifier returned is
    the one stored afterwards, and calling again returns it again without
    reading the random source.  Without a window it returns the placeholder
    and stores nothing. *)
Theorem getOrCreateDeviceId_stable (w : World) (c c' : Client) (d : jsstring) :
  getOrCreateDeviceId w c = Val d c' ->
  getOrCreateDeviceId w c' = Val d c'
  /\ (has_window w = false -> d = lit "ssr-temp-device-id" /\ c' = c)
  /\ (has_window w = true ->
      localStorage c' !! DEVICE_ID = Some d /\ d <> []
      /\ (forall x, localStorage c !! DEVICE_ID = Some x -> x <> [] ->
            d = x /\ c' = c)
      /\ (localStorage c !! DEVICE_ID = None \/ localStorage c !! DEVICE_ID = Some [] ->
            minted "dev_" d
            /\ generateDeviceId (random c) = Some (d, random c')
            /\ localStorage c' = <[DEVICE_ID := d]> (localStorage c)))
  /\ c_sessionId c' = c_sessionId c /\ c_deviceId c' = c_deviceId c
  /\ trace c' = trace c.
Proof.
  rewrite !getOrCreateDeviceId_run.
  destruct (has_window w).
  - destruct (localStorage c !! DEVICE_ID) as [stored|] eqn:L.
    + destruct stored as [|x e].
      * destruct (generateDeviceId (random c)) as [[id rest]|] eqn:G; [|discriminate].
        intros [= <- <-]. simpl. rewrite lookup_insert_eq.
        pose proof (generateDeviceId_minted _ _ _ G) as Hm.
        assert (Hne : id <> []) by (eapply minted_nonempty; [|exact Hm]; discriminate).
        destruct id as [|i0 id]; [congruence|].
        split; [reflexivity|]. split; [discriminate|].
        split; [|auto]. intros _.
        split; [reflexivity|]. split; [exact Hne|].
        split; [intros y [= <-]; congruence|]. auto.
      * intros [= <- <-]. rewrite L.
        split; [reflexivity|]. split; [discriminate|].
        split; [|auto]. intros _.
        split; [reflexivity|]. split; [discriminate|].
        split; [intros y [= <-]; auto|].
        intros [?|?]; discriminate.
    + destruct (generateDeviceId (random c)) as [[id rest]|] eqn:G; [|discriminate].
      intros [= <- <-]. simpl. rewrite lookup_insert_eq.
      pose proof (generateDeviceId_minted _ _ _ G) as Hm.
      assert (Hne : id <> []) by (eapply minted_nonempty; [|exact Hm]; discriminate).
      destruct id as [|i0 id]; [congruence|].
      split; [reflexivity|]. split; [discriminate|].
      split; [|auto]. intros _.
      split; [reflexivity|]. split; [exact Hne|].
      split; [intros y; discriminate|]. auto.
  - intros [= <- <-]. repeat split; try reflexivity; discriminate.
Qed.

Lemma getOrCreateDeviceId_stable_witness :
  getOrCreateDeviceId (example_world None None true true)
    (client_after (getOrCreateDeviceId (example_world None None true true))
                  example_fresh_client)
  = Val (lit "dev_910az23456789bcdefghi")
        (client_after (getOrCreateDeviceId (example_world None None true true))
                      example_fresh_client).
Proof.
  apply (getOrCreateDeviceId_stable (example_world None None true true)
           example_fresh_client).
  vm_compute. reflexivity.
Defined.

Lemma constructor_run w c :
  constructor w c
  = match getOrCreateDeviceId w c with
    | Val dev c1 =>
        match generateSessionId (random c1) with
        | Some (id, rest) =>
            Val tt (mkClient id dev (localStorage c1) rest (trace c1))
        | None => Hang
        end
    | Exn e c1 => Exn e c1
    | Hang => Hang
    end.
Proof.
  unfold constructor, set_deviceId, newSessionId, set_sessionId, with_sessionId,
    with_random, bind, modify.
  destruct (getOrCreateDeviceId w c) as [dev c1|e c1|]; try reflexivity.
  simpl. now destruct (generateSessionId (random c1)) as [[id rest]|].
Qed.

(** X23 (construction): an instance constructed in a browser carries the
    device identifier that is stored under ["nymeria-device-id"] afterwards
    and a fresh ["sess_"] identifier; an instance constructed later over the
    same storage, whatever else differs, carries the same device identifier
    and leaves the storage as it is, while its session identifier comes from
    its own random bytes. *)
Theorem constructor_device_persists (w : World) (c c1 : Client) :
  has_window w = true ->
  constructor w c = Val tt c1 ->
  localStorage c1 !! DEVICE_ID = Some (c_deviceId c1)
  /\ c_deviceId c1 <> []
  /\ minted "sess_" (c_sessionId c1)
  /\ trace c1 = trace c
  /\ forall c2 c3,
       localStorage c2 = localStorage c1 ->
       constructor w c2 = Val tt c3 ->
       c_deviceId c3 = c_deviceId c1
       /\ localStorage c3 = localStorage c1
       /\ generateSessionId (random c2) = Some (c_sessionId c3, random c3).
Proof.
  intros Hw. rewrite constructor_run.
  destruct (getOrCreateDeviceId w c) as [dev c0|e c0|] eqn:G; try discriminate.
  destruct (generateSessionId (random c0)) as [[id rest]|] eqn:S; [|discriminate].
  intros [= <-]. simpl.
  destruct (getOrCreateDeviceId_stored w c c0 dev Hw G) as (Hl & Hne & Ht).
  split; [exact Hl|]. split; [exact Hne|].
  split; [eapply generateSessionId_minted; exact S|].
  split; [exact Ht|].
  intros c2 c3 Hs. rewrite constructor_run, getOrCreateDeviceId_run, Hw, Hs, Hl.
  destruct dev as [|x dev]; [congruence|].
  destruct (generateSessionId (random c2)) as [[id2 rest2]|]; [|discriminate].
  intros [= <-]. simpl. auto.
Qed.

Lemma constructor_device_persists_witness :
  minted "sess_"
    (c_sessionId (client_after (constructor (example_world None None true true))
                               example_fresh_client)).
Proof.
  apply (constructor_device_persists (example_world None None true true)
           example_fresh_client
           (client_after (constructor (example_world None None true true))
                         example_fresh_client)).
  - reflexivity.
  - vm_compute. reflexivity.
Defined.

(** *** Runs of the methods *)

Lemma handleCallback_no_session w c :
  match oauth_init w with
  | InitSession _ _ => False
  | _ => True
  end -> handleCallback w c = Val None c.
Proof.
  unfold handleCallback, try_catch, throw, ret.
  now destruct (oauth_init w).
Qed.

Lemma restoreSession_no_session w did c :
  match oauth_restore w did with
  | Some (Some _) => False
  | _ => True
  end -> restoreSession w did c = Val None c.
Proof.
  unfold restoreSession, try_catch, throw, ret.
  now destruct (oauth_restore w did) as [[s|]|].
Qed.

Lemma signIn_run href ident redirect c :
  signIn href ident redirect c
  = match generateSessionId (random c) with
    | Some (id, rest) =>
        Val (mkAuthState ident
                         (match redirect with Some r => r | None => href end)
                         (Some id))
            (with_sessionId id (with_random rest c))
    | None => Hang
    end.
Proof.
  unfold signIn, newSessionId, set_sessionId, bind, modify, get, ret.
  now destruct (generateSessionId (random c)) as [[id rest]|].
Qed.

Lemma parsed_with_callback s state sid w :
  state <> [] ->
  parsedState_sessionId (with_callback s state sid w) (Some state) = sid.
Proof.
  intros Hne. destruct state as [|x state]; [congruence|].
  unfold parsedState_sessionId, with_callback. simpl.
  rewrite bool_decide_eq_true_2 by reflexivity. now destruct sid.
Qed.

Lemma handleCallback_with_callback s state sid w c :
  state <> [] ->
  handleCallback (with_callback s state (Some sid) w) c
  = Val (Some (enhanced_session w s (with_sessionId sid c)))
        (emitted (CalledFetch ApiSync sid) (with_sessionId sid c)).
Proof.
  intros Hne.
  rewrite (handleCallback_session _ s (Some state)) by reflexivity.
  now rewrite parsed_with_callback.
Qed.

(** X24 (callback): when the state that comes back with the callback parses
    to an object with a [sessionId], [handleCallback] adopts that value as it
    is, whatever string it is and whatever session identifier the instance
    had: it becomes the instance's and the returned session's identifier
    without a read of the random source, and it is the identifier sent to the
    synchronization endpoint, the one call made. *)
Theorem handleCallback_adopts_state_sessionId (w : World) (s : OAuthSession)
    (state sid : jsstring) (c : Client) :
  state <> [] ->
  exists es c',
    handleCallback (with_callback s state (Some sid) w) c = Val (Some es) c'
    /\ sessionId es = sid /\ c_sessionId c' = sid
    /\ session es = s /\ es_sub es = sub s /\ deviceId es = c_deviceId c
    /\ random c' = random c /\ localStorage c' = localStorage c
    /\ trace c' = trace c ++ [CalledFetch ApiSync sid].
Proof.
  intros Hne. rewrite handleCallback_with_callback by exact Hne.
  eexists _, _. split; [reflexivity|]. simpl. auto 10.
Qed.

Lemma handleCallback_adopts_state_sessionId_witness :
  exists es c',
    handleCallback (with_callback example_session (lit "{}") (Some (lit "anything"))
                      (example_world None None true false))
                   example_client = Val (Some es) c'
    /\ sessionId es = lit "anything".
Proof.
  destruct (handleCallback_adopts_state_sessionId (example_world None None true false)
              example_session (lit "{}") (lit "anything") example_client)
    as (es & c' & H & Hs & _); [discriminate|].
  now exists es, c'.
Defined.

(** X25 (sign-in): [signIn] replaces the instance's session identifier by a
    fresh ["sess_"] identifier and hands it to the provider in the state,
    with the identifier given and the redirect target (the current location
    when none is given); nothing is stored and no call recorded.  When the
    provider brings that state back, [handleCallback], on this or on any
    other instance, returns a session with the identifier minted at
    sign-in. *)
Theorem signIn_round_trip (href ident : jsstring) (redirect : option jsstring)
    (c c1 : Client) (a : AuthState) :
  signIn href ident redirect c = Val a c1 ->
  state_sessionId a = Some (c_sessionId c1)
  /\ minted "sess_" (c_sessionId c1)
  /\ generateSessionId (random c) = Some (c_sessionId c1, random c1)
  /\ Orchestrator.ident a = ident
  /\ Orchestrator.redirect a = default href redirect
  /\ c_deviceId c1 = c_deviceId c /\ localStorage c1 = localStorage c
  /\ trace c1 = trace c
  /\ forall w s state sid c2,
       state <> [] -> state_sessionId a = Some sid ->
       exists es c3,
         handleCallback (with_callback s state (Some sid) w) c2 = Val (Some es) c3
         /\ sessionId es = c_sessionId c1
         /\ c_sessionId c3 = c_sessionId c1.
Proof.
  rewrite signIn_run.
  destruct (generateSessionId (random c)) as [[id rest]|] eqn:G; [|discriminate].
  intros [= <- <-]. simpl.
  split; [reflexivity|].
  split; [eapply generateSessionId_minted; exact G|].
  split; [reflexivity|]. split; [reflexivity|].
  split; [now destruct redirect|].
  split; [reflexivity|]. split; [reflexivity|]. split; [reflexivity|].
  intros w s state sid c2 Hne [= <-].
  rewrite handleCallback_with_callback by exact Hne.
  eexists _, _. split; [reflexivity|]. simpl. auto.
Qed.

Lemma signIn_round_trip_witness :
  state_sessionId
    (match signIn (lit "https://app.example/") (lit "alice.example") None example_client with
     | Val a _ => a
     | _ => mkAuthState [] [] None
     end)
  = Some (lit "sess_910az23456789bcdefghi").
Proof.
  destruct (signIn (lit "https://app.example/") (lit "alice.example") None example_client)
    as [a c1| |] eqn:E; try (vm_compute in E; discriminate).
  destruct (signIn_round_trip _ _ _ _ _ _ E) as (H & _).
  rewrite H. vm_compute in E. now injection E as _ <-.
Defined.

(** X26 (restoration): [restoreSession] returns [null] and does nothing more
    when the provider's [restore] throws or yields no session.  With a
    session it keeps the session identifier that the instance has, reading
    no random bytes, and mints one only when the instance has none; it then
    calls the synchronization endpoint and after it the activity endpoint,
    both with that identifier, and returns the session for the provider's
    subject with the instance's device identifier. *)
Theorem restoreSession_outcomes (w : World) (did : jsstring) (c : Client) :
  (match oauth_restore w did with
   | Some (Some _) => False
   | _ => True
   end -> restoreSession w did c = Val None c)
  /\ (forall s, oauth_restore w did = Some (Some s) ->
        (c_sessionId c <> [] ->
         exists es c',
           restoreSession w did c = Val (Some es) c'
           /\ sessionId es = c_sessionId c /\ c_sessionId c' = c_sessionId c
           /\ random c' = random c
           /\ session es = s /\ es_sub es = sub s /\ deviceId es = c_deviceId c
           /\ trace c' = trace c ++ [CalledFetch ApiSync (c_sessionId c);
                                     CalledFetch ApiActivity (c_sessionId c)])
        /\ (c_sessionId c = [] ->
            forall id rest, generateSessionId (random c) = Some (id, rest) ->
            exists es c',
              restoreSession w did c = Val (Some es) c'
              /\ sessionId es = id /\ c_sessionId c' = id /\ random c' = rest
              /\ minted "sess_" id
              /\ session es = s /\ es_sub es = sub s /\ deviceId es = c_deviceId c
              /\ trace c' = trace c ++ [CalledFetch ApiSync id;
                                        CalledFetch ApiActivity id])).
Proof.
  split; [apply restoreSession_no_session|].
  intros s Hs. rewrite (restoreSession_session w did s c Hs). split.
  - intros Hne. destruct (c_sessionId c) as [|x sid] eqn:E; [congruence|].
    eexists _, _. split; [reflexivity|]. simpl.
    rewrite <- app_assoc. rewrite E. auto 10.
  - intros -> id rest G. rewrite G.
    eexists _, _. split; [reflexivity|]. simpl.
    rewrite <- app_assoc.
    repeat split; try reflexivity. eapply generateSessionId_minted; exact G.
Qed.

Lemma restoreSession_outcomes_witness :
  exists es c',
    restoreSession (example_world None None true false) example_did example_client
    = Val (Some es) c'
    /\ sessionId es = lit "sess_previous".
Proof.
  destruct (restoreSession_outcomes (example_world None None true false)
              example_did example_client) as [_ H].
  destruct (H example_session eq_refl) as [H1 _].
  destruct H1 as (es & c' & R & S & _); [discriminate|].
  now exists es, c'.
Defined.

(** X27 (network failures): what [fetch] does is invisible to the caller of
    the orchestrator: [handleCallback], [restoreSession] and [signOut]
    return the same value and leave the same instance, storage and record of
    calls whether the requests to the application's endpoints resolve or
    reject. *)
Theorem fetch_outcome_invisible (f : Endpoint -> bool) (w : World)
    (did : jsstring) (c : Client) :
  handleCallback (with_fetch f w) c = handleCallback w c
  /\ restoreSession (with_fetch f w) did c = restoreSession w did c
  /\ signOut (with_fetch f w) did c = signOut w did c.
Proof.
  split; [|split].
  - destruct (oauth_init w) as [| |s state] eqn:I.
    + rewrite !handleCallback_no_session; [reflexivity | now rewrite I | simpl; now rewrite I].
    + rewrite !handleCallback_no_session; [reflexivity | now rewrite I | simpl; now rewrite I].
    + rewrite (handleCallback_session (with_fetch f w) s state) by exact I.
      rewrite (handleCallback_session w s state) by exact I. reflexivity.
  - destruct (oauth_restore w did) as [[s|]|] eqn:R.
    + rewrite (restoreSession_session (with_fetch f w) did s) by exact R.
      rewrite (restoreSession_session w did s) by exact R. reflexivity.
    + rewrite !restoreSession_no_session; [reflexivity | now rewrite R | simpl; now rewrite R].
    + rewrite !restoreSession_no_session; [reflexivity | now rewrite R | simpl; now rewrite R].
  - rewrite !signOut_run. reflexivity.
Qed.

(** X28 (device identity): no method of the orchestrator touches the device
    identity once the instance is constructed: [signIn], [handleCallback],
    [restoreSession] and [signOut] leave the instance's device identifier
    and the identifier stored under ["nymeria-device-id"] as they are, and
    the sessions returned carry the instance's device identifier. *)
Theorem methods_keep_device_identity (w : World) (href ident did : jsstring)
    (redirect : option jsstring) (c : Client) :
  let kept (c' : Client) :=
    c_deviceId c' = c_deviceId c
    /\ localStorage c' !! DEVICE_ID = localStorage c !! DEVICE_ID in
  kept (client_after (signIn href ident redirect) c)
  /\ kept (client_after (handleCallback w) c)
  /\ kept (client_after (restoreSession w did) c)
  /\ kept (client_after (signOut w did) c)
  /\ (forall es c', handleCallback w c = Val (Some es) c' -> deviceId es = c_deviceId c)
  /\ (forall es c', restoreSession w did c = Val (Some es) c' ->
        deviceId es = c_deviceId c).
Proof.
  intros kept. unfold kept, client_after.
  assert (Hdel : forall ls : gmap jsstring jsstring,
             delete CURRENT_DID ls !! DEVICE_ID = ls !! DEVICE_ID).
  { intros ls. apply lookup_delete_ne. intros H. now apply device_key_apart. }
  split; [|split; [|split; [|split; [|split]]]].
  - rewrite signIn_run. now destruct (generateSessionId (random c)) as [[id rest]|].
  - destruct (oauth_init w) as [| |s state] eqn:I.
    + rewrite handleCallback_no_session by now rewrite I. auto.
    + rewrite handleCallback_no_session by now rewrite I. auto.
    + rewrite (handleCallback_session w s state) by exact I.
      destruct (parsedState_sessionId w state); [now simpl|].
      now destruct (generateSessionId (random c)) as [[id rest]|].
  - destruct (oauth_restore w did) as [[s|]|] eqn:R.
    + rewrite (restoreSession_session w did s) by exact R.
      destruct (c_sessionId c); [|now simpl].
      now destruct (generateSessionId (random c)) as [[id rest]|].
    + rewrite restoreSession_no_session by now rewrite R. auto.
    + rewrite restoreSession_no_session by now rewrite R. auto.
  - rewrite signOut_run.
    destruct (oauth_revoke w did), (has_window w); simpl;
      try (destruct (generateSessionId _) as [[id rest]|]; simpl);
      rewrite ?Hdel; auto.
  - intros es c'. destruct (oauth_init w) as [| |s state] eqn:I.
    + rewrite handleCallback_no_session by now rewrite I. discriminate.
    + rewrite handleCallback_no_session by now rewrite I. discriminate.
    + rewrite (handleCallback_session w s state) by exact I.
      destruct (parsedState_sessionId w state); [now intros [= <- _]|].
      destruct (generateSessionId (random c)) as [[id rest]|]; [|discriminate].
      now intros [= <- _].
  - intros es c'. destruct (oauth_restore w did) as [[s|]|] eqn:R.
    + rewrite (restoreSession_session w did s) by exact R.
      destruct (c_sessionId c); [|now intros [= <- _]].
      destruct (generateSessionId (random c)) as [[id rest]|]; [|discriminate].
      now intros [= <- _].
    + rewrite restoreSession_no_session by now rewrite R. discriminate.
    + rewrite restoreSession_no_session by now rewrite R. discriminate.
Qed.

End OrchestratorFacts.

(** ** Security headers *)

Module HeadersFacts.

Import Headers.

(** The six assignments, with the names as the [Headers] object keeps
    them. *)
Lemma applySecurityHeaders_run (h : headers) :
  applySecurityHeaders h
  = <[lit "permissions-policy" := lit "camera=(), microphone=(), geolocation=()"]>
    (<[lit "content-security-policy" := lit "default-src 'none'; frame-ancestors 'none';"]>
    (<[lit "referrer-policy" := lit "strict-origin-when-cross-origin"]>
    (<[lit "x-frame-options" := lit "DENY"]>
    (<[lit "x-xss-protection" := lit "1; mode=block"]>
    (<[lit "x-content-type-options" := lit "nosniff"]> h))))).
Proof. reflexivity. Qed.

(** Looks a name up in a map built by assignments to constant names. *)
Ltac lookup_assigned :=
  repeat first
    [ rewrite lookup_insert_eq
    | rewrite lookup_insert_ne by discriminate
    | rewrite lookup_insert_ne by assumption ].

(** X29 (security headers): after [applySecurityHeaders] each of the six
    security headers has the value of [SECURITY_HEADERS], under whatever
    capitalization the name is asked for and whatever value the response had
    for it; every other header of the response is as it was; and applying
    again changes nothing. *)
Theorem applySecurityHeaders_sets_all (h : headers) :
  (forall name value asked,
     In (name, value) SECURITY_HEADERS ->
     byte_lowercase asked = byte_lowercase name ->
     get asked (applySecurityHeaders h) = Some value)
  /\ (forall asked,
        ~ In (byte_lowercase asked) (map (fun kv => byte_lowercase kv.1) SECURITY_HEADERS) ->
        get asked (applySecurityHeaders h) = get asked h)
  /\ applySecurityHeaders (applySecurityHeaders h) = applySecurityHeaders h.
Proof.
  split; [|split].
  - intros name value asked Hin Heq. unfold get. rewrite Heq, applySecurityHeaders_run.
    simpl in Hin.
    repeat (destruct Hin as [[= <- <-] | Hin]; [now lookup_assigned|]).
    destruct Hin.
  - intros asked Hout. unfold get. rewrite applySecurityHeaders_run.
    assert (Hne : forall k, In k (map (fun kv => byte_lowercase kv.1) SECURITY_HEADERS) ->
                            k <> byte_lowercase asked).
    { intros k Hk ->. contradiction. }
    rewrite !lookup_insert_ne; [reflexivity|..]; apply Hne; simpl; auto 10.
  - rewrite !applySecurityHeaders_run. apply map_eq. intros i.
    repeat match goal with
           | |- <[?k := _]> _ !! i = _ =>
               destruct (decide (k = i)) as [<-|];
               [now lookup_assigned | rewrite (lookup_insert_ne _ k i) by assumption]
           end.
    now lookup_assigned.
Qed.

Lemma applySecurityHeaders_sets_all_witness :
  get (lit "X-FRAME-OPTIONS")
      (applySecurityHeaders {[ lit "x-frame-options" := lit "SAMEORIGIN" ]})
  = Some (lit "DENY").
Proof.
  apply (proj1 (applySecurityHeaders_sets_all
                  {[ lit "x-frame-options" := lit "SAMEORIGIN" ]})
           (lit "X-Frame-Options") (lit "DENY") (lit "X-FRAME-OPTIONS")).
  - simpl. auto.
  - reflexivity.
Defined.

End HeadersFacts.

(** ** The orchestrator's synchronization request at the route *)

Module WireFacts.

Import Sanitize RateLimit Server Gateway Examples Wire.
Import ServerFacts ClientFacts EndpointFacts SyncFacts.

(** A DID has a colon, which no handle has. *)
Lemma re_did_not_handle s : re_did s = true -> re_handle s = false.
Proof.
  unfold re_did.
  destruct (strip_prefix (lit "did:") s) as [r|] eqn:E; [|discriminate].
  intros _. apply SanitizeFacts.strip_prefix_app in E. subst s.
  unfold re_handle, all_plus.
  change (lit "did:" ++ r) with ("d" :: "i" :: "d" :: ":" :: r)%char%list.
  cbn [forallb]. change (handle_char ":") with false.
  now rewrite !andb_false_r.
Qed.

(** The session that [handleCallback] or [restoreSession] returns is the
    enhanced session of a provider session. *)
Lemma returned_session w did c es c' :
  Client.handleCallback w c = Val (Some es) c'
  \/ Client.restoreSession w did c = Val (Some es) c' ->
  exists s c1, es = Spec.enhanced_session w s c1.
Proof.
  intros [H | H].
  - destruct (Client.oauth_init w) as [| |s state] eqn:I.
    + rewrite OrchestratorFacts.handleCallback_no_session in H by now rewrite I.
      discriminate.
    + rewrite OrchestratorFacts.handleCallback_no_session in H by now rewrite I.
      discriminate.
    + rewrite (handleCallback_session w s state) in H by exact I.
      destruct (Client.parsedState_sessionId w state).
      * injection H as <- _. eauto.
      * destruct (IdentityUtils.generateSessionId _) as [[id rest]|]; [|discriminate].
        injection H as <- _. eauto.
  - destruct (Client.oauth_restore w did) as [[s|]|] eqn:R.
    + rewrite (restoreSession_session w did s) in H by exact R.
      destruct (Client.c_sessionId c).
      * destruct (IdentityUtils.generateSessionId _) as [[id rest]|]; [|discriminate].
        injection H as <- _. eauto.
      * injection H as <- _. eauto.
    + rewrite OrchestratorFacts.restoreSession_no_session in H by now rewrite R.
      discriminate.
    + rewrite OrchestratorFacts.restoreSession_no_session in H by now rewrite R.
      discriminate.
Qed.

Lemma unnamed_handle w sub : unnamed w sub -> Spec.handle_of (Client.getProfile w sub) sub = sub.
Proof.
  unfold unnamed, Spec.handle_of.
  destruct (Client.getProfile w sub) as [p|]; [|reflexivity]. now intros ->.
Qed.

(** The schema of the validating route refuses a body whose handle is its
    DID. *)
Lemma syncSchema_hardened_did_as_handle env b d :
  b_did b = IsString d -> b_handle b = IsString d ->
  syncSchema_hardened env b = None.
Proof.
  intros Hd Hh. unfold syncSchema_hardened. rewrite Hd, Hh. simpl.
  destruct (min_len 1 d && max_len 500 d && re_did d) eqn:E; [|reflexivity].
  apply andb_true_iff in E as [_ E]. rewrite (re_did_not_handle d E).
  now rewrite andb_false_r.
Qed.

(** X30.  The orchestrator sends the session's [handle] to the
    synchronization route, and that is the subject DID whenever the profile
    lookup failed or gave no display name.  The route with input validation
    refuses every such request, whatever else it carries: the answer is 400
    (or 429 from the rate limiter) and nothing reaches the database, so the
    session that [handleCallback] or [restoreSession] returned is not
    recorded.  The first version of the route has no such check: it sends
    the [INSERT] of a user with that DID to the database, where it fails as
    every [INSERT] of the route does, and answers 500. *)
Theorem unnamed_session_not_synchronized (w : Client.World) (did ua : jsstring)
    (c c' : Client.Client) (es : Client.EnhancedSession)
    (env : Env) (req : Request SyncBody) (st : State) :
  Client.handleCallback w c = Val (Some es) c'
  \/ Client.restoreSession w did c = Val (Some es) c' ->
  unnamed w (Client.es_sub es) ->
  json req = Some (sync_body es ua) ->
  (exists r st',
      sync_POST_hardened env req st = Val r st'
      /\ (status r = 400%nat \/ status r = 429%nat)
      /\ untouched st st')
  /\ (exists r st',
        sync_POST env req st = Val r st'
        /\ status r = 500%nat
        /\ db_log st' = db_log st ++ [InsertUsers (Client.es_sub es)]
        /\ users st' = users st /\ userSessions st' = userSessions st).
Proof.
  intros Hes Hun J.
  destruct (returned_session w did c es c' Hes) as (s & c1 & ->).
  simpl in Hun. pose proof (unnamed_handle w _ Hun) as Hh.
  assert (Hb : b_did (sync_body (Spec.enhanced_session w s c1) ua)
               = IsString (Client.sub s)
               /\ b_handle (sync_body (Spec.enhanced_session w s c1) ua)
                  = IsString (Client.sub s)).
  { unfold sync_body. simpl. now rewrite Hh. }
  destruct Hb as [Hbd Hbh]. split.
  - pose proof (syncSchema_hardened_did_as_handle env _ _ Hbd Hbh) as Hs.
    unfold sync_POST_hardened, try_catch, bind, get, set_rateLimiter, modify,
      request_json, zod_parse, untouched.
    destruct (applyRateLimit _ _ _ _) as [res store]. simpl.
    destruct (allowed res); simpl; [|eauto 10].
    destruct (is_json_content req); simpl; [|eauto 10].
    rewrite J. simpl. rewrite Hs. simpl. eauto 10.
  - unfold sync_POST, try_catch, bind, request_json, zod_parse.
    rewrite J. simpl.
    destruct (syncSchema (sync_body (Spec.enhanced_session w s c1) ua))
      as [data|] eqn:E.
    + apply syncSchema_fields in E as (Ed & Eh & _).
      rewrite Hbd in Ed. injection Ed as Ed.
      simpl. rewrite sync_persist_run. simpl.
      eexists _, _. split; [reflexivity|]. simpl. rewrite Ed. auto.
    + exfalso. revert E. unfold syncSchema, sync_body. simpl.
      destruct (Client.getProfile w (Client.sub s)) as [p|]; simpl;
        [destruct (Client.pv_displayName p), (Client.pv_avatar p),
           (Client.pv_description p)|];
        destruct (Client.session_pds s); discriminate.
Qed.

Lemma unnamed_session_not_synchronized_witness :
  (exists r st',
      sync_POST_hardened (example_env 1000)
        (mkRequest SyncBody None None (Some (lit "application/json"))
         (Some (sync_body
                  (Spec.enhanced_session (example_world None None true true)
                     example_session
                     (Client.with_sessionId (lit "sess_x") example_client))
                  (lit "Mozilla/5.0"))))
        empty_state = Val r st'
      /\ (status r = 400%nat \/ status r = 429%nat))
  /\ (exists r st',
         sync_POST (example_env 1000)
           (mkRequest SyncBody None None (Some (lit "application/json"))
         (Some (sync_body
                  (Spec.enhanced_session (example_world None None true true)
                     example_session
                     (Client.with_sessionId (lit "sess_x") example_client))
                  (lit "Mozilla/5.0"))))
           empty_state = Val r st'
         /\ status r = 500%nat /\ db_log st' = [InsertUsers example_did]).
Proof.
  destruct (unnamed_session_not_synchronized
              (Orchestrator.with_callback example_session (lit "{}")
                 (Some (lit "sess_x")) (example_world None None true true))
              example_did (lit "Mozilla/5.0") example_client
              (Orchestrator.client_after
                 (Client.handleCallback
                    (Orchestrator.with_callback example_session (lit "{}")
                       (Some (lit "sess_x")) (example_world None None true true)))
                 example_client)
              (Spec.enhanced_session (example_world None None true true)
                 example_session
                 (Client.with_sessionId (lit "sess_x") example_client))
              (example_env 1000)
              (mkRequest SyncBody None None (Some (lit "application/json"))
                 (Some (sync_body
                          (Spec.enhanced_session (example_world None None true true)
                             example_session
                             (Client.with_sessionId (lit "sess_x") example_client))
                          (lit "Mozilla/5.0"))))
              empty_state) as [(r & st' & H & Hs & _) (r2 & st2 & H2 & Hs2 & Hl2 & _)].
  - left. vm_compute. reflexivity.
  - exact I.
  - reflexivity.
  - split; [now exists r, st' | now exists r2, st2].
Defined.

End WireFacts.
